(** * SyllaBug: the assignment-extraction pipeline and its callers

  A shallow embedding of [backend/services/openai.js] (prompt building,
  model invocation with time-out and fall-back, tolerant normalisation of
  the model's answer) and of [backend/server.js] (the cross-origin policy
  and the two POST routes), followed by the parts of the front end that
  use them: the handler of the page that asks for the assignments, the
  updaters of the table and the export to CSV. The properties of the
  pipeline and of its callers come last.

  JavaScript strings are sequences of UTF-16 code units, JavaScript values
  are a small inductive type, exceptions are an error monad, and the
  timers (45 s around the model calls, 10 s in the route, 60 s on the
  page) are modelled with a clock in milliseconds. *)

From Stdlib Require Import String Ascii NArith ZArith Bool Lia List.
Import ListNotations.
Local Open Scope list_scope.
Set Warnings "-register-all".

(* ================================================================== *)
(** * The fragment of JavaScript the code uses *)
(* ================================================================== *)

Module JS.

(** A string is its sequence of UTF-16 code units; [length] is the
    JavaScript [.length]. *)
Definition code_unit := N.
Definition jstring := list code_unit.

(** An ASCII literal as a JavaScript string. *)
Definition lit (s : string) : jstring :=
  map N_of_ascii (list_ascii_of_string s).

(** The double quote, and a double-quoted literal. *)
Definition quote : code_unit := 34%N.
Definition dq (s : string) : jstring := quote :: lit s ++ [quote].

(** JSON text for examples, written with ['] where JSON has the double
    quote. *)
Definition json_text (s : string) : jstring :=
  map (fun c => if (c =? 39)%N then quote else c) (lit s).

Fixpoint jstring_eqb (a b : jstring) : bool :=
  match a, b with
  | [], [] => true
  | x :: a', y :: b' => (x =? y)%N && jstring_eqb a' b'
  | _, _ => false
  end.

(** A number is kept as the exact decimal its source denotes,
    [(-1)^neg * mant * 10^exp10]; what the code observes of a number
    (truthiness, [=== 0], [> 0]) is computed from the IEEE-754 double it
    rounds to. *)
Record number := { neg : bool; mant : N; exp10 : Z }.

Definition of_nat (n : nat) : number :=
  {| neg := false; mant := N.of_nat n; exp10 := 0%Z |}.

(** The double nearest to the decimal is [+0] or [-0]: the decimal is zero
    or at most [2^-1075] in magnitude (half the least subnormal, the tie
    going to the even significand, zero). *)
Definition rounds_to_zero (x : number) : bool :=
  (mant x =? 0)%N
  || ((exp10 x <? 0)%Z
      && (Z.of_N (mant x) * 2 ^ 1075 <=? 10 ^ (- exp10 x))%Z).

Inductive value :=
| VUndefined
| VNull
| VBool (b : bool)
| VNumber (x : number)
| VString (s : jstring)
| VArray (elems : list value)
| VObject (props : list (jstring * value)).

(** Induction on values, through the elements of arrays and the property
    values of objects. *)
Section value_induction.
Variable P : value -> Prop.
Hypothesis case_undefined : P VUndefined.
Hypothesis case_null : P VNull.
Hypothesis case_bool : forall b, P (VBool b).
Hypothesis case_number : forall x, P (VNumber x).
Hypothesis case_string : forall s, P (VString s).
Hypothesis case_array : forall elems, Forall P elems -> P (VArray elems).
Hypothesis case_object :
  forall props, Forall (fun kv => P (snd kv)) props -> P (VObject props).

Fixpoint value_induction (v : value) : P v :=
  match v with
  | VUndefined => case_undefined
  | VNull => case_null
  | VBool b => case_bool b
  | VNumber x => case_number x
  | VString s => case_string s
  | VArray elems =>
      case_array elems
        ((fix go (l : list value) : Forall P l :=
            match l with
            | [] => Forall_nil P
            | x :: rest => Forall_cons x (value_induction x) (go rest)
            end) elems)
  | VObject props =>
      case_object props
        ((fix go (l : list (jstring * value))
            : Forall (fun kv => P (snd kv)) l :=
            match l with
            | [] => Forall_nil _
            | kv :: rest =>
                Forall_cons kv (value_induction (snd kv)) (go rest)
            end) props)
  end.
End value_induction.

(** Exceptions: the error class and its [message]. What the code catches
    is always an error object: the language throws TypeError and
    SyntaxError, the API client rejects with its error classes, the timer
    and the code itself with [new Error]. *)
Inductive exn :=
| TypeError (message : jstring)
| SyntaxError (message : jstring)
| Error (message : jstring).

Definition message (e : exn) : jstring :=
  match e with TypeError m | SyntaxError m | Error m => m end.

(** The completion of an evaluation: a value, or a thrown exception. *)
Inductive completion (A : Type) :=
| Normal (a : A)
| Throw (e : exn).
Arguments Normal {A} a.
Arguments Throw {A} e.

Definition bind {A B} (m : completion A) (k : A -> completion B)
  : completion B :=
  match m with Normal a => k a | Throw e => Throw e end.

(** [try { m } catch (e) { h e }] *)
Definition try_catch {A} (m : completion A) (h : exn -> completion A)
  : completion A :=
  match m with Normal a => Normal a | Throw e => h e end.

(** ToBoolean. *)
Definition truthy (v : value) : bool :=
  match v with
  | VUndefined | VNull => false
  | VBool b => b
  | VNumber x => negb (rounds_to_zero x)
  | VString s => match s with [] => false | _ => true end
  | VArray _ | VObject _ => true
  end.

Definition Array_isArray (v : value) : bool :=
  match v with VArray _ => true | _ => false end.

Definition is_string (v : value) : bool :=
  match v with VString _ => true | _ => false end.

(** ** Property keys *)

Definition is_digit (c : code_unit) : bool := (48 <=? c)%N && (c <=? 57)%N.

Fixpoint decimal_value (acc : N) (s : jstring) : option N :=
  match s with
  | [] => Some acc
  | c :: s' =>
      if is_digit c then decimal_value (acc * 10 + (c - 48))%N s' else None
  end.

(** An array index is the canonical decimal of an integer below
    [2^32 - 1]. *)
Definition array_index (k : jstring) : option N :=
  match k with
  | [] => None
  | c :: k' =>
      if (c =? 48)%N && negb (match k' with [] => true | _ => false end)
      then None
      else match decimal_value 0 k with
           | Some n => if (n <? 4294967295)%N then Some n else None
           | None => None
           end
  end.

Fixpoint digits_of_uint (d : Decimal.uint) : jstring :=
  match d with
  | Decimal.Nil => []
  | Decimal.D0 d' => 48%N :: digits_of_uint d'
  | Decimal.D1 d' => 49%N :: digits_of_uint d'
  | Decimal.D2 d' => 50%N :: digits_of_uint d'
  | Decimal.D3 d' => 51%N :: digits_of_uint d'
  | Decimal.D4 d' => 52%N :: digits_of_uint d'
  | Decimal.D5 d' => 53%N :: digits_of_uint d'
  | Decimal.D6 d' => 54%N :: digits_of_uint d'
  | Decimal.D7 d' => 55%N :: digits_of_uint d'
  | Decimal.D8 d' => 56%N :: digits_of_uint d'
  | Decimal.D9 d' => 57%N :: digits_of_uint d'
  end.

Definition index_key (n : N) : jstring := digits_of_uint (N.to_uint n).

(** ** Own properties of an object, in creation order *)

Fixpoint lookup (k : jstring) (props : list (jstring * value))
  : option value :=
  match props with
  | [] => None
  | (k', v) :: rest => if jstring_eqb k k' then Some v else lookup k rest
  end.

(** CreateDataProperty: a present key keeps its place and takes the new
    value, a new key goes last. *)
Fixpoint set_prop (k : jstring) (v : value) (props : list (jstring * value))
  : list (jstring * value) :=
  match props with
  | [] => [(k, v)]
  | (k', v') :: rest =>
      if jstring_eqb k k' then (k', v) :: rest
      else (k', v') :: set_prop k v rest
  end.

Definition or_undefined (o : option value) : value :=
  match o with Some v => v | None => VUndefined end.

(** [v[k]] and [v.k], for a property name [k] that the built-in prototypes
    do not define (the code reads [items], [title], [choices], [message],
    [content], [text], [length] and the keys [Object.keys] returned): own
    properties only, [undefined] when absent, a TypeError on [undefined]
    and [null]. *)
Definition get (v : value) (k : jstring) : completion value :=
  match v with
  | VUndefined | VNull =>
      Throw (TypeError (lit "Cannot read properties of undefined or null"))
  | VObject props => Normal (or_undefined (lookup k props))
  | VArray elems =>
      if jstring_eqb k (lit "length")
      then Normal (VNumber (of_nat (length elems)))
      else match array_index k with
           | Some i => Normal (nth (N.to_nat i) elems VUndefined)
           | None => Normal VUndefined
           end
  | VString s =>
      if jstring_eqb k (lit "length")
      then Normal (VNumber (of_nat (length s)))
      else match array_index k with
           | Some i => Normal (match nth_error s (N.to_nat i) with
                               | Some c => VString [c]
                               | None => VUndefined
                               end)
           | None => Normal VUndefined
           end
  | VBool _ | VNumber _ => Normal VUndefined
  end.

(** Ascending insertion of an index. *)
Fixpoint insert_sorted (n : N) (l : list N) : list N :=
  match l with
  | [] => [n]
  | m :: l' => if (n <=? m)%N then n :: l else m :: insert_sorted n l'
  end.

Fixpoint index_keys (props : list (jstring * value)) : list N :=
  match props with
  | [] => []
  | (k, _) :: rest =>
      match array_index k with
      | Some n => insert_sorted n (index_keys rest)
      | None => index_keys rest
      end
  end.

Fixpoint named_keys (props : list (jstring * value)) : list jstring :=
  match props with
  | [] => []
  | (k, _) :: rest =>
      match array_index k with
      | Some _ => named_keys rest
      | None => k :: named_keys rest
      end
  end.

(** [Object.keys]: array indices in ascending order, then the other keys in
    creation order; the indices of a string or an array; nothing for a
    number or a boolean; a TypeError for [undefined] and [null]. *)
Definition Object_keys (v : value) : completion (list jstring) :=
  match v with
  | VUndefined | VNull =>
      Throw (TypeError (lit "Cannot convert undefined or null to object"))
  | VObject props =>
      Normal (map index_key (index_keys props) ++ named_keys props)
  | VArray elems =>
      Normal (map (fun i => index_key (N.of_nat i)) (seq 0 (length elems)))
  | VString s =>
      Normal (map (fun i => index_key (N.of_nat i)) (seq 0 (length s)))
  | VBool _ | VNumber _ => Normal []
  end.

(** [keys.find(pred)]: the first key on which the callback is truthy; an
    exception of the callback ends the search. *)
Fixpoint find (pred : jstring -> completion bool) (keys : list jstring)
  : completion (option jstring) :=
  match keys with
  | [] => Normal None
  | k :: rest =>
      match pred k with
      | Throw e => Throw e
      | Normal true => Normal (Some k)
      | Normal false => find pred rest
      end
  end.

(** [receiver.method(...)] for a method of [String.prototype]: the
    receiver's code units, or the TypeError of calling what is not a
    function. *)
Definition string_method (receiver : value) : completion jstring :=
  match receiver with
  | VString s => Normal s
  | VUndefined | VNull =>
      Throw (TypeError (lit "Cannot read properties of undefined or null"))
  | _ => Throw (TypeError (lit "not a function"))
  end.

(** [x === 0] *)
Definition strictly_zero (v : value) : bool :=
  match v with VNumber x => rounds_to_zero x | _ => false end.

(** ** The relational operator on a value and zero

    Two conversions of the language are taken as given: the decimal text
    of a number (Number::toString), and whether the number a text denotes
    (StringToNumber) is greater than zero. *)

Record conversions := {
  number_to_string : number -> jstring;
  string_gt_zero : jstring -> bool
}.

Definition has_own (k : jstring) (props : list (jstring * value)) : bool :=
  match lookup k props with Some _ => true | None => false end.

Definition not_primitive : exn :=
  TypeError (lit "Cannot convert object to primitive value").

(** ToString of a value made of JSON data. An array is joined with
    commas, [undefined] and [null] elements giving the empty text. An
    object inherits [Object.prototype.toString], unless an own property
    named [toString] hides it: that property is not a function, and
    [valueOf] does not give a primitive, so the conversion throws. *)
Fixpoint to_string (cv : conversions) (v : value) : completion jstring :=
  match v with
  | VUndefined => Normal (lit "undefined")
  | VNull => Normal (lit "null")
  | VBool true => Normal (lit "true")
  | VBool false => Normal (lit "false")
  | VNumber x => Normal (number_to_string cv x)
  | VString s => Normal s
  | VObject props =>
      if has_own (lit "toString") props then Throw not_primitive
      else Normal (lit "[object Object]")
  | VArray elems =>
      (fix join (l : list value) : completion jstring :=
         match l with
         | [] => Normal []
         | x :: rest =>
             bind (match x with
                   | VUndefined | VNull => Normal []
                   | _ => to_string cv x
                   end)
                  (fun a =>
                     match rest with
                     | [] => Normal a
                     | _ => bind (join rest)
                                 (fun b => Normal (a ++ lit "," ++ b))
                     end)
         end) elems
  end.

(** ToString returns on the value. *)
Fixpoint stringifies (v : value) : bool :=
  match v with
  | VObject props => negb (has_own (lit "toString") props)
  | VArray elems =>
      (fix all (l : list value) : bool :=
         match l with
         | [] => true
         | x :: rest => stringifies x && all rest
         end) elems
  | _ => true
  end.

(** A value interpolated in the template literal of a log line: the text
    is not kept, only whether ToString returns. *)
Definition interpolate (v : value) : completion unit :=
  if stringifies v then Normal tt else Throw not_primitive.

Definition positive (x : number) : bool :=
  negb (neg x) && negb (rounds_to_zero x).

(** [v > 0]: ToPrimitive, then ToNumber, then the comparison. *)
Definition gt_zero (cv : conversions) (v : value) : completion bool :=
  match v with
  | VUndefined | VNull => Normal false
  | VBool b => Normal b
  | VNumber x => Normal (positive x)
  | VString s => Normal (string_gt_zero cv s)
  | VArray _ | VObject _ =>
      bind (to_string cv v) (fun s => Normal (string_gt_zero cv s))
  end.

(** [e.message || fallback] *)
Definition message_or (e : exn) (fallback : string) : value :=
  match message e with
  | [] => VString (lit fallback)
  | m => VString m
  end.

(** ** Code that also reads and writes a state

    A computation over a state [S] returns the completion and the state
    reached; a thrown exception keeps the state changes made before it. *)

Definition M (S A : Type) := S -> completion A * S.

Definition ret {S A} (a : A) : M S A := fun t => (Normal a, t).
Definition throw {S A} (e : exn) : M S A := fun t => (Throw e, t).
Definition lift {S A} (c : completion A) : M S A := fun t => (c, t).

Definition mbind {S A B} (m : M S A) (k : A -> M S B) : M S B :=
  fun t => match m t with
           | (Normal a, t') => k a t'
           | (Throw e, t') => (Throw e, t')
           end.

Definition mtry {S A} (m : M S A) (h : exn -> M S A) : M S A :=
  fun t => match m t with
           | (Normal a, t') => (Normal a, t')
           | (Throw e, t') => h e t'
           end.

End JS.

(* ================================================================== *)
(** * [JSON.parse] *)
(* ================================================================== *)

(** The built-in the normaliser relies on, after ECMA-404: a lexer that reads
  the text one code unit at a time, then a push-down recogniser over the
  tokens that builds the value. Both are structurally recursive, so
  [JSON_parse] is total. *)

Module Json.
Import JS.

Inductive token :=
| TLBrace | TRBrace | TLBracket | TRBracket | TColon | TComma
| TString (s : jstring)
| TNumber (x : number)
| TTrue | TFalse | TNull.

(** ** Lexer *)

Inductive lstate :=
| LStart                                   (* between tokens *)
| LStr (acc : jstring)                     (* in a string; [acc] reversed *)
| LEsc (acc : jstring)                     (* after a backslash *)
| LHex (acc : jstring) (k : nat) (h : N)   (* in a u escape, after [k] hex digits *)
| LLit (rest : jstring) (tok : token)      (* in true, false or null *)
| LMinus                                   (* after the sign *)
| LZero (ng : bool)                        (* after a leading 0 *)
| LInt (ng : bool) (m : N)                 (* in the integer part *)
| LDot (ng : bool) (m : N)                 (* after the decimal point *)
| LFrac (ng : bool) (m : N) (k : Z)        (* after [k] fraction digits *)
| LE (ng : bool) (m : N) (k : Z)           (* after e or E *)
| LESign (ng : bool) (m : N) (k : Z) (eneg : bool)
| LExp (ng : bool) (m : N) (k : Z) (eneg : bool) (e : N).

(** Tab, line feed, carriage return, space. *)
Definition is_ws (c : code_unit) : bool :=
  (c =? 9)%N || (c =? 10)%N || (c =? 13)%N || (c =? 32)%N.

Definition digit (c : code_unit) : N := (c - 48)%N.

Definition hex_val (c : code_unit) : option N :=
  if is_digit c then Some (c - 48)%N
  else if (65 <=? c)%N && (c <=? 70)%N then Some (c - 55)%N
  else if (97 <=? c)%N && (c <=? 102)%N then Some (c - 87)%N
  else None.

(** The code unit a single-character escape stands for. *)
Definition escape (c : code_unit) : option code_unit :=
  if (c =? 34)%N then Some 34%N            (* quotation mark *)
  else if (c =? 92)%N then Some 92%N       (* reverse solidus *)
  else if (c =? 47)%N then Some 47%N       (* solidus *)
  else if (c =? 98)%N then Some 8%N        (* backspace *)
  else if (c =? 102)%N then Some 12%N      (* form feed *)
  else if (c =? 110)%N then Some 10%N      (* line feed *)
  else if (c =? 114)%N then Some 13%N      (* carriage return *)
  else if (c =? 116)%N then Some 9%N       (* tab *)
  else None.

(** A code unit read between tokens. *)
Definition start (c : code_unit) : option (list token * lstate) :=
  if is_ws c then Some ([], LStart)
  else if (c =? 123)%N then Some ([TLBrace], LStart)
  else if (c =? 125)%N then Some ([TRBrace], LStart)
  else if (c =? 91)%N then Some ([TLBracket], LStart)
  else if (c =? 93)%N then Some ([TRBracket], LStart)
  else if (c =? 58)%N then Some ([TColon], LStart)
  else if (c =? 44)%N then Some ([TComma], LStart)
  else if (c =? 34)%N then Some ([], LStr [])
  else if (c =? 45)%N then Some ([], LMinus)
  else if (c =? 48)%N then Some ([], LZero false)
  else if is_digit c then Some ([], LInt false (digit c))
  else if (c =? 116)%N then Some ([], LLit (lit "rue") TTrue)
  else if (c =? 102)%N then Some ([], LLit (lit "alse") TFalse)
  else if (c =? 110)%N then Some ([], LLit (lit "ull") TNull)
  else None.

Definition signed (eneg : bool) (e : N) : Z :=
  if eneg then (- Z.of_N e)%Z else Z.of_N e.

(** The number a state stands for, when the number may end there. *)
Definition number_end (st : lstate) : option number :=
  match st with
  | LZero ng => Some {| neg := ng; mant := 0; exp10 := 0 |}
  | LInt ng m => Some {| neg := ng; mant := m; exp10 := 0 |}
  | LFrac ng m k => Some {| neg := ng; mant := m; exp10 := (- k)%Z |}
  | LExp ng m k eneg e =>
      Some {| neg := ng; mant := m; exp10 := (signed eneg e - k)%Z |}
  | _ => None
  end.

(** The number ends before [c], which is then read between tokens. *)
Definition end_number (st : lstate) (c : code_unit)
  : option (list token * lstate) :=
  match number_end st, start c with
  | Some x, Some (out, st') => Some (TNumber x :: out, st')
  | _, _ => None
  end.

Definition is_e (c : code_unit) : bool := (c =? 101)%N || (c =? 69)%N.

Definition lstep (st : lstate) (c : code_unit)
  : option (list token * lstate) :=
  match st with
  | LStart => start c
  | LStr acc =>
      if (c =? 34)%N then Some ([TString (rev acc)], LStart)
      else if (c =? 92)%N then Some ([], LEsc acc)
      else if (c <? 32)%N then None
      else Some ([], LStr (c :: acc))
  | LEsc acc =>
      match escape c with
      | Some u => Some ([], LStr (u :: acc))
      | None => if (c =? 117)%N then Some ([], LHex acc 0 0%N) else None
      end
  | LHex acc k h =>
      match hex_val c with
      | Some d =>
          let h' := (h * 16 + d)%N in
          if Nat.eqb k 3 then Some ([], LStr (h' :: acc))
          else Some ([], LHex acc (S k) h')
      | None => None
      end
  | LLit rest tok =>
      match rest with
      | [] => None
      | x :: rest' =>
          if (c =? x)%N
          then match rest' with
               | [] => Some ([tok], LStart)
               | _ => Some ([], LLit rest' tok)
               end
          else None
      end
  | LMinus =>
      if (c =? 48)%N then Some ([], LZero true)
      else if is_digit c then Some ([], LInt true (digit c))
      else None
  | LZero ng =>
      if (c =? 46)%N then Some ([], LDot ng 0%N)
      else if is_e c then Some ([], LE ng 0%N 0%Z)
      else end_number st c
  | LInt ng m =>
      if is_digit c then Some ([], LInt ng (m * 10 + digit c)%N)
      else if (c =? 46)%N then Some ([], LDot ng m)
      else if is_e c then Some ([], LE ng m 0%Z)
      else end_number st c
  | LDot ng m =>
      if is_digit c then Some ([], LFrac ng (m * 10 + digit c)%N 1%Z)
      else None
  | LFrac ng m k =>
      if is_digit c then Some ([], LFrac ng (m * 10 + digit c)%N (k + 1)%Z)
      else if is_e c then Some ([], LE ng m k)
      else end_number st c
  | LE ng m k =>
      if (c =? 43)%N then Some ([], LESign ng m k false)
      else if (c =? 45)%N then Some ([], LESign ng m k true)
      else if is_digit c then Some ([], LExp ng m k false (digit c))
      else None
  | LESign ng m k eneg =>
      if is_digit c then Some ([], LExp ng m k eneg (digit c)) else None
  | LExp ng m k eneg e =>
      if is_digit c then Some ([], LExp ng m k eneg (e * 10 + digit c)%N)
      else end_number st c
  end.

(** End of the text. *)
Definition lfinish (st : lstate) : option (list token) :=
  match st with
  | LStart => Some []
  | _ => match number_end st with
         | Some x => Some [TNumber x]
         | None => None
         end
  end.

Fixpoint lex (st : lstate) (s : jstring) : option (list token) :=
  match s with
  | [] => lfinish st
  | c :: s' =>
      match lstep st c with
      | Some (out, st') =>
          match lex st' s' with
          | Some toks => Some (out ++ toks)
          | None => None
          end
      | None => None
      end
  end.

Definition tokenize (s : jstring) : option (list token) := lex LStart s.

(** ** Parser *)

(** An open container: the elements of an array read so far (reversed), or
    the members of an object read so far and the key whose value is being
    read. *)
Inductive frame :=
| InArray (acc : list value)
| InObject (members : list (jstring * value)) (key : jstring).

Inductive pstate :=
| PValue (stk : list frame)                 (* a value must follow *)
| PArrayOpen (stk : list frame)             (* after [ *)
| PObjectOpen (stk : list frame)            (* after { *)
| PKey (members : list (jstring * value)) (stk : list frame)
| PColon (members : list (jstring * value)) (key : jstring)
         (stk : list frame)
| PArrayNext (acc : list value) (stk : list frame)      (* after an element *)
| PObjectNext (members : list (jstring * value)) (stk : list frame)
| PDone (v : value).

(** A value is complete: it is the result, or goes into the innermost open
    container. *)
Definition complete (v : value) (stk : list frame) : pstate :=
  match stk with
  | [] => PDone v
  | InArray acc :: stk' => PArrayNext (v :: acc) stk'
  | InObject members key :: stk' => PObjectNext (set_prop key v members) stk'
  end.

Definition value_token (stk : list frame) (t : token) : option pstate :=
  match t with
  | TLBracket => Some (PArrayOpen stk)
  | TLBrace => Some (PObjectOpen stk)
  | TString s => Some (complete (VString s) stk)
  | TNumber x => Some (complete (VNumber x) stk)
  | TTrue => Some (complete (VBool true) stk)
  | TFalse => Some (complete (VBool false) stk)
  | TNull => Some (complete VNull stk)
  | TRBrace | TRBracket | TColon | TComma => None
  end.

Definition pstep (st : pstate) (t : token) : option pstate :=
  match st with
  | PValue stk => value_token stk t
  | PArrayOpen stk =>
      match t with
      | TRBracket => Some (complete (VArray []) stk)
      | _ => value_token (InArray [] :: stk) t
      end
  | PObjectOpen stk =>
      match t with
      | TRBrace => Some (complete (VObject []) stk)
      | TString k => Some (PColon [] k stk)
      | _ => None
      end
  | PKey members stk =>
      match t with
      | TString k => Some (PColon members k stk)
      | _ => None
      end
  | PColon members k stk =>
      match t with
      | TColon => Some (PValue (InObject members k :: stk))
      | _ => None
      end
  | PArrayNext acc stk =>
      match t with
      | TComma => Some (PValue (InArray acc :: stk))
      | TRBracket => Some (complete (VArray (rev acc)) stk)
      | _ => None
      end
  | PObjectNext members stk =>
      match t with
      | TComma => Some (PKey members stk)
      | TRBrace => Some (complete (VObject members) stk)
      | _ => None
      end
  | PDone _ => None
  end.

Fixpoint run (st : pstate) (toks : list token) : option value :=
  match toks with
  | [] => match st with PDone v => Some v | _ => None end
  | t :: toks' =>
      match pstep st t with
      | Some st' => run st' toks'
      | None => None
      end
  end.

Definition parse_tokens (toks : list token) : option value :=
  run (PValue []) toks.

Definition syntax_error : exn :=
  SyntaxError (lit "Unexpected token in JSON").

(** [JSON.parse(text)] for a string [text]. *)
Definition JSON_parse (text : jstring) : completion value :=
  match tokenize text with
  | Some toks =>
      match parse_tokens toks with
      | Some v => Normal v
      | None => Throw syntax_error
      end
  | None => Throw syntax_error
  end.

End Json.

Declare Scope completion_scope.
Delimit Scope completion_scope with completion.
Notation "x <- m ;; k" := (JS.bind m (fun x => k))
(at level 61, m at next level, right associativity) : completion_scope.

Declare Scope io_scope.
Delimit Scope io_scope with io.
Notation "x <- m ;; k" := (JS.mbind m (fun x => k))
(at level 61, m at next level, right associativity) : io_scope.

(* ================================================================== *)
(** * The two fence patterns *)
(* ================================================================== *)

(** The two regular expressions of [content.match]: an opening literal
  (three backticks, [json] in the first pattern, a line feed), a greedy
  capture group of arbitrary code units (the class of [\s] and [\S],
  starred), and a closing literal (a line feed and three backticks). The
  search tries the start positions from left to right; at a position where
  the opening literal is, the group is the longest one that the closing
  literal follows. *)

Module Regex.
Import JS.

(** [s] without its prefix [p]. *)
Fixpoint strip_prefix (p s : jstring) : option jstring :=
  match p, s with
  | [], _ => Some s
  | x :: p', y :: s' => if (x =? y)%N then strip_prefix p' s' else None
  | _ :: _, [] => None
  end.

Definition is_prefix (p s : jstring) : bool :=
  match strip_prefix p s with Some _ => true | None => false end.

(** The longest [g] with [s = g ++ close ++ _]. *)
Fixpoint greedy_until (close s : jstring) : option jstring :=
  match s with
  | [] => if is_prefix close [] then Some [] else None
  | c :: s' =>
      match greedy_until close s' with
      | Some g => Some (c :: g)
      | None => if is_prefix close s then Some [] else None
      end
  end.

Definition match_here (opening close s : jstring) : option jstring :=
  match strip_prefix opening s with
  | Some rest => greedy_until close rest
  | None => None
  end.

(** Capture group 1 of the leftmost match, [None] for [null]. *)
Fixpoint search (opening close s : jstring) : option jstring :=
  match match_here opening close s with
  | Some g => Some g
  | None =>
      match s with
      | [] => None
      | _ :: s' => search opening close s'
      end
  end.

Definition LF : code_unit := 10%N.
Definition fence_json : jstring := lit "```json" ++ [LF].
Definition fence_plain : jstring := lit "```" ++ [LF].
Definition fence_close : jstring := LF :: lit "```".

End Regex.

(* ================================================================== *)
(** * [services/openai.js] *)
(* ================================================================== *)

Module Service.
Import JS Json Regex.
Local Open Scope completion_scope.

(** ** Prompt Builder (lines 22-81) *)

Definition MAX_LENGTH : N := 15000.

Definition truncation_marker : jstring :=
  lit "... [text truncated for token limit]".

(** [s.substring(0, n)] *)
Definition substring0 (s : jstring) (n : N) : jstring :=
  firstn (N.to_nat n) s.

Definition truncatedText (syllabusText : jstring) : jstring :=
  if (MAX_LENGTH <? N.of_nat (length syllabusText))%N
  then substring0 syllabusText MAX_LENGTH ++ truncation_marker
  else syllabusText.

Definition en_dash : code_unit := 8211%N.

Definition unlines (lines : list jstring) : jstring :=
  concat (map (fun l => l ++ [LF]) lines).

(** The template literal up to [${truncatedText}], line by line. *)
Definition instructions : jstring :=
  unlines [
    lit "You are an intelligent assistant that extracts academic assignments from a syllabus.";
    [];
    lit "The syllabus text may be structured or unstructured. Your task is to identify all student-facing deliverables, and return them in JSON format.";
    [];
    lit "For each item, identify:";
    lit "- `title`: Name of the deliverable";
    lit "- `type`: One of ['assignment', 'quiz', 'exam', 'paper', 'project'] ";
    lit "- `description`: A short summary if available";
    lit "- `due_date`: The date it's due (in YYYY-MM-DD format)";
    lit "- `start_date`: Only include this if the type is 'paper' or 'project', and the start date is mentioned";
    [];
    lit "IMPORTANT: Your response MUST be a properly formatted JSON object containing an array called " ++ dq "items" ++ lit ". The structure should look like this:";
    [];
    lit "{";
    lit "  " ++ dq "items" ++ lit ": [";
    lit "    {";
    lit "      " ++ dq "title" ++ lit ": " ++ dq "Final Project Presentation" ++ lit ",";
    lit "      " ++ dq "type" ++ lit ": " ++ dq "project" ++ lit ",";
    lit "      " ++ dq "start_date" ++ lit ": " ++ dq "2025-03-10" ++ lit ",";
    lit "      " ++ dq "due_date" ++ lit ": " ++ dq "2025-04-01" ++ lit ",";
    lit "      " ++ dq "description" ++ lit ": " ++ dq "Team presentation on final project findings.";
    lit "    },";
    lit "    {";
    lit "      " ++ dq "title" ++ lit ": " ++ dq "Quiz 2" ++ lit ",";
    lit "      " ++ dq "type" ++ lit ": " ++ dq "quiz" ++ lit ",";
    lit "      " ++ dq "due_date" ++ lit ": " ++ dq "2025-02-15" ++ lit ",";
    lit "      " ++ dq "description" ++ lit ": " ++ [quote] ++ lit "Covers chapters 4" ++ [en_dash] ++ lit "6." ++ [quote];
    lit "    }";
    lit "  ]";
    lit "}";
    [];
    lit "Or if no assignments are found:";
    lit "{";
    lit "  " ++ dq "items" ++ lit ": []";
    lit "}";
    [];
    lit "Tips for extracting dates:";
    lit "- If a date is mentioned like " ++ dq "September 15" ++ lit ", convert it to " ++ dq "2025-09-15" ++ lit " format.";
    lit "- If a day of week is mentioned like " ++ dq "due Friday" ++ lit ", look for context to determine the date.";
    lit "- If relative dates are mentioned like " ++ dq "Week 3" ++ lit ", try to resolve to an actual date if possible.";
    lit "- If no year is specified, assume the current academic year (2025).";
    lit "- IMPORTANT: Even if a date is unclear, make your best estimate rather than excluding the item.";
    [];
    lit "Be generous in your extraction. Even if you're not 100% sure something is an assignment, include it if it has:";
    lit "1. A title or clear description";
    lit "2. Any mention of a due date or deadline";
    lit "3. Language that suggests submission, completion, or evaluation";
    [];
    lit "If you can't find any assignments at all, still return: {" ++ dq "items" ++ lit ": []}";
    [];
    lit "Now process the following syllabus text:";
    []
  ].

Definition prompt (syllabusText : jstring) : jstring :=
  instructions ++ truncatedText syllabusText.

(** ** Response Normalizer (lines 152-228) *)

(** [{ items: [] }] and [{ items: v }]. *)
Definition wrap_items (v : value) : value := VObject [(lit "items", v)].
Definition empty_result : value := wrap_items (VArray []).

(** The callback of [find] (lines 169-173 and 198-202):
    [Array.isArray(parsed[key]) && parsed[key].length > 0 &&
     parsed[key][0].title]. *)
Definition looks_like_assignments (parsed : value) (key : jstring)
  : completion bool :=
  field <- get parsed key;;
  match field with
  | VArray [] => Normal false
  | VArray (first :: _) =>
      title <- get first (lit "title");;
      Normal (truthy title)
  | _ => Normal false
  end.

(** The structure logic, written out at lines 161-181 for the direct parse
    and again, verbatim, at lines 193-210 for the code block. *)
Definition structure_logic (parsed : value) : completion value :=
  items <- get parsed (lit "items");;
  if truthy items then Normal parsed
  else if Array_isArray parsed then Normal (wrap_items parsed)
  else
    keys <- Object_keys parsed;;
    possibleArrayProps <- find (looks_like_assignments parsed) keys;;
    match possibleArrayProps with
    | Some key =>
        if truthy (VString key)
        then field <- get parsed key;; Normal (wrap_items field)
        else Normal empty_result
    | None => Normal empty_result
    end.

(** [content.match(first) || content.match(second)]: the capture group of
    the match array that is used. *)
Definition jsonMatch (text : jstring) : option jstring :=
  match search fence_json fence_close text with
  | Some group => Some group
  | None => search fence_plain fence_close text
  end.

(** The handler of the direct parse (lines 183-220). *)
Definition from_code_block (content : value) : completion value :=
  text <- string_method content;;
  match jsonMatch text with
  | Some group =>
      if truthy (VString group)
      then try_catch
             (parsedJson <- JSON_parse group;; structure_logic parsedJson)
             (fun innerError => Normal empty_result)
      else Normal empty_result
  | None => Normal empty_result
  end.

(** Lines 152-220: [content.substring(0, 200)] for the log, the direct
    parse, and the handler. *)
Definition parse_content (content : value) : completion value :=
  try_catch
    (text <- string_method content;;
     parsedContent <- JSON_parse text;;
     structure_logic parsedContent)
    (fun error => from_code_block content).

(** Lines 152-228: the parse, then the two log statements: the condition
    [!assignments.items || assignments.items.length === 0] of line 223, and
    the template literal of line 227, which interpolates
    [assignments.items.length]. *)
Definition normalize (content : value) : completion value :=
  assignments <- parse_content content;;
  items <- get assignments (lit "items");;
  _ <- (if truthy items then get items (lit "length")
        else Normal VUndefined);;
  count <- get items (lit "length");;
  _ <- interpolate count;;
  Normal assignments.

(** ** The model API *)

Record request := {
  model : jstring;
  system_message : jstring;
  user_message : jstring;
  temperature : number;
  max_tokens : N;
  response_format : jstring
}.

Inductive settlement :=
| Fulfilled (response : value)
| Rejected (reason : exn).

(** What [openai.chat.completions.create] does with a request: it throws
    before returning a promise, or returns a promise that settles so many
    milliseconds after the call, or one that never settles. *)
Inductive behaviour :=
| ThrowsSync (e : exn)
| Settles (after : N) (s : settlement)
| Hangs.

Record world := {
  OPENAI_API_KEY : option jstring;     (* process.env.OPENAI_API_KEY *)
  create : request -> behaviour
}.

Definition key_set (w : world) : bool :=
  match OPENAI_API_KEY w with
  | Some (_ :: _) => true
  | _ => false
  end.

(** ** A run of the function: the clock and the requests issued

    The clock counts milliseconds; only awaiting takes time. *)

Record trace := { now : N; calls : list request }.

Definition M := JS.M trace.

(** A pending or settled promise: when it settles and how, if ever. *)
Definition promise := option (N * settlement).

Definition chat_completions_create (w : world) (r : request) : M promise :=
  fun t =>
    let t' := {| now := now t; calls := calls t ++ [r] |} in
    match create w r with
    | ThrowsSync e => (Throw e, t')
    | Settles after s => (Normal (Some ((now t + after)%N, s)), t')
    | Hangs => (Normal None, t')
    end.

Definition TIMEOUT_MS : N := 45000.

(** [timeoutPromise]: rejected [TIMEOUT_MS] after its creation; the
    instant of the rejection stands for the promise. *)
Definition new_timeoutPromise : M N :=
  fun t => (Normal (now t + TIMEOUT_MS)%N, t).

Definition timed_out : exn :=
  Error (lit "OpenAI API request timed out after 45 seconds").

(** [await Promise.race([p, timeoutPromise])]: [p] wins when it settles
    strictly before the time-out fires; a time-out promise that is already
    rejected wins over a promise that is still pending. *)
Definition await_race (p : promise) (deadline : N) : M value :=
  fun t =>
    let late := (Throw timed_out,
                 {| now := N.max (now t) deadline; calls := calls t |}) in
    match p with
    | Some (at_, s) =>
        if (at_ <? deadline)%N
        then (match s with
              | Fulfilled response => Normal response
              | Rejected reason => Throw reason
              end,
              {| now := at_; calls := calls t |})
        else late
    | None => late
    end.

(** ** Model Invoker and the whole function (lines 18-234) *)

Definition chat_request (model_name : string) (prompt_text : jstring)
  : request :=
  {| model := lit model_name;
     system_message :=
       lit "You are a helpful assistant that extracts assignment information from syllabi.";
     user_message := prompt_text;
     temperature := {| neg := false; mant := 3; exp10 := -1 |};
     max_tokens := 4000;
     response_format := lit "json_object" |}.

(** How the statement that obtains [response] (lines 98-138) ends: the
    handler of the fall-back returns from the function, every other path
    goes on with [response] assigned. *)
Inductive flow :=
| Return (result : value)
| Continue (response : value).

Definition call_model (w : world) (model_name : string)
           (prompt_text : jstring) (deadline : N) : M flow :=
  (p <- chat_completions_create w (chat_request model_name prompt_text);;
   response <- await_race p deadline;;
   ret (Continue response))%io.

Definition missing_key : exn :=
  Error (lit "OpenAI API key is missing or invalid. Please check your .env file.").

(** Lines 140-228, once [response] is assigned. *)
Definition read_response (response : value) : completion value :=
  if negb (truthy response) then Normal empty_result
  else
    choices <- get response (lit "choices");;
    if negb (truthy choices) then Normal empty_result
    else
      first <- get choices (lit "0");;
      if negb (truthy first) then Normal empty_result
      else
        message_ <- get first (lit "message");;
        content <- get message_ (lit "content");;
        _ <- get content (lit "length");;
        normalize content.

(** The body of the outer [try] (lines 20-228). *)
Definition extract_try (w : world) (syllabusText : jstring) : M value :=
  (let prompt_text := prompt syllabusText in
   if negb (key_set w) then throw missing_key
   else
     timeoutPromise <- new_timeoutPromise;;
     fl <- mtry (call_model w "gpt-4o" prompt_text timeoutPromise)
                (fun error =>
                   mtry (call_model w "gpt-3.5-turbo" prompt_text
                                    timeoutPromise)
                        (fun fallbackError => ret (Return empty_result)));;
     match fl with
     | Return result => ret result
     | Continue response => lift (read_response response)
     end)%io.

(** The whole function: the outer handler (lines 229-233) returns the
    empty result. *)
Definition extractAssignmentsFromSyllabus (w : world)
           (syllabusText : jstring) : M value :=
  mtry (extract_try w syllabusText) (fun error => ret empty_result).

End Service.

(* ================================================================== *)
(** * [server.js] *)
(* ================================================================== *)

Module Server.
Import JS.
Local Open Scope completion_scope.

Record response := { status : N; body : value }.

(** [res.status(code).json({ error: text })] *)
Definition error_body (text : value) : value := VObject [(lit "error", text)].

(** ** Upload and text extraction (lines 14-37, 95-163, 277-281) *)

(** A file part of the multipart body, as the upload middleware describes
    it: the name of the form field it came under, the name and content
    type the client gave, and the bytes. *)
Record file := {
  fieldname : jstring;
  originalname : jstring;
  mimetype : jstring;
  buffer : list N
}.

Definition PDF : jstring := lit "application/pdf".
Definition DOCX : jstring :=
  lit "application/vnd.openxmlformats-officedocument.wordprocessingml.document".

(** The configuration and the two document libraries. *)
Record documents := {
  maxFileSize : N;
  pdfParse : list N -> completion value;
  mammoth_extractRawText : list N -> completion value
}.

(** [fileFilter] (lines 21-31): [cb(null, true)] or [cb(new Error(...))]. *)
Definition fileFilter (f : file) : completion bool :=
  if jstring_eqb (mimetype f) PDF || jstring_eqb (mimetype f) DOCX
  then Normal true
  else Throw (Error (lit "Only PDF and DOCX files are allowed")).

(** [upload.single('syllabus')] (lines 33-37 and 126), after multer, for
    a request with one file part (a part that carries a file name) at
    most. Without a file part the request
    goes on with [req.file] undefined. A file part under another field
    than [syllabus] is refused before the filter is asked; then comes the
    filter; then the bytes are read, and the file is cut off and refused
    as soon as their count reaches [limits.fileSize], so that a file of
    exactly that size is refused too. Each refusal is an error passed to
    [next]; otherwise [req.file] is the file. *)
Definition upload_single (d : documents) (part : option file)
  : completion (option file) :=
  match part with
  | None => Normal None
  | Some f =>
      if negb (jstring_eqb (fieldname f) (lit "syllabus"))
      then Throw (Error (lit "Unexpected field"))
      else
        match fileFilter f with
        | Throw err => Throw err
        | Normal false => Normal None
        | Normal true =>
            if (maxFileSize d <=? N.of_nat (length (buffer f)))%N
            then Throw (Error (lit "File too large"))
            else Normal (Some f)
        end
  end.

(** Lines 100-108. *)
Definition extractTextFromPdf (d : documents) (buf : list N)
  : completion value :=
  try_catch (bind (pdfParse d buf) (fun data => get data (lit "text")))
            (fun error =>
               Throw (Error (lit "Failed to extract text from PDF"))).

(** Lines 115-123. *)
Definition extractTextFromDocx (d : documents) (buf : list N)
  : completion value :=
  try_catch (bind (mammoth_extractRawText d buf)
                  (fun result => get result (lit "value")))
            (fun error =>
               Throw (Error (lit "Failed to extract text from DOCX"))).

(** The route handler (lines 126-163); the log line 150 interpolates
    [extractedText.length]. *)
Definition extract_text_handler (d : documents) (req_file : option file)
  : response :=
  let attempt : completion response :=
    match req_file with
    | None =>
        Normal {| status := 400;
                  body := error_body (VString (lit "No file uploaded")) |}
    | Some f =>
        let mimeType := mimetype f in
        extracted <-
          (if jstring_eqb mimeType PDF
           then text <- extractTextFromPdf d (buffer f);; Normal (Some text)
           else if jstring_eqb mimeType DOCX
           then text <- extractTextFromDocx d (buffer f);; Normal (Some text)
           else Normal None);;
        match extracted with
        | None =>
            Normal {| status := 400;
                      body := error_body
                                (VString (lit "Unsupported file type")) |}
        | Some extractedText =>
            count <- get extractedText (lit "length");;
            _ <- interpolate count;;
            Normal {| status := 200;
                      body := VObject [
                        (lit "message",
                         VString (lit "Text extraction successful"));
                        (lit "filename", VString (originalname f));
                        (lit "mimeType", VString mimeType);
                        (lit "text", extractedText)] |}
        end
    end in
  match attempt with
  | Normal r => r
  | Throw error =>
      {| status := 500;
         body := error_body (message_or error "Text extraction failed") |}
  end.

(** The error-handling middleware (lines 278-281). *)
Definition error_middleware (err : exn) : response :=
  {| status := 500;
     body := error_body (message_or err "Something went wrong") |}.

(** [POST /api/extract-text]: the upload middleware, then the handler, or
    the error-handling middleware when [next] got an error. *)
Definition post_extract_text (d : documents) (part : option file)
  : response :=
  match upload_single d part with
  | Normal req_file => extract_text_handler d req_file
  | Throw err => error_middleware err
  end.

(** ** Assignment parsing (lines 166-275) *)

Record environment := {
  api : Service.world;
  today : jstring;              (* new Date().toISOString().split('T')[0] *)
  conv : conversions
}.

(** What the handler and its timer callback share: the flag, whether the
    timer is still pending, and the responses written to [res] so far. *)
Record handler_state := {
  hasResponded : bool;
  timer_pending : bool;
  sent : list response
}.

Definition H := JS.M handler_state.

Definition res_json (code : N) (b : value) : H unit :=
  fun s => (Normal tt,
            {| hasResponded := hasResponded s;
               timer_pending := timer_pending s;
               sent := sent s ++ [{| status := code; body := b |}] |}).

Definition set_hasResponded : H unit :=
  fun s => (Normal tt,
            {| hasResponded := true;
               timer_pending := timer_pending s;
               sent := sent s |}).

Definition clearTimeout : H unit :=
  fun s => (Normal tt,
            {| hasResponded := hasResponded s;
               timer_pending := false;
               sent := sent s |}).

Definition get_hasResponded : H bool :=
  fun s => (Normal (hasResponded s), s).

Definition info_record (title description : string) (e : environment)
  : value :=
  VObject [(lit "title", VString (lit title));
           (lit "type", VString (lit "info"));
           (lit "due_date", VString (today e));
           (lit "description", VString (lit description))].

(** The body of the 202 (lines 192-205). *)
Definition processing_body (e : environment) : value :=
  VObject [
    (lit "message", VString (lit "Assignment extraction in progress"));
    (lit "assignments",
     VObject [
       (lit "processing", VBool true);
       (lit "items",
        VArray [info_record "Processing Assignment Data"
                  "Your syllabus is still being processed. This may take up to 1-2 minutes for large files."
                  e])])].

(** The callback of [setTimeout] (lines 188-207). *)
Definition timer_callback (e : environment) : H unit :=
  (responded <- get_hasResponded;;
   if negb responded
   then _ <- set_hasResponded;; res_json 202 (processing_body e)
   else ret tt)%io.

(** Ten seconds after the request: the callback runs if the timer was not
    cleared. *)
Definition timer_fires (e : environment) (s : handler_state)
  : handler_state :=
  if timer_pending s
  then snd (timer_callback e {| hasResponded := hasResponded s;
                                timer_pending := false;
                                sent := sent s |})
  else s.

(** [assignments] is declared [const] at line 211, so the assignment
    statement of line 224 throws once its right-hand side is evaluated. *)
Definition const_assignment : exn :=
  TypeError (lit "Assignment to constant variable.").

Definition hint : value :=
  VString (lit "Make sure your OpenAI API key is valid in the .env file").

Definition failure_body (error : exn) : value :=
  VObject [(lit "error", message_or error "Assignment extraction failed");
           (lit "hint", hint)].

Definition success_body (positive_count : bool) (assignments : value)
  : value :=
  VObject [
    (lit "message",
     VString (if positive_count
              then lit "Assignment extraction successful"
              else lit "No assignments found in syllabus"));
    (lit "assignments", assignments)].

(** After the [await], when the promise was fulfilled (lines 213-244).
    The log line 219 interpolates [assignmentCount]; [hasResponded] is set
    before the argument of [json] is evaluated, where [assignmentCount > 0]
    is compared. *)
Definition on_fulfilled (e : environment) (assignments : value) : H unit :=
  (_ <- clearTimeout;;
   responded <- get_hasResponded;;
   if negb responded
   then
     items <- lift (get assignments (lit "items"));;
     assignmentCount <-
       (if truthy items then lift (get items (lit "length"))
        else ret (VNumber (of_nat 0)));;
     _ <- lift (interpolate assignmentCount);;
     if strictly_zero assignmentCount
     then throw const_assignment
     else
       _ <- set_hasResponded;;
       positive_count <- lift (gt_zero (conv e) assignmentCount);;
       res_json 200 (success_body positive_count assignments)
   else ret tt)%io.

(** The handler of the inner [try] (lines 245-259). *)
Definition on_aiError (aiError : exn) : H unit :=
  (_ <- clearTimeout;;
   responded <- get_hasResponded;;
   if negb responded
   then _ <- set_hasResponded;; res_json 500 (failure_body aiError)
   else ret tt)%io.

(** The inner [try] statement from the point where the [await] resumes,
    with the completion of the awaited promise. *)
Definition after_await (e : environment) (outcome : completion value)
  : H unit :=
  mtry (assignments <- lift outcome;; on_fulfilled e assignments)%io
       on_aiError.

(** The handler of the outer [try] (lines 261-269); [res.headersSent] holds
    when a response was written. *)
Definition outer_catch (error : exn) : H unit :=
  fun s => match sent s with
           | [] => res_json 500 (failure_body error) s
           | _ => (Normal tt, s)
           end.

Definition EARLY_ACK_MS : N := 10000.

(** The [try] statement of the handler (lines 173-275), [req.body] given:
    the responses written to [res], in order. Line 174 reads [text] off the
    body; the timer is started and the extraction is called at the same
    instant; the extraction resumes the handler [now] milliseconds later,
    before the timer when that is under ten seconds and after it
    otherwise. The statement is reached once line 171 has printed the
    request identifier, so that of all the values its log lines
    interpolate only [assignmentCount] (line 219) can make ToString throw;
    the [finally] block only logs. The lines before the statement are those
    of [parse_assignments_route] below. *)
Definition post_parse_assignments (e : environment) (req_body : value)
  : list response :=
  match get req_body (lit "text") with
  | Throw error =>
      sent (snd (outer_catch error
                   {| hasResponded := false; timer_pending := false;
                      sent := [] |}))
  | Normal text =>
      match text with
      | VString (c :: text') =>
          let started := {| hasResponded := false; timer_pending := true;
                            sent := [] |} in
          let '(outcome, t) :=
            Service.extractAssignmentsFromSyllabus (api e) (c :: text')
              {| Service.now := 0; Service.calls := [] |} in
          let resumed :=
            if (Service.now t <? EARLY_ACK_MS)%N then started
            else timer_fires e started in
          let finished :=
            snd (mtry (after_await e outcome) outer_catch resumed) in
          sent (timer_fires e finished)
      | _ =>
          [{| status := 400;
              body := error_body
                        (VString (lit "Valid syllabus text is required")) |}]
      end
  end.

(** [req.query.t || Date.now()] (line 169). [query_t] is what the query
    parser makes of the parameter [t]: [undefined] without one, a string,
    and an array or an object for the bracket forms [t[]=a] and
    [t[k]=a]. *)
Definition requestId (query_t : value) (date_now : N) : value :=
  if truthy query_t then query_t
  else VNumber {| neg := false; mant := date_now; exp10 := 0 |}.

(** [POST /api/parse-assignments] from the first line of its handler
    (lines 166-275), for a request that reaches the handler with the query
    parameter [query_t] and with [req_body] as [express.json] parsed its
    body. The template literal of line 171 stands before
    the [try] statement: when ToString throws on the request identifier,
    the handler ends there with its promise rejected, which the framework
    does not observe, and nothing is written to [res]. Otherwise the
    handler goes on to its [try] statement. *)
Definition parse_assignments_route (e : environment) (query_t : value)
           (date_now : N) (req_body : value) : list response :=
  match interpolate (requestId query_t date_now) with
  | Throw error => []
  | Normal _ => post_parse_assignments e req_body
  end.

End Server.

(* ================================================================== *)
(** * [server.js]: the cross-origin policy (lines 42-82) *)
(* ================================================================== *)

Module Cors.
Import JS.

(** The two variables of [process.env] that the policy reads. *)
Record process_env := {
  CORS_ORIGIN : option jstring;
  NODE_ENV : option jstring
}.

Definition comma : code_unit := 44%N.

(** The first piece of [s.split(sep)] and the pieces after it. *)
Fixpoint split_at (sep : code_unit) (s : jstring) : jstring * list jstring :=
  match s with
  | [] => ([], [])
  | c :: s' =>
      let (piece, pieces) := split_at sep s' in
      if (c =? sep)%N then ([], piece :: pieces) else (c :: piece, pieces)
  end.

(** [s.split(sep)] for a separator of one code unit: the pieces between
    the separators, the empty string giving one empty piece. *)
Definition split (sep : code_unit) (s : jstring) : list jstring :=
  let (piece, pieces) := split_at sep s in piece :: pieces.

(** WhiteSpace and LineTerminator of the language: TAB, LF, VT, FF, CR,
    the space, the no-break space, the other space separators and the
    byte-order mark. *)
Definition is_white_space (c : code_unit) : bool :=
  ((9 <=? c) && (c <=? 13) || (c =? 32) || (c =? 160) || (c =? 5760)
   || (8192 <=? c) && (c <=? 8202) || (c =? 8232) || (c =? 8233)
   || (c =? 8239) || (c =? 8287) || (c =? 12288) || (c =? 65279))%N.

Fixpoint trim_start (s : jstring) : jstring :=
  match s with
  | [] => []
  | c :: s' => if is_white_space c then trim_start s' else s
  end.

Definition trim_end (s : jstring) : jstring := rev (trim_start (rev s)).

(** [s.trim()] *)
Definition trim (s : jstring) : jstring := trim_end (trim_start s).

Definition local_origins : list jstring :=
  [lit "http://localhost:3000"; lit "http://localhost:3001";
   lit "http://127.0.0.1:3000"; lit "http://127.0.0.1:3001"].

Definition production_origins : list jstring :=
  [lit "https://syllabug.vercel.app"; lit "https://www.syllabug.vercel.app"].

(** The array [allowedOrigins] once the module is loaded (lines 44-65). *)
Definition allowedOrigins (env : process_env) : list jstring :=
  local_origins
  ++ match CORS_ORIGIN env with
     | Some (c :: s) => map trim (split comma (c :: s))
     | _ => []
     end
  ++ match NODE_ENV env with
     | Some mode => if jstring_eqb mode (lit "production")
                    then production_origins else []
     | None => []
     end.

(** [allowedOrigins.indexOf(origin) !== -1] *)
Definition listed (origin : jstring) (origins : list jstring) : bool :=
  existsb (jstring_eqb origin) origins.

Definition refusal_of (origin : jstring) : exn :=
  Error (lit "The CORS policy for this site does not allow access from the specified Origin: "
         ++ origin).

(** The [origin] function given to the middleware (lines 68-78), with the
    [Origin] header of the request, if any: [callback(null, true)] or
    [callback(new Error(msg), false)]. *)
Definition origin_callback (env : process_env) (origin : option jstring)
  : completion bool :=
  match origin with
  | None | Some [] => Normal true
  | Some o =>
      if listed o (allowedOrigins env) then Normal true
      else Throw (refusal_of o)
  end.

End Cors.

(* ================================================================== *)
(** * [frontend/src/utils/csvExport.js] *)
(* ================================================================== *)

(** The export of the records of the table ([unnamed/part_002] in the
    sources). *)

Module Csv.
Import JS Regex.
Local Open Scope completion_scope.

(** [v || ''] *)
Definition or_empty (v : value) : value :=
  if truthy v then v else VString [].

(** [s.replace] with the global pattern of a double quote and the
    replacement of two: every double quote is doubled. *)
Fixpoint double_quotes (s : jstring) : jstring :=
  match s with
  | [] => []
  | c :: s' =>
      if (c =? quote)%N then quote :: quote :: double_quotes s'
      else c :: double_quotes s'
  end.

(** The template literal of the title, the type and the description
    (lines 24, 25 and 28): the field or the empty string, its quotes
    doubled, between two quotes. *)
Definition escaped (field : value) : completion jstring :=
  s <- string_method (or_empty field);;
  Normal (quote :: double_quotes s ++ [quote]).

(** The template literal of the two dates (lines 26 and 27): the field or
    the empty string, converted to a string, between two quotes. *)
Definition interpolated (cv : conversions) (field : value)
  : completion jstring :=
  s <- to_string cv (or_empty field);;
  Normal (quote :: s ++ [quote]).

(** [parts.join(sep)] on strings. *)
Fixpoint join (sep : jstring) (parts : list jstring) : jstring :=
  match parts with
  | [] => []
  | [p] => p
  | p :: rest => p ++ sep ++ join sep rest
  end.

(** The callback of [assignments.map] (lines 22-29): the five fields, read
    and converted from left to right, joined with commas. *)
Definition row (cv : conversions) (assignment : value) : completion jstring :=
  title <- get assignment (lit "title");;
  f1 <- escaped title;;
  type_ <- get assignment (lit "type");;
  f2 <- escaped type_;;
  due_date <- get assignment (lit "due_date");;
  f3 <- interpolated cv due_date;;
  start_date <- get assignment (lit "start_date");;
  f4 <- interpolated cv start_date;;
  description <- get assignment (lit "description");;
  f5 <- escaped description;;
  Normal (join (lit ",") [f1; f2; f3; f4; f5]).

(** [assignments.map(callback)]: an exception of the callback ends it. *)
Fixpoint map_rows (cv : conversions) (assignments : list value)
  : completion (list jstring) :=
  match assignments with
  | [] => Normal []
  | a :: rest =>
      r <- row cv a;;
      rs <- map_rows cv rest;;
      Normal (r :: rs)
  end.

Definition headers : list jstring :=
  [lit "Title"; lit "Type"; lit "Due Date"; lit "Start Date";
   lit "Description"].

(** Lines 14-33. *)
Definition csvString (cv : conversions) (assignments : list value)
  : completion jstring :=
  rows <- map_rows cv assignments;;
  Normal (join [LF] (join (lit ",") headers :: rows)).

(** A file that the browser has saved. *)
Record download := { filename : jstring; content : jstring }.

Definition elements (v : value) : list value :=
  match v with VArray elems => elems | _ => [] end.

(** [exportAssignmentsToCSV] (lines 6-65): the value returned, after the
    files saved so far. The blob, the object URL and the link of lines
    36-58 are taken to work as the browser documents them: the file is
    saved under the given name with the text as its content. *)
Definition exportAssignmentsToCSV (cv : conversions) (assignments : value)
           (name : jstring) (saved : list download) : value * list download :=
  if negb (truthy assignments) || negb (Array_isArray assignments)
     || (length (elements assignments) =? 0)
  then (VUndefined, saved)
  else match csvString cv (elements assignments) with
       | Normal text =>
           (VBool true, saved ++ [{| filename := name; content := text |}])
       | Throw error => (VBool false, saved)
       end.

End Csv.

(* ================================================================== *)
(** * [frontend/src/components/EditableTable.jsx] *)
(* ================================================================== *)

(** The three updaters that the table gives to [setTableData]: each maps
    the rows before to the rows after. The sources hold the component in
    the file [components/Logo.jsx], after the logo; the lines are those of
    that file. *)

Module Table.
Import JS.

(** The elements of an array or the characters of a string under their
    indices. *)
Definition indexed (elems : list value) : list (jstring * value) :=
  combine (map (fun i => index_key (N.of_nat i)) (seq 0 (length elems))) elems.

(** The own enumerable properties of a value in the order of their keys:
    the array indices ascending, then the names as created; none for
    [undefined], [null], a number or a boolean. *)
Definition own_entries (source : value) : list (jstring * value) :=
  match source with
  | VObject props =>
      map (fun k => (k, or_undefined (lookup k props)))
          (map index_key (index_keys props) ++ named_keys props)
  | VArray elems => indexed elems
  | VString s => indexed (map (fun c => VString [c]) s)
  | VUndefined | VNull | VBool _ | VNumber _ => []
  end.

(** [...source] in an object literal: each property of the source is
    created on the object under construction. *)
Definition spread (source : value) (target : list (jstring * value))
  : list (jstring * value) :=
  fold_left (fun acc kv => set_prop (fst kv) (snd kv) acc)
            (own_entries source) target.

(** [old.map((row, index) => ...)] *)
Fixpoint map_index (f : value -> nat -> value) (index : nat)
         (rows : list value) : list value :=
  match rows with
  | [] => []
  | row :: rest => f row index :: map_index f (S index) rest
  end.

(** [old.filter((_, index) => ...)] *)
Fixpoint filter_index (keep : nat -> bool) (index : nat) (rows : list value)
  : list value :=
  match rows with
  | [] => []
  | row :: rest =>
      if keep index then row :: filter_index keep (S index) rest
      else filter_index keep (S index) rest
  end.

(** [updateData] (lines 167-179). *)
Definition updateData (rowIndex : nat) (columnId : jstring) (v : value)
           (old : list value) : list value :=
  map_index (fun row index =>
               if index =? rowIndex
               then VObject (set_prop columnId v
                               (spread (nth rowIndex old VUndefined) []))
               else row)
            0 old.

(** The row of [addRow] (lines 183-189), with the identifier drawn and the
    date of the day. *)
Definition newRow (uuid today : jstring) : value :=
  VObject [(lit "id", VString uuid);
           (lit "title", VString (lit "New Assignment"));
           (lit "type", VString (lit "assignment"));
           (lit "due_date", VString today);
           (lit "description", VString [])].

(** [addRow] (lines 182-192). *)
Definition addRow (uuid today : jstring) (old : list value) : list value :=
  old ++ [newRow uuid today].

(** [deleteRow] (lines 195-197). *)
Definition deleteRow (rowIndex : nat) (old : list value) : list value :=
  filter_index (fun index => negb (index =? rowIndex)) 0 old.

End Table.

(* ================================================================== *)
(** * [frontend/src/pages/Home.jsx] *)
(* ================================================================== *)

(** The handler of the button that asks for the assignments
    ([parseAssignments], lines 93-204 of [unnamed/part_003] in the
    sources): the requests it sends and the state of the page it leaves
    behind. *)

Module Page.
Import JS.
Local Open Scope io_scope.

(** The state of the component (lines 9-15). *)
Record page := {
  fileUploading : bool;
  uploadResult : value;
  extractedText : value;
  assignments : value;
  isParsingAssignments : bool;
  error : value;
  activeStep : N
}.

Definition setAssignments (v : value) (s : page) : page :=
  {| fileUploading := fileUploading s; uploadResult := uploadResult s;
     extractedText := extractedText s; assignments := v;
     isParsingAssignments := isParsingAssignments s; error := error s;
     activeStep := activeStep s |}.

Definition setIsParsingAssignments (b : bool) (s : page) : page :=
  {| fileUploading := fileUploading s; uploadResult := uploadResult s;
     extractedText := extractedText s; assignments := assignments s;
     isParsingAssignments := b; error := error s;
     activeStep := activeStep s |}.

Definition setError (v : value) (s : page) : page :=
  {| fileUploading := fileUploading s; uploadResult := uploadResult s;
     extractedText := extractedText s; assignments := assignments s;
     isParsingAssignments := isParsingAssignments s; error := v;
     activeStep := activeStep s |}.

Definition setActiveStep (n : N) (s : page) : page :=
  {| fileUploading := fileUploading s; uploadResult := uploadResult s;
     extractedText := extractedText s; assignments := assignments s;
     isParsingAssignments := isParsingAssignments s; error := error s;
     activeStep := n |}.

(** Where a request goes: to the relative URL, through the proxy of the
    development server, or to [http://localhost:5000]. *)
Inductive target := Proxy | Direct.

(** What [fetch] is fulfilled with: the status, and what [json()] makes of
    the body. *)
Record http_response := { http_status : N; json : completion value }.

(** [response.ok] *)
Definition ok (r : http_response) : bool :=
  ((200 <=? http_status r) && (http_status r <=? 299))%N.

(** The network: for a POST of [/api/parse-assignments] to a target with
    the object written as the JSON body, after how many milliseconds the
    promise of [fetch] settles, and whether it is fulfilled with a response
    or rejected. *)
Definition network := target -> value -> N * completion http_response.

(** A run of the handler: the state of the page, the clock in
    milliseconds, whether the timer of line 101 is pending, and the
    requests sent. *)
Record run := {
  view : page;
  clock : N;
  guard_pending : bool;
  requests : list (target * value)
}.

Definition M := JS.M run.

Definition update (f : page -> page) : M unit :=
  fun r => (Normal tt,
            {| view := f (view r); clock := clock r;
               guard_pending := guard_pending r; requests := requests r |}).

Definition setTimeout : M unit :=
  fun r => (Normal tt,
            {| view := view r; clock := clock r; guard_pending := true;
               requests := requests r |}).

Definition clearTimeout : M unit :=
  fun r => (Normal tt,
            {| view := view r; clock := clock r; guard_pending := false;
               requests := requests r |}).

Definition GUARD_MS : N := 60000.

(** The callback of the timer (lines 101-106). It reads the
    [isParsingAssignments] of the render that made the handler, which is
    the one of the state in which the handler was called. *)
Definition guard_callback (captured : page) (s : page) : page :=
  if isParsingAssignments captured
  then setIsParsingAssignments false
         (setError (VString (lit "Request timed out. The server took too long to respond. Please try again."))
                   s)
  else s.

(** [await fetch(...)]: the request is recorded, the time of the answer
    passes, and the timer fires on the way when it is pending and due. *)
Definition fetch (net : network) (captured : page) (to : target)
           (body : value) : M http_response :=
  fun r =>
    let (after, answer) := net to body in
    let at_ := (clock r + after)%N in
    let fires := guard_pending r && (GUARD_MS <=? at_)%N in
    (answer,
     {| view := if fires then guard_callback captured (view r) else view r;
        clock := at_;
        guard_pending := guard_pending r && negb fires;
        requests := requests r ++ [(to, body)] |}).

(** [{ text: extractedText, timestamp: timestamp }], the time stamp being
    the time of the day in milliseconds. *)
Definition body_at (captured : page) (epoch : N) : M value :=
  fun r => (Normal (VObject [
              (lit "text", extractedText captured);
              (lit "timestamp",
               VNumber {| neg := false; mant := epoch + clock r;
                          exp10 := 0 |})]),
            r).

(** The attempt through the proxy (lines 114-148): whether it
    succeeded. *)
Definition proxy_attempt (net : network) (captured : page) (epoch : N)
  : M bool :=
  mtry (body <- body_at captured epoch;;
        response <- fetch net captured Proxy body;;
        if ok response
        then
          data <- lift (json response);;
          _ <- clearTimeout;;
          result <- lift (get data (lit "assignments"));;
          _ <- update (setAssignments result);;
          _ <- update (setActiveStep 3);;
          _ <- update (setIsParsingAssignments false);;
          ret true
        else ret false)
       (fun error => ret false).

(** [new Error(given || fallback)] *)
Definition new_Error (cv : conversions) (given : value) (fallback : jstring)
  : completion exn :=
  bind (to_string cv (if truthy given then given else VString fallback))
       (fun text => Normal (Error text)).

(** The direct attempt (lines 155-192); its handler throws the error
    again. *)
Definition direct_attempt (cv : conversions) (net : network)
           (captured : page) (epoch : N) : M unit :=
  body <- body_at captured epoch;;
  response <- fetch net captured Direct body;;
  if negb (ok response)
  then
    let status_text := index_key (http_status response) in
    errorData <-
      lift (try_catch (json response)
              (fun _ => Normal (VObject [
                 (lit "error",
                  VString (lit "HTTP error: " ++ status_text))])));;
    given <- lift (get errorData (lit "error"));;
    thrown <- lift (new_Error cv given
                      (lit "Failed to parse assignments (" ++ status_text
                       ++ lit ")"));;
    throw thrown
  else
    data <- lift (json response);;
    _ <- clearTimeout;;
    result <- lift (get data (lit "assignments"));;
    _ <- update (setAssignments result);;
    update (setActiveStep 3).

(** [parseAssignments] (lines 93-204), called in a state of the page at a
    time of the day: the run when the handler has returned. *)
Definition parseAssignments (cv : conversions) (net : network) (epoch : N)
           (s : page) : run :=
  let idle := {| view := s; clock := 0; guard_pending := false;
                 requests := [] |} in
  if negb (truthy (extractedText s)) then idle
  else
    snd ((_ <- update (setIsParsingAssignments true);;
          _ <- update (setError VNull);;
          _ <- setTimeout;;
          _ <- mtry (succeeded <- proxy_attempt net s epoch;;
                     if negb succeeded then direct_attempt cv net s epoch
                     else ret tt)
                    (fun error =>
                       _ <- clearTimeout;;
                       update (setError
                                 (message_or error
                                    "Failed to parse assignments. Please try again.")));;
          update (setIsParsingAssignments false)) idle).

End Page.

(* ================================================================== *)
(** * Notions used in the statements *)
(* ================================================================== *)

(** ** A reader of JSON text *)

Module Scan.
Import JS Json.

(** Where a reader of JSON text is: outside a string literal, inside one,
    or inside one just after a backslash. *)
Inductive qstate := QOut | QIn | QEsc.

(** Outside a string there is no backtick; inside a string there is no
    control character, raw or after a backslash. *)
Definition qstep (q : qstate) (c : code_unit) : option qstate :=
  match q with
  | QOut => if (c =? 96)%N then None
            else if (c =? 34)%N then Some QIn else Some QOut
  | QIn => if (c =? 34)%N then Some QOut
           else if (c =? 92)%N then Some QEsc
           else if (c <? 32)%N then None else Some QIn
  | QEsc => if (c <? 32)%N then None else Some QIn
  end.

Fixpoint scan (q : qstate) (s : jstring) : option qstate :=
  match s with
  | [] => Some q
  | c :: s' => match qstep q c with Some q' => scan q' s' | None => None end
  end.

(** The position of the reader in a state of the lexer. *)
Definition alpha (st : lstate) : qstate :=
  match st with
  | LStr _ | LHex _ _ _ => QIn
  | LEsc _ => QEsc
  | _ => QOut
  end.

Definition plain (c : code_unit) : bool :=
  negb (c =? 96)%N && negb (c =? 34)%N.

(** The rest of a literal name holds neither a backtick nor a quote. *)
Definition wf (st : lstate) : bool :=
  match st with
  | LLit rest _ => forallb plain rest
  | _ => true
  end.

Definition no_quote (w : jstring) : bool :=
  forallb (fun c => negb (c =? 34)%N) w.

End Scan.

(** ** Predicates on runs *)

Module Statements.
Import JS Service.

(** A result with an [items] that is neither missing nor [null] nor
    otherwise falsy. *)
Definition has_items (r : value) : Prop :=
  exists items, get r (lit "items") = Normal items /\ truthy items = true.

(** A result whose [items] is truthy and whose [items.length] goes through
    a template literal. *)
Definition countable (r : value) : Prop :=
  exists items count,
    get r (lit "items") = Normal items /\ truthy items = true /\
    get items (lit "length") = Normal count /\ stringifies count = true.

(** A model call that loses the race against what is left of the 45 s: it
    throws, is rejected, or is not settled strictly before the budget is
    used up. *)
Definition call_fails (b : behaviour) (budget : N) : Prop :=
  match b with
  | ThrowsSync _ => True
  | Settles after (Rejected _) => True
  | Settles after (Fulfilled _) => (budget <= after)%N
  | Hangs => True
  end.

(** When the race of a failing call ends, counted from the call. *)
Definition time_lost (b : behaviour) (budget : N) : N :=
  match b with
  | ThrowsSync _ => 0
  | Settles after _ => N.min after budget
  | Hangs => budget
  end.

Definition primary (syllabusText : jstring) : request :=
  chat_request "gpt-4o" (prompt syllabusText).

Definition secondary (syllabusText : jstring) : request :=
  chat_request "gpt-3.5-turbo" (prompt syllabusText).

Definition fresh : trace := {| now := 0; calls := [] |}.

(** The function's completion once [response] is assigned or the fall-back
    handler has returned, under the outer handler. *)
Definition finish (fl : flow) : completion value :=
  match fl with
  | Return result => Normal result
  | Continue response =>
      try_catch (read_response response) (fun _ => Normal empty_result)
  end.

(** The handler's state when the timer is set. *)
Definition started : Server.handler_state :=
  {| Server.hasResponded := false; Server.timer_pending := true;
     Server.sent := [] |}.

End Statements.

(** ** Sample inputs *)

Module Samples.
Import JS Service Server.

(** The reply envelope of the API around a message content. *)
Definition reply (content : jstring) : value :=
  VObject [(lit "choices",
            VArray [VObject [(lit "message",
                              VObject [(lit "content", VString content)])]])].

(** An API whose primary model behaves as [b1] and whose secondary model
    as [b2]. *)
Definition api_of (b1 b2 : behaviour) : world :=
  {| OPENAI_API_KEY := Some (lit "sk-test");
     create := fun r => if jstring_eqb (model r) (lit "gpt-4o")
                        then b1 else b2 |}.

Definition env_of (cv : conversions) (b1 b2 : behaviour) : environment :=
  {| api := api_of b1 b2; today := lit "2025-01-15"; conv := cv |}.

Definition quiz_text : jstring := lit "Quiz 2 due Feb 15, covers ch 4-6".

Definition quiz_output : jstring :=
  json_text "{'items':[{'title':'Quiz 2','type':'quiz','due_date':'2025-02-15','description':'Covers chapters 4-6.'}]}".

Definition quiz_items : list value :=
  [VObject [(lit "title", VString (lit "Quiz 2"));
            (lit "type", VString (lit "quiz"));
            (lit "due_date", VString (lit "2025-02-15"));
            (lit "description", VString (lit "Covers chapters 4-6."))]].

Definition quiz_array : jstring :=
  json_text "[{'title':'Quiz 2','type':'quiz'}]".

(** The quiz record in three fenced blocks: with lines that end in a
    carriage return and a line feed, on one line, and under the tag [JSON]
    in upper case. *)
Definition CR : code_unit := 13%N.

Definition quiz_fenced_crlf : jstring :=
  lit "```json" ++ [CR; Regex.LF] ++ quiz_output
  ++ [CR; Regex.LF] ++ lit "```".

Definition quiz_fenced_one_line : jstring :=
  lit "```json " ++ quiz_output ++ lit " ```".

Definition quiz_fenced_upper_case : jstring :=
  lit "```JSON" ++ [Regex.LF] ++ quiz_output ++ [Regex.LF] ++ lit "```".

Definition refusal : jstring := lit "I cannot process this.".

Definition long_text : jstring := repeat 97%N (N.to_nat 15001).

Definition request_body (text : jstring) : value :=
  VObject [(lit "text", VString text)].

Definition notes_txt : file :=
  {| fieldname := lit "syllabus";
     originalname := lit "notes.txt";
     mimetype := lit "text/plain";
     buffer := [104; 105]%N |}.

End Samples.

(** ** Predicates on texts, fields and records *)

Module Shapes.
Import JS Scan Server Cors Csv Page.

(** Text without a backtick. *)
Definition no_backtick (s : jstring) : bool :=
  forallb (fun c => negb (c =? 96)%N) s.

(** A key that is a name, not an array index. *)
Definition named (k : jstring) : bool :=
  match array_index k with Some _ => false | None => true end.

(** Anything but a non-empty array. *)
Definition no_records (v : value) : bool :=
  match v with VArray (_ :: _) => false | _ => true end.

(** An entry of a comma-separated list as it is meant: not empty, without
    a comma, and without white space at either end. *)
Definition entry (o : jstring) : bool :=
  match o, rev o with
  | c :: _, d :: _ =>
      negb (is_white_space c) && negb (is_white_space d)
      && forallb (fun x => negb (x =? comma)%N) o
  | _, _ => false
  end.

(** Where an entry sits in the list: at its start or after a comma, and up
    to its end or up to a comma. *)
Definition starts_entry (before : jstring) : bool :=
  match rev before with [] => true | c :: _ => (c =? comma)%N end.

Definition ends_entry (after : jstring) : bool :=
  match after with [] => true | c :: _ => (c =? comma)%N end.

(** The text that the export reads under a key of a record: the string
    there, or the empty text when the field is absent or otherwise
    falsy. *)
Definition reads (a : value) (k : string) (s : jstring) : Prop :=
  exists v, get a (lit k) = Normal v /\ or_empty v = VString s.

(** The five texts of a record. *)
Record texts := {
  title : jstring;
  type_ : jstring;
  due_date : jstring;
  start_date : jstring;
  description : jstring
}.

Definition has_texts (a : value) (f : texts) : Prop :=
  reads a "title" (title f) /\ reads a "type" (type_ f) /\
  reads a "due_date" (due_date f) /\ reads a "start_date" (start_date f) /\
  reads a "description" (description f).

(** The two dates hold no double quote. *)
Definition dates_plain (f : texts) : bool :=
  no_quote (due_date f) && no_quote (start_date f).

(** A record whose keys are names: an object none of whose keys is an
    array index. *)
Definition record (v : value) : bool :=
  match v with
  | VObject props => forallb (fun kv => named (fst kv)) props
  | _ => false
  end.

(** A response of the server as the page gets it from [fetch]: the
    status, and the body read back from its JSON text. *)
Definition delivered (r : response) : http_response :=
  {| http_status := status r; json := Normal (body r) |}.

(** The proxy hands the requests to the route of the server and its one
    response back to the page. *)
Definition proxied (net : network) (e : environment) : Prop :=
  forall req_body r,
    post_parse_assignments e req_body = [r] ->
    exists after, net Proxy req_body = (after, Normal (delivered r)).

(** The first request of the handler, sent at the time [epoch] of the
    day. *)
Definition first_body (s : page) (epoch : N) : value :=
  VObject [(lit "text", extractedText s);
           (lit "timestamp",
            VNumber {| neg := false; mant := epoch; exp10 := 0 |})].

(** The answer through the proxy is one that the handler takes: the
    response is [ok], its body is JSON, and [assignments] can be read off
    it. *)
Definition taken (answer : completion http_response) (result : value)
  : Prop :=
  exists response data,
    answer = Normal response /\ ok response = true /\
    json response = Normal data /\
    get data (lit "assignments") = Normal result.

End Shapes.

(** ** More sample inputs *)

Module Cases.
Import JS Service Server Samples Cors Csv Page Shapes.

(** The two conversions on the natural numbers in decimal notation, which
    is all that the samples need of them. *)
Definition decimal : conversions :=
  {| number_to_string := fun x => index_key (mant x);
     string_gt_zero := fun s => match decimal_value 0 s with
                                | Some n => (0 <? n)%N
                                | None => false
                                end |}.

(** Document libraries that answer every buffer in the same way, under the
    default limit of 15 MB. *)
Definition library (pdf docx : completion value) : documents :=
  {| maxFileSize := 15 * 1024 * 1024;
     pdfParse := fun _ => pdf;
     mammoth_extractRawText := fun _ => docx |}.

Definition syllabus_pdf : file :=
  {| fieldname := lit "syllabus";
     originalname := lit "syllabus.pdf";
     mimetype := PDF;
     buffer := [37; 80; 68; 70]%N |}.

Definition syllabus_docx : file :=
  {| fieldname := lit "syllabus";
     originalname := lit "syllabus.docx";
     mimetype := DOCX;
     buffer := [80; 75; 3; 4]%N |}.

Definition broken : completion value := Throw (Error (lit "bad XRef entry")).

Definition pdf_data (text : jstring) : completion value :=
  Normal (VObject [(lit "numpages", VNumber (of_nat 2));
                   (lit "text", VString text)]).

Definition docx_result (text : jstring) : completion value :=
  Normal (VObject [(lit "value", VString text);
                   (lit "messages", VArray [])]).

(** A row of the table: the quiz with the identifier that the table gave
    it, and the same quiz under another identifier. *)
Definition quiz_row (id : string) : value :=
  VObject [(lit "title", VString (lit "Quiz 2"));
           (lit "type", VString (lit "quiz"));
           (lit "due_date", VString (lit "2025-02-15"));
           (lit "description", VString (lit "Covers chapters 4-6."));
           (lit "id", VString (lit id))].

Definition quiz_texts : texts :=
  {| title := lit "Quiz 2";
     type_ := lit "quiz";
     due_date := lit "2025-02-15";
     start_date := [];
     description := lit "Covers chapters 4-6." |}.

(** A record whose title is a number. *)
Definition numbered : value :=
  VObject [(lit "title", VNumber (of_nat 5));
           (lit "type", VString (lit "quiz"))].

(** The page once a text has been extracted. *)
Definition extracted (text : jstring) : page :=
  {| fileUploading := false;
     uploadResult := VObject [(lit "filename", VString (lit "syllabus.pdf"));
                              (lit "mimeType", VString PDF);
                              (lit "text", VString text)];
     extractedText := VString text;
     assignments := VNull;
     isParsingAssignments := false;
     error := VNull;
     activeStep := 2 |}.

(** A network whose proxy hands every request to the route of the server
    and answers after ten seconds, and on which the direct requests are
    refused. The page sends a timestamp as the parameter [t] of the query
    (lines 119 and 158 of [Home.jsx]), which prints. *)
Definition proxy_to (e : environment) : network :=
  fun to req_body =>
    match to with
    | Proxy =>
        (10000%N,
         match post_parse_assignments e req_body with
         | r :: _ => Normal (delivered r)
         | [] => Throw (TypeError (lit "Failed to fetch"))
         end)
    | Direct => (0%N, Throw (TypeError (lit "Failed to fetch")))
    end.

End Cases.

(* ================================================================== *)
(** * Properties *)
(* ================================================================== *)

Import JS Json Regex Service Server Scan Statements Samples.

(** ** The built-ins on examples *)

Example parse_object :
  JSON_parse (json_text "{'a': 1, 'b': [true, null, 'xA'], 'a': -2.50e1}")
  = Normal (VObject [(lit "a", VNumber {| neg := true; mant := 250;
                                          exp10 := -1 |});
                     (lit "b", VArray [VBool true; VNull;
                                       VString (lit "xA")])]).
Proof. vm_compute. reflexivity. Qed.

Example parse_rejects_trailing_comma :
  JSON_parse (json_text "[1, 2,]") = Throw syntax_error.
Proof. vm_compute. reflexivity. Qed.

Example parse_rejects_leading_zero :
  JSON_parse (json_text "01") = Throw syntax_error.
Proof. vm_compute. reflexivity. Qed.

Example parse_rejects_raw_line_feed_in_string :
  JSON_parse (quote :: lit "a" ++ [LF] ++ lit "b" ++ [quote])
  = Throw syntax_error.
Proof. vm_compute. reflexivity. Qed.

Example parse_rejects_prose :
  JSON_parse refusal = Throw syntax_error.
Proof. vm_compute. reflexivity. Qed.

Example keys_indices_first :
  bind (JSON_parse (json_text "{'b': 0, '10': 0, 'a': 0, '2': 0, '01': 0}"))
       Object_keys
  = Normal [lit "2"; lit "10"; lit "b"; lit "a"; lit "01"].
Proof. vm_compute. reflexivity. Qed.

Example tiny_number_is_falsy :
  bind (JSON_parse (json_text "[1e-400, 5e-324, 0.0, -0]"))
       (fun v => match v with
                 | VArray l => Normal (map truthy l)
                 | _ => Normal []
                 end)
  = Normal [false; true; false; false].
Proof. vm_compute. reflexivity. Qed.

Example match_is_greedy :
  jsonMatch (fence_json ++ lit "a" ++ fence_close ++ lit "b" ++ fence_close)
  = Some (lit "a" ++ fence_close ++ lit "b").
Proof. vm_compute. reflexivity. Qed.

Example match_needs_line_feeds :
  jsonMatch (lit "```json {} ```") = None.
Proof. vm_compute. reflexivity. Qed.

(** ** The lexer keeps the reader on its path *)

Ltac break_if :=
  match goal with
  | H : context [if ?b then _ else _] |- _ => destruct b eqn:?
  | |- context [if ?b then _ else _] => destruct b eqn:?
  end.

Ltac to_prop :=
  repeat match goal with
  | H : (_ =? _)%N = true |- _ => apply N.eqb_eq in H
  | H : (_ =? _)%N = false |- _ => apply N.eqb_neq in H
  | H : (_ <? _)%N = true |- _ => apply N.ltb_lt in H
  | H : (_ <? _)%N = false |- _ => apply N.ltb_ge in H
  | H : (_ <=? _)%N = true |- _ => apply N.leb_le in H
  | H : (_ <=? _)%N = false |- _ => apply N.leb_gt in H
  | H : (_ && _) = true |- _ => apply andb_true_iff in H; destruct H
  | H : (_ || _) = false |- _ => apply orb_false_iff in H; destruct H
  | H : (_ && _) = false |- _ => apply andb_false_iff in H; destruct H
  | H : (_ || _) = true |- _ => apply orb_true_iff in H; destruct H
  | H : negb _ = true |- _ => apply negb_true_iff in H
  | H : negb _ = false |- _ => apply negb_false_iff in H
  end.

Ltac qstep_cases :=
  unfold qstep;
  repeat match goal with
         | |- context [(?c =? ?n)%N] => destruct (N.eqb_spec c n)
         | |- context [(?c <? ?n)%N] => destruct (N.ltb_spec c n)
         end.

Lemma start_sim c out st' :
  start c = Some (out, st') -> qstep QOut c = Some (alpha st') /\ wf st' = true.
Proof.
  unfold start, is_ws, is_digit. intros H.
  repeat break_if; inversion H; subst; clear H; cbn [alpha wf];
    to_prop; qstep_cases; subst; try discriminate; try lia;
    split; reflexivity.
Qed.

Lemma lstep_sim st c out st' :
  wf st = true -> lstep st c = Some (out, st') ->
  qstep (alpha st) c = Some (alpha st') /\ wf st' = true.
Proof.
  intros Hwf H. destruct st; cbn [lstep alpha] in *.
  1: now apply start_sim in H.
  4: { destruct rest as [|x rest']; [discriminate|].
       cbn [wf forallb] in Hwf. unfold plain in Hwf.
       destruct (N.eqb_spec c x); [subst x|discriminate].
       assert (Hq : qstep QOut c = Some QOut)
         by (to_prop; qstep_cases; subst; try discriminate; try lia; reflexivity).
       to_prop. destruct rest'; inversion H; subst; cbn [alpha wf];
         split; auto. }
  all: unfold end_number, escape, hex_val, is_e, is_digit in H;
    cbn [number_end] in H;
    try (destruct (start c) as [[o s]|] eqn:Hs; [apply start_sim in Hs|]).
  all: repeat break_if; try discriminate.
  all: try (inversion H; subst; clear H).
  all: cbn [alpha wf] in *; to_prop.
  all: try (qstep_cases; subst; try discriminate; try lia; split; reflexivity).
  all: try assumption.
Qed.

Lemma lfinish_out st toks : lfinish st = Some toks -> alpha st = QOut.
Proof. destruct st; cbn; intros H; try reflexivity; discriminate. Qed.

Lemma lex_scan s : forall st toks,
  wf st = true -> lex st s = Some toks -> scan (alpha st) s = Some QOut.
Proof.
  induction s as [|c s IH]; intros st toks Hwf H; cbn in *.
  - now rewrite (lfinish_out _ _ H).
  - destruct (lstep st c) as [[out st']|] eqn:Hstep; [|discriminate].
    destruct (lex st' s) as [toks'|] eqn:Hlex; [|discriminate].
    destruct (lstep_sim _ _ _ _ Hwf Hstep) as [Hq Hwf'].
    rewrite Hq. eapply IH; eauto.
Qed.

(** Valid JSON text passes the reader. *)
Lemma JSON_parse_scan text v :
  JSON_parse text = Normal v -> scan QOut text = Some QOut.
Proof.
  unfold JSON_parse, tokenize. intros H.
  destruct (lex LStart text) as [toks|] eqn:Hlex; [|discriminate].
  exact (lex_scan text LStart toks eq_refl Hlex).
Qed.

Lemma scan_app q x y :
  scan q (x ++ y) = match scan q x with Some q' => scan q' y | None => None end.
Proof.
  revert q. induction x as [|c x IH]; intros q; cbn; [reflexivity|].
  destruct (qstep q c); [apply IH|reflexivity].
Qed.

Lemma scan_inside w : forall q q',
  no_quote w = true -> q <> QOut -> scan q w = Some q' -> q' <> QOut.
Proof.
  induction w as [|c w IH]; intros q q' Hw Hq H; cbn in *.
  - congruence.
  - apply andb_true_iff in Hw. destruct Hw as [Hc Hw].
    destruct (qstep q c) as [q1|] eqn:Hstep; [|discriminate].
    eapply IH; [exact Hw| |exact H].
    destruct q; [congruence| |]; revert Hstep; to_prop; qstep_cases;
      congruence.
Qed.

(** A backtick, then text without a quote, then a line feed: the reader
    stops, wherever it started. *)
Lemma scan_backtick_line a w b q :
  no_quote w = true -> scan q (a ++ 96%N :: w ++ 10%N :: b) = None.
Proof.
  intros Hw. rewrite scan_app. destruct (scan q a) as [q1|]; [|reflexivity].
  cbn [scan]. destruct (qstep q1 96%N) as [q2|] eqn:H2; [|reflexivity].
  assert (Hq2 : q2 <> QOut) by (destruct q1; cbn in H2; congruence).
  rewrite scan_app. destruct (scan q2 w) as [q3|] eqn:H3; [|reflexivity].
  pose proof (scan_inside _ _ _ Hw Hq2 H3).
  cbn [scan]. destruct q3; [congruence|reflexivity|reflexivity].
Qed.

(** ** The fence search *)

Lemma strip_prefix_app p s : strip_prefix p (p ++ s) = Some s.
Proof.
  induction p as [|x p IH]; cbn; [reflexivity|].
  now rewrite N.eqb_refl.
Qed.

Lemma strip_prefix_sound p : forall s r, strip_prefix p s = Some r -> s = p ++ r.
Proof.
  induction p as [|x p IH]; intros s r Hs; cbn in *.
  - congruence.
  - destruct s as [|y s]; [discriminate|].
    destruct (N.eqb_spec x y); [subst y|discriminate].
    now rewrite (IH _ _ Hs).
Qed.

Lemma is_prefix_sound p s : is_prefix p s = true -> exists r, s = p ++ r.
Proof.
  unfold is_prefix. destruct (strip_prefix p s) as [r|] eqn:Hs; [|discriminate].
  intros _. exists r. now apply strip_prefix_sound.
Qed.

Lemma greedy_until_sound close s : forall g,
  greedy_until close s = Some g -> exists b, s = g ++ close ++ b.
Proof.
  induction s as [|c s IH]; intros g Hg; cbn [greedy_until] in Hg.
  - destruct (is_prefix close []) eqn:Hp; [|discriminate].
    inversion Hg; subst. now apply is_prefix_sound.
  - destruct (greedy_until close s) as [g'|].
    + inversion Hg; subst. destruct (IH g' eq_refl) as [b Hb].
      exists b. now rewrite Hb.
    + destruct (is_prefix close (c :: s)) eqn:Hp; [|discriminate].
      inversion Hg; subst. now apply is_prefix_sound.
Qed.

Lemma greedy_until_app close x : greedy_until close (x ++ close) = Some x.
Proof.
  induction x as [|a x IH].
  - cbn [app]. destruct close as [|c close']; [reflexivity|].
    cbn [greedy_until].
    destruct (greedy_until (c :: close') close') as [g|] eqn:Hg.
    + apply greedy_until_sound in Hg. destruct Hg as [b Hb].
      apply (f_equal (@length _)) in Hb.
      rewrite !length_app in Hb. cbn [length] in Hb. lia.
    + unfold is_prefix.
      rewrite <- (app_nil_r (c :: close')) at 2.
      now rewrite strip_prefix_app.
  - cbn [app greedy_until]. now rewrite IH.
Qed.

Lemma search_unfold opening close s :
  search opening close s =
  match match_here opening close s with
  | Some g => Some g
  | None => match s with
            | [] => None
            | _ :: s' => search opening close s'
            end
  end.
Proof. destruct s; reflexivity. Qed.

(** A match decomposes the text. *)
Lemma search_sound opening close s : forall g,
  search opening close s = Some g ->
  exists a b, s = a ++ opening ++ g ++ close ++ b.
Proof.
  induction s as [|c s IH]; intros g Hg; rewrite search_unfold in Hg;
    unfold match_here in Hg.
  - destruct (strip_prefix opening []) as [r|] eqn:Hr; [|discriminate].
    destruct (greedy_until close r) as [g'|] eqn:Hg'; [|discriminate].
    inversion Hg; subst. apply strip_prefix_sound in Hr.
    apply greedy_until_sound in Hg'. destruct Hg' as [b Hb].
    exists [], b. cbn [app]. now rewrite Hr, Hb.
  - destruct (strip_prefix opening (c :: s)) as [r|] eqn:Hr.
    + destruct (greedy_until close r) as [g'|] eqn:Hg'.
      * inversion Hg; subst. apply strip_prefix_sound in Hr.
        apply greedy_until_sound in Hg'. destruct Hg' as [b Hb].
        exists [], b. cbn [app]. now rewrite Hr, Hb.
      * destruct (IH _ Hg) as (a & b & Hab). exists (c :: a), b.
        now rewrite Hab.
    + destruct (IH _ Hg) as (a & b & Hab). exists (c :: a), b.
      now rewrite Hab.
Qed.

(** The leftmost match starts where the text starts with the opening
    literal, and its group runs to the last closing literal. *)
Lemma search_wrapped opening close x :
  search opening close (opening ++ x ++ close) = Some x.
Proof.
  rewrite search_unfold. unfold match_here.
  now rewrite strip_prefix_app, greedy_until_app.
Qed.

Lemma app_prefix {A} (u : list A) : forall x y v,
  x ++ y = u ++ v -> length u <= length x -> exists z, x = u ++ z.
Proof.
  induction u as [|a u IH]; intros x y v Heq Hlen.
  - now exists x.
  - destruct x as [|b x]; [cbn in Hlen; lia|].
    cbn in Heq. injection Heq as Hab Hxy. subst b.
    destruct (IH x y v Hxy) as [z Hz]; [cbn in Hlen; lia|].
    exists z. now rewrite Hz.
Qed.

(** Text that passes the reader holds no fence, also when up to a closing
    literal's length of text follows it. *)
Lemma scan_no_fence p w close y :
  scan QOut p = Some QOut -> no_quote w = true ->
  length y <= length close ->
  search (96%N :: w ++ [10%N]) close (p ++ y) = None.
Proof.
  intros Hp Hw Hy.
  destruct (search _ close (p ++ y)) as [g|] eqn:Hs; [|reflexivity].
  apply search_sound in Hs. destruct Hs as (a & b & Hab).
  assert (Hlen : length (a ++ 96%N :: w ++ [10%N]) <= length p).
  { apply (f_equal (@length _)) in Hab.
    repeat (rewrite ?length_app in *; cbn [length] in * ). lia. }
  rewrite app_assoc in Hab.
  destruct (app_prefix _ _ _ _ Hab Hlen) as [z Hz].
  rewrite Hz in Hp.
  rewrite <- app_assoc in Hp. cbn [app] in Hp.
  rewrite <- app_assoc in Hp. cbn [app] in Hp.
  now rewrite scan_backtick_line in Hp.
Qed.

(** ** Fences in and around valid JSON *)

Lemma JSON_parse_backtick s : JSON_parse (96%N :: s) = Throw syntax_error.
Proof. reflexivity. Qed.

Lemma JSON_parse_nonempty text v : JSON_parse text = Normal v -> text <> [].
Proof. intros Hp ->. discriminate Hp. Qed.

Lemma search_skip opening close c s :
  is_prefix opening (c :: s) = false ->
  search opening close (c :: s) = search opening close s.
Proof.
  intros Hp. rewrite search_unfold. unfold match_here, is_prefix in *.
  now destruct (strip_prefix opening (c :: s)).
Qed.

Lemma jsonMatch_json_fence p :
  jsonMatch (fence_json ++ p ++ fence_close) = Some p.
Proof. unfold jsonMatch. now rewrite search_wrapped. Qed.

Lemma jsonMatch_valid p v : JSON_parse p = Normal v -> jsonMatch p = None.
Proof.
  intros Hp. apply JSON_parse_scan in Hp. unfold jsonMatch.
  assert (Hlen : length (@nil code_unit) <= length fence_close)
    by (cbn; lia).
  pose proof (scan_no_fence p (lit "``json") fence_close [] Hp eq_refl Hlen)
    as H1.
  pose proof (scan_no_fence p (lit "``") fence_close [] Hp eq_refl Hlen)
    as H2.
  rewrite app_nil_r in H1, H2.
  change (search fence_json fence_close p = None) in H1.
  change (search fence_plain fence_close p = None) in H2.
  now rewrite H1.
Qed.

Lemma jsonMatch_plain_fence p v :
  JSON_parse p = Normal v ->
  jsonMatch (fence_plain ++ p ++ fence_close) = Some p.
Proof.
  intros Hp. apply JSON_parse_scan in Hp. unfold jsonMatch.
  assert (Hnone : search fence_json fence_close
                    (fence_plain ++ p ++ fence_close) = None).
  { change (fence_plain ++ p ++ fence_close)
      with (96%N :: 96%N :: 96%N :: 10%N :: p ++ fence_close).
    do 4 (rewrite search_skip by reflexivity).
    apply (scan_no_fence p (lit "``json") fence_close fence_close Hp eq_refl).
    lia. }
  rewrite Hnone. apply search_wrapped.
Qed.

(** ** Response Normalizer *)

Lemma parse_content_direct text v :
  JSON_parse text = Normal v ->
  parse_content (VString text) =
  try_catch (structure_logic v) (fun _ => from_code_block (VString text)).
Proof. intros Hp. unfold parse_content. cbn. now rewrite Hp. Qed.

Lemma parse_content_valid text v :
  JSON_parse text = Normal v ->
  parse_content (VString text) =
  try_catch (structure_logic v) (fun _ => Normal empty_result).
Proof.
  intros Hp. rewrite (parse_content_direct _ _ Hp).
  unfold from_code_block. cbn. now rewrite (jsonMatch_valid _ _ Hp).
Qed.

Lemma parse_content_fenced opening p v :
  JSON_parse p = Normal v ->
  jsonMatch (96%N :: opening ++ p ++ fence_close) = Some p ->
  parse_content (VString (96%N :: opening ++ p ++ fence_close)) =
  try_catch (structure_logic v) (fun _ => Normal empty_result).
Proof.
  intros Hp Hm. unfold parse_content. cbn [string_method bind].
  rewrite JSON_parse_backtick. cbn [bind try_catch].
  unfold from_code_block. cbn [string_method bind]. rewrite Hm.
  destruct p as [|c p']; [discriminate Hp|].
  cbn [truthy]. now rewrite Hp.
Qed.

(** C6. A model output that parses to an object whose [items] property is
    an array is returned as parsed: the result is that object, and its
    [items] is that array, elements and order untouched. *)
Theorem normalizer_items_round_trip content props a :
  JSON_parse content = Normal (VObject props) ->
  lookup (lit "items") props = Some (VArray a) ->
  normalize (VString content) = Normal (VObject props) /\
  get (VObject props) (lit "items") = Normal (VArray a).
Proof.
  intros Hp Hitems.
  assert (Hget : get (VObject props) (lit "items") = Normal (VArray a))
    by (cbn [get]; now rewrite Hitems).
  split; [|exact Hget].
  unfold normalize. rewrite (parse_content_valid _ _ Hp).
  unfold structure_logic. rewrite Hget. cbn [bind truthy try_catch].
  rewrite Hget. reflexivity.
Qed.

Lemma normalizer_items_round_trip_witness :
  normalize (VString quiz_output)
  = Normal (VObject [(lit "items", VArray quiz_items)]) /\
  get (VObject [(lit "items", VArray quiz_items)]) (lit "items")
  = Normal (VArray quiz_items).
Proof.
  apply (normalizer_items_round_trip quiz_output
           [(lit "items", VArray quiz_items)] quiz_items);
    vm_compute; reflexivity.
Defined.

(** C9. A model output that parses to a bare array is wrapped: the result
    is the object [{ items: a }], whose one property [items] holds that
    array [a], elements and order unchanged. *)
Theorem normalizer_wraps_bare_array content a :
  JSON_parse content = Normal (VArray a) ->
  normalize (VString content) = Normal (VObject [(lit "items", VArray a)]).
Proof.
  intros Hp. unfold normalize. rewrite (parse_content_valid _ _ Hp).
  reflexivity.
Qed.

Lemma normalizer_wraps_bare_array_witness :
  normalize (VString quiz_array)
  = Normal (VObject
              [(lit "items",
                VArray [VObject [(lit "title", VString (lit "Quiz 2"));
                                 (lit "type", VString (lit "quiz"))]])]).
Proof.
  apply (normalizer_wraps_bare_array quiz_array). vm_compute. reflexivity.
Defined.

(** C7, as the code has it. For a JSON payload [p], the fenced output in
    the one layout that the patterns of lines 189-190 match (three
    backticks, the tag [json] in lower case or no tag, one line feed, [p],
    one line feed, three backticks) is normalised to the same result as
    [p] alone. *)
Theorem normalizer_fenced_same_as_bare p v :
  JSON_parse p = Normal v ->
  normalize (VString (fence_json ++ p ++ fence_close)) = normalize (VString p)
  /\ normalize (VString (fence_plain ++ p ++ fence_close))
     = normalize (VString p).
Proof.
  intros Hp. unfold normalize.
  rewrite (parse_content_valid _ _ Hp).
  split.
  - change (fence_json ++ p ++ fence_close)
      with (96%N :: (lit "``json" ++ [LF]) ++ p ++ fence_close).
    rewrite (parse_content_fenced _ _ _ Hp); [reflexivity|].
    apply jsonMatch_json_fence.
  - change (fence_plain ++ p ++ fence_close)
      with (96%N :: (lit "``" ++ [LF]) ++ p ++ fence_close).
    rewrite (parse_content_fenced _ _ _ Hp); [reflexivity|].
    apply (jsonMatch_plain_fence _ _ Hp).
Qed.

Lemma normalizer_fenced_same_as_bare_witness :
  normalize (VString (fence_json ++ quiz_output ++ fence_close))
  = normalize (VString quiz_output)
  /\ normalize (VString (fence_plain ++ quiz_output ++ fence_close))
     = normalize (VString quiz_output).
Proof.
  apply (normalizer_fenced_same_as_bare quiz_output
           (VObject [(lit "items", VArray quiz_items)])).
  vm_compute. reflexivity.
Defined.

(** C7, as stated: the fence alone does not do. The payload of the quiz
    record inside a fenced block whose lines end in a carriage return and a
    line feed, inside a fence written on one line, and inside a fence
    tagged [JSON] in upper case: each time the patterns find no block and
    the result is [{ items: [] }], where the bare payload gives the
    record. *)
Lemma fenced_layout_counterexample :
  JSON_parse quiz_output
  = Normal (VObject [(lit "items", VArray quiz_items)]) /\
  normalize (VString quiz_output)
  = Normal (VObject [(lit "items", VArray quiz_items)]) /\
  normalize (VString quiz_fenced_crlf)
  = Normal (VObject [(lit "items", VArray [])]) /\
  normalize (VString quiz_fenced_one_line)
  = Normal (VObject [(lit "items", VArray [])]) /\
  normalize (VString quiz_fenced_upper_case)
  = Normal (VObject [(lit "items", VArray [])]) /\
  normalize (VString quiz_fenced_crlf) <> normalize (VString quiz_output).
Proof.
  repeat split; try (vm_compute; reflexivity).
  vm_compute. discriminate.
Qed.

(** ** What every result of the normaliser looks like *)



Lemma has_items_wrap v : truthy v = true -> has_items (wrap_items v).
Proof. intros Hv. exists v. split; [reflexivity|exact Hv]. Qed.

Lemma has_items_empty : has_items empty_result.
Proof. now apply has_items_wrap. Qed.

Lemma find_some pred keys k :
  find pred keys = Normal (Some k) -> pred k = Normal true.
Proof.
  induction keys as [|k' keys IH]; cbn; [discriminate|].
  destruct (pred k') as [[|]|] eqn:Hk'; try discriminate.
  - intros Heq. inversion Heq; subst. exact Hk'.
  - exact IH.
Qed.

Lemma looks_like_assignments_array parsed key :
  looks_like_assignments parsed key = Normal true ->
  exists elems, get parsed key = Normal (VArray elems).
Proof.
  unfold looks_like_assignments.
  destruct (get parsed key) as [field|]; [|discriminate]. cbn [bind].
  destruct field; try discriminate. intros _. now exists elems.
Qed.

Lemma structure_logic_items parsed r :
  structure_logic parsed = Normal r -> has_items r.
Proof.
  unfold structure_logic.
  destruct (get parsed (lit "items")) as [items|] eqn:Hitems; [|discriminate].
  cbn [bind]. destruct (truthy items) eqn:Ht.
  - intros Heq. inversion Heq; subst. now exists items.
  - destruct (Array_isArray parsed) eqn:Ha.
    + intros Heq. inversion Heq; subst. apply has_items_wrap.
      now destruct parsed.
    + destruct (Object_keys parsed) as [keys|]; [|discriminate]. cbn [bind].
      destruct (find (looks_like_assignments parsed) keys) as [[key|]|] eqn:Hf;
        [| |discriminate]; cbn [bind].
      * destruct (truthy (VString key)).
        -- apply find_some in Hf.
           destruct (looks_like_assignments_array _ _ Hf) as [elems He].
           rewrite He. cbn [bind]. intros Heq. inversion Heq; subst.
           now apply has_items_wrap.
        -- intros Heq. inversion Heq; subst. apply has_items_empty.
      * intros Heq. inversion Heq; subst. apply has_items_empty.
Qed.

Lemma from_code_block_items text :
  exists r, from_code_block (VString text) = Normal r /\ has_items r.
Proof.
  unfold from_code_block. cbn [string_method bind].
  destruct (jsonMatch text) as [group|];
    [|exists empty_result; split; [reflexivity|apply has_items_empty]].
  destruct (truthy (VString group));
    [|exists empty_result; split; [reflexivity|apply has_items_empty]].
  destruct (JSON_parse group) as [parsedJson|];
    [|exists empty_result; split; [reflexivity|apply has_items_empty]].
  cbn [bind].
  destruct (structure_logic parsedJson) as [r|] eqn:Hs;
    [|exists empty_result; split; [reflexivity|apply has_items_empty]].
  exists r. split; [reflexivity|]. exact (structure_logic_items _ _ Hs).
Qed.

Lemma parse_content_items text :
  exists r, parse_content (VString text) = Normal r /\ has_items r.
Proof.
  unfold parse_content. cbn [string_method bind].
  destruct (JSON_parse text) as [parsedContent|];
    [|apply from_code_block_items].
  cbn [bind].
  destruct (structure_logic parsedContent) as [r|] eqn:Hs;
    [|apply from_code_block_items].
  exists r. split; [reflexivity|]. exact (structure_logic_items _ _ Hs).
Qed.

Lemma get_length_truthy items :
  truthy items = true -> exists n, get items (lit "length") = Normal n.
Proof.
  destruct items; try discriminate; intros _; cbn [get]; eauto.
  - destruct (jstring_eqb (lit "length") (lit "length")); eauto.
    destruct (array_index (lit "length")); eauto.
  - destruct (jstring_eqb (lit "length") (lit "length")); eauto.
    destruct (array_index (lit "length")); eauto.
Qed.

(** On a string the lines 152-228 return, with an [items] that is neither
    missing nor [null], or throw at the log line 227. *)
Lemma normalize_string text :
  (exists r, normalize (VString text) = Normal r /\ countable r) \/
  normalize (VString text) = Throw not_primitive.
Proof.
  destruct (parse_content_items text) as (r & Hr & Hitems).
  unfold normalize. rewrite Hr. cbn [bind].
  destruct Hitems as (items & Hget & Ht). rewrite Hget. cbn [bind].
  rewrite Ht. destruct (get_length_truthy _ Ht) as [n Hn]. rewrite Hn.
  cbn [bind]. unfold interpolate. destruct (stringifies n) eqn:Hs; cbn [bind].
  - left. exists r. split; [reflexivity|]. now exists items, n.
  - now right.
Qed.

Lemma normalize_countable text r :
  normalize (VString text) = Normal r -> countable r.
Proof.
  destruct (normalize_string text) as [(r' & Hr' & Hitems)|Hthrow].
  - rewrite Hr'. intros Heq. inversion Heq; subst. exact Hitems.
  - rewrite Hthrow. discriminate.
Qed.

Lemma countable_empty : countable empty_result.
Proof. exists (VArray []), (VNumber (of_nat 0)). now repeat split. Qed.

(** A string is the only content the normaliser returns on. *)
Lemma normalize_not_string content r :
  normalize content = Normal r -> is_string content = true.
Proof. destruct content; try discriminate; reflexivity. Qed.

(** C2, at the output [{"items": 5}]: the normaliser returns the parsed
    object as it is, and its [items] is the number 5, not an array. *)
Theorem normalizer_returns_non_array_items :
  normalize (VString (json_text "{'items': 5}"))
  = Normal (VObject [(lit "items", VNumber (of_nat 5))]) /\
  Array_isArray (VNumber (of_nat 5)) = false.
Proof. split; vm_compute; reflexivity. Qed.

(** ** ToString and the comparison with zero *)

Lemma to_string_returns cv v :
  stringifies v = true -> exists s, to_string cv v = Normal s.
Proof.
  induction v as [| |b|x|s|elems IH|props IH] using value_induction;
    cbn [stringifies to_string]; intros Hs; eauto.
  - destruct b; eauto.
  - induction IH as [|x rest Hx Hrest IHrest]; [eauto|].
    apply andb_true_iff in Hs. destruct Hs as [Hsx Hsrest].
    destruct (IHrest Hsrest) as [b Hb].
    assert (Ha : exists a, match x with
                           | VUndefined | VNull => Normal []
                           | _ => to_string cv x
                           end = Normal a)
      by (destruct x; eauto).
    destruct Ha as [a Ha]. rewrite Ha. cbn [bind].
    destruct rest; [eauto|]. rewrite Hb. cbn [bind]. eauto.
  - destruct (has_own (lit "toString") props); [discriminate|eauto].
Qed.

(** Once the count went through a template literal, comparing it with zero
    does not throw. *)
Lemma gt_zero_returns cv v :
  stringifies v = true -> exists b, gt_zero cv v = Normal b.
Proof.
  intros Hs. destruct (to_string_returns cv v Hs) as [s Hv].
  destruct v; cbn [gt_zero]; eauto; rewrite Hv; cbn [bind]; eauto.
Qed.

(** ** Prompt Builder *)

(** C8, as the code has it. A text of at most 15,000 code units is embedded
    unchanged; of a longer text the first 15,000 code units are embedded,
    followed by the marker [... [text truncated for token limit]]; in both
    cases the prompt is the fixed instructions followed by that excerpt. *)
Theorem prompt_builder_truncation text :
  ((N.of_nat (length text) <= MAX_LENGTH)%N ->
   prompt text = instructions ++ text) /\
  ((MAX_LENGTH < N.of_nat (length text))%N ->
   exists excerpt rest,
     text = excerpt ++ rest /\
     N.of_nat (length excerpt) = MAX_LENGTH /\
     prompt text
     = instructions ++ excerpt ++ lit "... [text truncated for token limit]").
Proof.
  unfold prompt, truncatedText.
  destruct (N.ltb_spec MAX_LENGTH (N.of_nat (length text))) as [Hlong|Hshort].
  - split; [lia|]. intros _.
    exists (substring0 text MAX_LENGTH), (skipn (N.to_nat MAX_LENGTH) text).
    unfold substring0. split; [now rewrite firstn_skipn|]. split; [|reflexivity].
    rewrite firstn_length_le; lia.
  - split; [reflexivity|lia].
Qed.

Lemma prompt_builder_truncation_witness :
  prompt quiz_text = instructions ++ quiz_text /\
  exists excerpt rest,
    long_text = excerpt ++ rest /\
    N.of_nat (length excerpt) = MAX_LENGTH /\
    prompt long_text
    = instructions ++ excerpt ++ lit "... [text truncated for token limit]".
Proof.
  split.
  - apply (prompt_builder_truncation quiz_text). vm_compute. discriminate.
  - apply (prompt_builder_truncation long_text). vm_compute. reflexivity.
Defined.

(** C8, as stated: the marker appended to the excerpt is not
    [[text truncated]]. *)
Lemma prompt_marker_counterexample :
  (MAX_LENGTH < N.of_nat (length long_text))%N /\
  prompt long_text
  <> instructions ++ substring0 long_text MAX_LENGTH ++ lit "[text truncated]".
Proof.
  split; [vm_compute; reflexivity|].
  intros Heq. apply (f_equal (fun l => N.of_nat (length l))) in Heq.
  vm_compute in Heq. discriminate.
Qed.

(** ** The model invoker *)

Lemma call_model_calls w name p deadline t :
  calls (snd (call_model w name p deadline t))
  = calls t ++ [chat_request name p].
Proof.
  unfold call_model, mbind, chat_completions_create, await_race, ret.
  destruct (create w (chat_request name p)) as [e|after s|]; cbn;
    try reflexivity.
  - destruct (now t + after <? deadline)%N; [destruct s|]; reflexivity.
Qed.

(** A call that fails throws, and the clock stands where the race ended. *)
Lemma call_model_fails w name p t budget :
  call_fails (create w (chat_request name p)) budget ->
  exists e t',
    call_model w name p (now t + budget)%N t = (Throw e, t') /\
    now t' = (now t + time_lost (create w (chat_request name p)) budget)%N.
Proof.
  unfold call_model, mbind, chat_completions_create, await_race, ret,
    call_fails, time_lost.
  destruct (create w (chat_request name p)) as [e|after s|]; cbn.
  - intros _. exists e. eexists. split; [reflexivity|cbn; lia].
  - destruct (N.ltb_spec (now t + after) (now t + budget)).
    + destruct s; intros Hf; [lia|].
      exists reason. eexists. split; [reflexivity|cbn; lia].
    + intros _. exists timed_out. eexists. split; [reflexivity|cbn; lia].
  - intros _. exists timed_out. eexists. split; [reflexivity|cbn; lia].
Qed.

(** The function, call by call. *)
Lemma extract_run w syllabusText :
  extractAssignmentsFromSyllabus w syllabusText fresh =
  if key_set w then
    match call_model w "gpt-4o" (prompt syllabusText) TIMEOUT_MS fresh with
    | (Normal fl, t1) => (finish fl, t1)
    | (Throw _, t1) =>
        match call_model w "gpt-3.5-turbo" (prompt syllabusText) TIMEOUT_MS t1
        with
        | (Normal fl, t2) => (finish fl, t2)
        | (Throw _, t2) => (Normal empty_result, t2)
        end
    end
  else (Normal empty_result, fresh).
Proof.
  unfold extractAssignmentsFromSyllabus, extract_try, mtry, mbind,
    new_timeoutPromise, throw, ret, lift, finish, fresh.
  generalize (prompt syllabusText). intros p.
  destruct (key_set w); [|reflexivity].
  cbn [negb now]. change (0 + TIMEOUT_MS)%N with TIMEOUT_MS.
  destruct (call_model w "gpt-4o" p TIMEOUT_MS _) as [[fl1|e1] t1].
  - destruct fl1 as [r|resp]; [reflexivity|].
    now destruct (read_response resp).
  - destruct (call_model w "gpt-3.5-turbo" p TIMEOUT_MS t1) as [[fl2|e2] t2];
      [|reflexivity].
    destruct fl2 as [r|resp]; [reflexivity|].
    now destruct (read_response resp).
Qed.





(** ** The extraction never throws *)

Lemma call_model_continue w name p deadline t fl t' :
  call_model w name p deadline t = (Normal fl, t') ->
  exists response, fl = Continue response.
Proof.
  unfold call_model, mbind, chat_completions_create, await_race, ret.
  destruct (create w (chat_request name p)) as [e|after s|]; cbn;
    try discriminate.
  destruct (now t + after <? deadline)%N; [destruct s|]; cbn;
    try discriminate.
  intros Heq. inversion Heq. eauto.
Qed.

Lemma read_response_countable response r :
  read_response response = Normal r -> countable r.
Proof.
  unfold read_response.
  destruct (truthy response);
    [|intros Heq; inversion Heq; apply countable_empty].
  cbn [negb]. destruct (get response (lit "choices")) as [choices|];
    [|discriminate]. cbn [bind].
  destruct (truthy choices);
    [|intros Heq; inversion Heq; apply countable_empty].
  cbn [negb]. destruct (get choices (lit "0")) as [first|];
    [|discriminate]. cbn [bind].
  destruct (truthy first);
    [|intros Heq; inversion Heq; apply countable_empty].
  cbn [negb]. destruct (get first (lit "message")) as [m|];
    [|discriminate]. cbn [bind].
  destruct (get m (lit "content")) as [content|]; [|discriminate]. cbn [bind].
  destruct (get content (lit "length")) as [n|]; [|discriminate]. cbn [bind].
  intros Hn. pose proof (normalize_not_string _ _ Hn) as Hs.
  destruct content; try discriminate.
  exact (normalize_countable _ _ Hn).
Qed.

Lemma finish_countable fl :
  exists r, finish fl = Normal r /\
            (countable r \/ exists result, fl = Return result).
Proof.
  destruct fl as [result|response]; cbn [finish].
  - exists result. split; [reflexivity|]. right. eauto.
  - destruct (read_response response) as [r|e] eqn:Hr; cbn [try_catch].
    + exists r. split; [reflexivity|]. left.
      exact (read_response_countable _ _ Hr).
    + exists empty_result. split; [reflexivity|]. left. apply countable_empty.
Qed.

(** Whatever the key, the API and the text, the function returns a value,
    and the value has a truthy [items] with a printable length. *)
Lemma extract_returns w syllabusText :
  exists v t, extractAssignmentsFromSyllabus w syllabusText fresh
              = (Normal v, t) /\ countable v.
Proof.
  rewrite extract_run.
  destruct (key_set w);
    [|exists empty_result, fresh; split; [reflexivity|apply countable_empty]].
  destruct (call_model w "gpt-4o" _ _ _) as [[fl1|e1] t1] eqn:H1.
  - destruct (call_model_continue _ _ _ _ _ _ _ H1) as [resp ->].
    destruct (finish_countable (Continue resp)) as (r & Hr & [Hi|[x Hx]]);
      [|discriminate].
    exists r, t1. rewrite Hr. now split.
  - destruct (call_model w "gpt-3.5-turbo" _ _ _) as [[fl2|e2] t2] eqn:H2.
    + destruct (call_model_continue _ _ _ _ _ _ _ H2) as [resp ->].
      destruct (finish_countable (Continue resp)) as (r & Hr & [Hi|[x Hx]]);
        [|discriminate].
      exists r, t2. rewrite Hr. now split.
    + exists empty_result, t2. split; [reflexivity|apply countable_empty].
Qed.

(** From any clock and call history, the function returns rather than
    throws. *)
Lemma extract_never_throws w syllabusText t :
  exists v t', extractAssignmentsFromSyllabus w syllabusText t = (Normal v, t').
Proof.
  unfold extractAssignmentsFromSyllabus, mtry, ret.
  destruct (extract_try w syllabusText t) as [[v|e] t']; eauto.
Qed.

(** ** The route handler of the assignment parsing *)

Ltac run_handler :=
  unfold after_await, on_fulfilled, on_aiError, outer_catch, timer_fires,
    timer_callback, clearTimeout, get_hasResponded, set_hasResponded,
    res_json, mtry, mbind, ret, throw, lift;
  cbn [hasResponded timer_pending sent negb fst snd app].

(** The timer fires first: the 202 is the only response, whatever the
    extraction brings later. *)
Lemma timer_first e outcome :
  sent (timer_fires e (snd (mtry (after_await e outcome) outer_catch
                                 (timer_fires e started))))
  = [{| status := 202; body := processing_body e |}].
Proof. unfold started. now destruct outcome; run_handler. Qed.

(** The extraction resumes the handler first: one response is written, a
    200 or a 500, and the cleared timer adds nothing. *)
Lemma extraction_first e outcome :
  exists code b,
    sent (timer_fires e (snd (mtry (after_await e outcome) outer_catch
                                   started)))
    = [{| status := code; body := b |}] /\ (code = 200 \/ code = 500)%N.
Proof.
  unfold started. destruct outcome as [assignments|aiError]; run_handler;
    [|do 2 eexists; split; [reflexivity|now right]].
  destruct (get assignments (lit "items")) as [items|];
    [|do 2 eexists; split; [reflexivity|now right]].
  cbn [negb]. destruct (truthy items).
  - destruct (get items (lit "length")) as [assignmentCount|];
      [|do 2 eexists; split; [reflexivity|now right]].
    unfold interpolate.
    destruct (stringifies assignmentCount) eqn:Hs;
      [|do 2 eexists; split; [reflexivity|now right]].
    destruct (strictly_zero assignmentCount);
      [do 2 eexists; split; [reflexivity|now right]|].
    cbn [hasResponded timer_pending sent negb fst snd app].
    destruct (gt_zero_returns (conv e) assignmentCount Hs) as [b Hb].
    rewrite Hb. do 2 eexists; split; [reflexivity|now left].
  - do 2 eexists; split; [reflexivity|now right].
Qed.

(** Once line 171 has printed the request identifier, exactly one response
    is written, on every path of the [try] statement. *)
Lemma response_written_exactly_once e req_body :
  exists r, post_parse_assignments e req_body = [r].
Proof.
  unfold post_parse_assignments.
  destruct (get req_body (lit "text")) as [text|error]; [|cbn; eauto].
  destruct text as [| |b|x|[|c text']|elems|props]; eauto.
  destruct (Service.extractAssignmentsFromSyllabus _ _ _) as [outcome t].
  destruct (now t <? EARLY_ACK_MS)%N.
  - destruct (extraction_first e outcome) as (code & b & Hb & _). eauto.
  - fold started. rewrite timer_first. eauto.
Qed.

(** X3. A request that the extraction does not answer within ten seconds
    gets the 202 and nothing else. *)
Lemma late_completion_gives_202 e c text outcome t :
  extractAssignmentsFromSyllabus (api e) (c :: text) fresh = (outcome, t) ->
  (EARLY_ACK_MS <= now t)%N ->
  post_parse_assignments e (request_body (c :: text))
  = [{| status := 202; body := processing_body e |}].
Proof.
  intros Hrun Hnow.
  unfold post_parse_assignments, request_body. cbn [get lookup].
  change (jstring_eqb (lit "text") (lit "text")) with true.
  cbn [or_undefined]. fold fresh. rewrite Hrun.
  apply N.ltb_ge in Hnow. rewrite Hnow. fold started. apply timer_first.
Qed.

(** X4. A request that the extraction answers within ten seconds: the count
    [assignments.items.length] decides the response. A zero count gives the
    500 of the assignment to the [const] binding, any other count the 200
    with the result as it is. *)
Lemma early_completion_response e c text v t :
  extractAssignmentsFromSyllabus (api e) (c :: text) fresh = (Normal v, t) ->
  (now t < EARLY_ACK_MS)%N ->
  exists items count,
    get v (lit "items") = Normal items /\
    get items (lit "length") = Normal count /\
    ((strictly_zero count = true /\
      post_parse_assignments e (request_body (c :: text))
      = [{| status := 500; body := failure_body const_assignment |}]) \/
     (strictly_zero count = false /\
      exists positive_count,
        gt_zero (conv e) count = Normal positive_count /\
        post_parse_assignments e (request_body (c :: text))
        = [{| status := 200; body := success_body positive_count v |}])).
Proof.
  intros Hrun Hnow.
  destruct (extract_returns (api e) (c :: text)) as (v' & t' & Hrun' & Hc).
  rewrite Hrun in Hrun'. inversion Hrun'; subst v' t'. clear Hrun'.
  destruct Hc as (items & count & Hitems & Ht & Hlen & Hs).
  exists items, count. split; [exact Hitems|]. split; [exact Hlen|].
  unfold post_parse_assignments, request_body. cbn [get lookup].
  change (jstring_eqb (lit "text") (lit "text")) with true.
  cbn [or_undefined]. fold fresh. rewrite Hrun.
  apply N.ltb_lt in Hnow. rewrite Hnow.
  run_handler. rewrite Hitems, Ht, Hlen. unfold interpolate. rewrite Hs.
  destruct (strictly_zero count); [left; now split|right].
  split; [reflexivity|].
  cbn [hasResponded timer_pending sent negb fst snd app].
  destruct (gt_zero_returns (conv e) count Hs) as [b Hb]. rewrite Hb.
  exists b. now split.
Qed.

(** The spec's example of a successful request: the model answers with one
    quiz record after two seconds, and the response is the 200 with that
    record unchanged. *)
Example quiz_request_answered_with_200 cv :
  post_parse_assignments
    (env_of cv (Settles 2000 (Fulfilled (reply quiz_output))) Hangs)
    (request_body quiz_text)
  = [{| status := 200;
        body := success_body true
                  (VObject [(lit "items", VArray quiz_items)]) |}].
Proof. vm_compute. reflexivity. Qed.

(** The same answer after twelve seconds: the caller gets the 202 only. *)
Example slow_request_answered_with_202 cv :
  let e := env_of cv (Settles 12000 (Fulfilled (reply quiz_output))) Hangs in
  post_parse_assignments e (request_body quiz_text)
  = [{| status := 202; body := processing_body e |}].
Proof. vm_compute. reflexivity. Qed.

(** C1, at the spec's own example: the model answers the primary call after
    two seconds with the text [I cannot process this.]; the extraction
    returns [{ items: [] }], and the one response written is the 500 of the
    inner handler, carrying the TypeError of the assignment to the [const]
    binding; no 200 is written. *)
Theorem no_assignments_answered_with_500 cv :
  let e := env_of cv (Settles 2000 (Fulfilled (reply refusal))) Hangs in
  extractAssignmentsFromSyllabus (api e) quiz_text fresh
  = (Normal empty_result,
     {| now := 2000; calls := [primary quiz_text] |}) /\
  post_parse_assignments e (request_body quiz_text)
  = [{| status := 500; body := failure_body const_assignment |}].
Proof. split; vm_compute; reflexivity. Qed.

(** C4, at a request that the extraction answers within ten seconds: when
    the model's output is [{"items": []}] the one response written is a
    500, not a 200. *)
Theorem early_completion_without_200 cv :
  let e := env_of cv
             (Settles 3000 (Fulfilled (reply (json_text "{'items': []}"))))
             Hangs in
  now (snd (extractAssignmentsFromSyllabus (api e) quiz_text fresh)) = 3000%N
  /\ post_parse_assignments e (request_body quiz_text)
     = [{| status := 500; body := failure_body const_assignment |}].
Proof. split; vm_compute; reflexivity. Qed.

(** C10, at a model that answers [{"items": []}] after one second: the
    extraction returns a value, and the code after the [await] still enters
    the handler of the inner [try], which writes the 500. *)
Theorem error_branch_reached_without_extraction_error cv :
  let e := env_of cv
             (Settles 1000 (Fulfilled (reply (json_text "{'items': []}"))))
             Hangs in
  fst (extractAssignmentsFromSyllabus (api e) quiz_text fresh)
  = Normal empty_result /\
  after_await e (Normal empty_result) started
  = on_aiError const_assignment
      {| hasResponded := false; timer_pending := false; sent := [] |} /\
  post_parse_assignments e (request_body quiz_text)
  = [{| status := 500; body := failure_body const_assignment |}].
Proof. repeat split; vm_compute; reflexivity. Qed.

(** ** The upload route *)

(** An upload under the field [syllabus] that is neither PDF nor DOCX gets
    the 500 of the error-handling middleware, with the filter's message;
    the handler's own 400 for an unsupported type is never reached. *)
Lemma unsupported_type_gives_500 d f :
  jstring_eqb (fieldname f) (lit "syllabus") = true ->
  jstring_eqb (mimetype f) PDF = false ->
  jstring_eqb (mimetype f) DOCX = false ->
  post_extract_text d (Some f)
  = {| status := 500;
       body := error_body
                 (VString (lit "Only PDF and DOCX files are allowed")) |}.
Proof.
  intros Hfield Hpdf Hdocx.
  unfold post_extract_text, upload_single, fileFilter.
  rewrite Hfield, Hpdf, Hdocx. reflexivity.
Qed.

(** C5, at a text file: the filter's error reaches the error-handling
    middleware, and the response is a 500 with the filter's message. *)
Theorem unsupported_upload_answered_with_500 d :
  post_extract_text d (Some notes_txt)
  = {| status := 500;
       body := error_body
                 (VString (lit "Only PDF and DOCX files are allowed")) |}.
Proof. reflexivity. Qed.

(* ================================================================== *)
(** * More properties, of the pipeline and of its callers *)
(* ================================================================== *)

Import Cors Csv Table Page Shapes Cases.

(** ** More on the model invoker *)

(** One model call, by what the API does with the request. *)
Lemma call_model_run w name p deadline t :
  call_model w name p deadline t =
  let issued := calls t ++ [chat_request name p] in
  let late := (Throw timed_out,
               {| now := N.max (now t) deadline; calls := issued |}) in
  match create w (chat_request name p) with
  | ThrowsSync e => (Throw e, {| now := now t; calls := issued |})
  | Settles after s =>
      if (now t + after <? deadline)%N
      then (match s with
            | Fulfilled response => Normal (Continue response)
            | Rejected reason => Throw reason
            end,
            {| now := (now t + after)%N; calls := issued |})
      else late
  | Hangs => late
  end.
Proof.
  unfold call_model, mbind, chat_completions_create, await_race, ret.
  destruct (create w (chat_request name p)) as [e|after s|]; cbn;
    try reflexivity.
  destruct (now t + after <? deadline)%N; [destruct s|]; reflexivity.
Qed.

(** The function from any clock and call history, call by call. *)
Lemma extract_run_at w syllabusText t :
  extractAssignmentsFromSyllabus w syllabusText t =
  if key_set w then
    match call_model w "gpt-4o" (prompt syllabusText)
                     (now t + TIMEOUT_MS)%N t with
    | (Normal fl, t1) => (finish fl, t1)
    | (Throw _, t1) =>
        match call_model w "gpt-3.5-turbo" (prompt syllabusText)
                         (now t + TIMEOUT_MS)%N t1 with
        | (Normal fl, t2) => (finish fl, t2)
        | (Throw _, t2) => (Normal empty_result, t2)
        end
    end
  else (Normal empty_result, t).
Proof.
  unfold extractAssignmentsFromSyllabus, extract_try, mtry, mbind,
    new_timeoutPromise, throw, ret, lift, finish.
  generalize (prompt syllabusText). intros p.
  destruct (key_set w); [|reflexivity].
  cbn [negb].
  destruct (call_model w "gpt-4o" p _ t) as [[fl1|e1] t1].
  - destruct fl1 as [r|resp]; [reflexivity|].
    now destruct (read_response resp).
  - destruct (call_model w "gpt-3.5-turbo" p _ t1) as [[fl2|e2] t2];
      [|reflexivity].
    destruct fl2 as [r|resp]; [reflexivity|].
    now destruct (read_response resp).
Qed.

(** X5. Whatever the key, the API and the text, and from any clock and
    call history, the function returns a value rather than throws, and the
    value has an [items] that is neither missing nor [null] nor otherwise
    falsy, with a [length] that a template literal can print. *)
Theorem extraction_always_returns_items w syllabusText t :
  exists v t',
    extractAssignmentsFromSyllabus w syllabusText t = (Normal v, t') /\
    countable v.
Proof.
  rewrite extract_run_at.
  destruct (key_set w);
    [|exists empty_result, t; split; [reflexivity|apply countable_empty]].
  destruct (call_model w "gpt-4o" _ _ _) as [[fl1|e1] t1] eqn:H1.
  - destruct (call_model_continue _ _ _ _ _ _ _ H1) as [resp ->].
    destruct (finish_countable (Continue resp)) as (r & Hr & [Hi|[x Hx]]);
      [|discriminate].
    exists r, t1. rewrite Hr. now split.
  - destruct (call_model w "gpt-3.5-turbo" _ _ _) as [[fl2|e2] t2] eqn:H2.
    + destruct (call_model_continue _ _ _ _ _ _ _ H2) as [resp ->].
      destruct (finish_countable (Continue resp)) as (r & Hr & [Hi|[x Hx]]);
        [|discriminate].
      exists r, t2. rewrite Hr. now split.
    + exists empty_result, t2. split; [reflexivity|apply countable_empty].
Qed.



(** X7. When the primary model answers before the 45 s are over, its
    response is the one that is read: the secondary model is not called,
    and the function returns at the instant of the answer. *)
Theorem primary_answer_used_alone w syllabusText after response :
  key_set w = true ->
  create w (primary syllabusText) = Settles after (Fulfilled response) ->
  (after < TIMEOUT_MS)%N ->
  extractAssignmentsFromSyllabus w syllabusText fresh
  = (finish (Continue response),
     {| now := after; calls := [primary syllabusText] |}).
Proof.
  intros Hkey Hcreate Hafter. rewrite extract_run_at, Hkey.
  rewrite call_model_run. unfold primary in Hcreate. rewrite Hcreate.
  cbv zeta. cbn [now calls fresh app]. rewrite !N.add_0_l.
  apply N.ltb_lt in Hafter. now rewrite Hafter.
Qed.

Lemma primary_answer_used_alone_witness :
  extractAssignmentsFromSyllabus
    (api_of (Settles 2000 (Fulfilled (reply quiz_output))) Hangs)
    quiz_text fresh
  = (finish (Continue (reply quiz_output)),
     {| now := 2000; calls := [primary quiz_text] |}).
Proof.
  apply primary_answer_used_alone; [reflexivity|reflexivity|].
  vm_compute. reflexivity.
Defined.

(** X8. The clock never runs back, and the function returns at most 45 s
    after it was called, however many calls it makes and whatever the API
    does: both races end at the one time-out at the latest. *)
Theorem extraction_within_timeout w syllabusText t :
  let t' := snd (extractAssignmentsFromSyllabus w syllabusText t) in
  (now t <= now t' <= now t + TIMEOUT_MS)%N.
Proof.
  cbv zeta. rewrite extract_run_at.
  destruct (key_set w); [|cbn [snd]; lia].
  rewrite call_model_run. cbv zeta.
  generalize (calls t ++ [chat_request "gpt-4o" (prompt syllabusText)]).
  intros issued.
  assert (Hsecond : forall t1 : trace,
    (now t <= now t1 <= now t + TIMEOUT_MS)%N ->
    (now t <=
     now (snd (let (c, t2) :=
                 call_model w "gpt-3.5-turbo" (prompt syllabusText)
                            (now t + TIMEOUT_MS)%N t1 in
               match c with
               | Normal fl => (finish fl, t2)
               | Throw _ => (Normal empty_result, t2)
               end))
     <= now t + TIMEOUT_MS)%N).
  { intros t1 Ht1. rewrite call_model_run. cbv zeta.
    destruct (create w (chat_request "gpt-3.5-turbo" _)) as [e|after s|];
      cbn [snd now]; try lia.
    destruct (N.ltb_spec (now t1 + after) (now t + TIMEOUT_MS));
      [destruct s|]; cbn [snd now]; lia. }
  destruct (create w (chat_request "gpt-4o" _)) as [e|after s|].
  - apply Hsecond. cbn [now]. lia.
  - destruct (N.ltb_spec (now t + after) (now t + TIMEOUT_MS)).
    + destruct s; [cbn [snd now]; lia|]. apply Hsecond. cbn [now]. lia.
    + apply Hsecond. cbn [now]. lia.
  - apply Hsecond. cbn [now]. lia.
Qed.

(** X9. When the primary call fails before the 45 s are over and the
    secondary model answers within what is left of them, the secondary
    response is the one that is read. *)
Theorem secondary_answer_used w syllabusText after response :
  let first := create w (primary syllabusText) in
  key_set w = true ->
  call_fails first TIMEOUT_MS ->
  create w (secondary syllabusText) = Settles after (Fulfilled response) ->
  (time_lost first TIMEOUT_MS + after < TIMEOUT_MS)%N ->
  extractAssignmentsFromSyllabus w syllabusText fresh
  = (finish (Continue response),
     {| now := time_lost first TIMEOUT_MS + after;
        calls := [primary syllabusText; secondary syllabusText] |}).
Proof.
  cbv zeta. intros Hkey Hfail Hcreate Hafter.
  rewrite extract_run_at, Hkey.
  change (now fresh + TIMEOUT_MS)%N with TIMEOUT_MS.
  destruct (call_model_fails w "gpt-4o" (prompt syllabusText) fresh
              TIMEOUT_MS Hfail) as (e1 & t1 & H1 & Hnow1).
  change (now fresh + TIMEOUT_MS)%N with TIMEOUT_MS in H1.
  pose proof (call_model_calls w "gpt-4o" (prompt syllabusText) TIMEOUT_MS
                fresh) as Hc1.
  rewrite H1 in Hc1 |- *. cbn [snd calls fresh app] in Hc1.
  cbn [now fresh] in Hnow1. rewrite N.add_0_l in Hnow1.
  fold (primary syllabusText) in Hnow1, Hc1.
  rewrite call_model_run. unfold secondary in Hcreate. rewrite Hcreate.
  cbv zeta. rewrite Hnow1, Hc1.
  apply N.ltb_lt in Hafter. now rewrite Hafter.
Qed.

Lemma secondary_answer_used_witness :
  let w := api_of (Settles 1000 (Rejected (Error (lit "overloaded"))))
                  (Settles 3000 (Fulfilled (reply quiz_output))) in
  extractAssignmentsFromSyllabus w quiz_text fresh
  = (finish (Continue (reply quiz_output)),
     {| now := 4000; calls := [primary quiz_text; secondary quiz_text] |}).
Proof.
  intros w.
  apply (secondary_answer_used w quiz_text 3000 (reply quiz_output));
    [reflexivity|exact I|reflexivity|vm_compute; reflexivity].
Defined.

(** X10. A result other than [{ items: [] }] comes from the text of the
    first choice: the response has [choices[0].message.content], the
    content is a string, and the result is what the normaliser makes of
    it. A response without choices, or with a content that is not a string
    ([null], a number, a list of parts), gives the empty result. *)
Theorem result_comes_from_first_choice response r :
  finish (Continue response) = Normal r ->
  r <> empty_result ->
  exists choices first message_ content,
    get response (lit "choices") = Normal choices /\
    get choices (lit "0") = Normal first /\
    get first (lit "message") = Normal message_ /\
    get message_ (lit "content") = Normal (VString content) /\
    normalize (VString content) = Normal r.
Proof.
  cbn [finish]. unfold read_response. intros Hr Hne.
  destruct (truthy response); cbn [negb] in Hr;
    [|cbn in Hr; congruence].
  destruct (get response (lit "choices")) as [choices|] eqn:Hchoices;
    [|cbn in Hr; congruence].
  cbn [bind] in Hr.
  destruct (truthy choices); cbn [negb] in Hr; [|cbn in Hr; congruence].
  destruct (get choices (lit "0")) as [first|] eqn:Hfirst;
    [|cbn in Hr; congruence].
  cbn [bind] in Hr.
  destruct (truthy first); cbn [negb] in Hr; [|cbn in Hr; congruence].
  destruct (get first (lit "message")) as [m|] eqn:Hm;
    [|cbn in Hr; congruence].
  cbn [bind] in Hr.
  destruct (get m (lit "content")) as [content|] eqn:Hcontent;
    [|cbn in Hr; congruence].
  cbn [bind] in Hr.
  destruct (get content (lit "length")) as [n|]; [|cbn in Hr; congruence].
  cbn [bind] in Hr.
  destruct (normalize content) as [r'|] eqn:Hn; [|cbn in Hr; congruence].
  cbn [try_catch] in Hr. inversion Hr; subst r'.
  pose proof (normalize_not_string _ _ Hn) as Hs.
  destruct content as [| | | |s| |]; try discriminate.
  exists choices, first, m, s. now repeat split.
Qed.

Lemma result_comes_from_first_choice_witness :
  exists choices first message_ content,
    get (reply quiz_output) (lit "choices") = Normal choices /\
    get choices (lit "0") = Normal first /\
    get first (lit "message") = Normal message_ /\
    get message_ (lit "content") = Normal (VString content) /\
    normalize (VString content)
    = Normal (VObject [(lit "items", VArray quiz_items)]).
Proof.
  apply (result_comes_from_first_choice (reply quiz_output)).
  - vm_compute. reflexivity.
  - vm_compute. discriminate.
Defined.

(** ** More on the normaliser *)

Lemma jstring_eqb_refl a : jstring_eqb a a = true.
Proof. induction a as [|x a IH]; cbn; [reflexivity|]. now rewrite N.eqb_refl. Qed.

Lemma jstring_eqb_eq a : forall b, jstring_eqb a b = true -> a = b.
Proof.
  induction a as [|x a IH]; intros [|y b] Hab; cbn in Hab;
    try discriminate; [reflexivity|].
  apply andb_true_iff in Hab. destruct Hab as [Hxy Hab].
  apply N.eqb_eq in Hxy. subst y. now rewrite (IH _ Hab).
Qed.

Lemma structure_logic_shape parsed r :
  structure_logic parsed = Normal r ->
  (exists a, r = wrap_items (VArray a)) \/ (r = parsed /\ has_items parsed).
Proof.
  unfold structure_logic.
  destruct (get parsed (lit "items")) as [items|] eqn:Hitems; [|discriminate].
  cbn [bind]. destruct (truthy items) eqn:Ht.
  - intros Heq. inversion Heq; subst. right. split; [reflexivity|].
    now exists items.
  - intros Heq. left. destruct (Array_isArray parsed) eqn:Ha.
    + inversion Heq; subst. destruct parsed; try discriminate.
      now exists elems.
    + destruct (Object_keys parsed) as [keys|]; [|discriminate].
      cbn [bind] in Heq.
      destruct (find (looks_like_assignments parsed) keys) as [[key|]|] eqn:Hf;
        [| |discriminate]; cbn [bind] in Heq.
      * destruct (truthy (VString key)).
        -- apply find_some in Hf.
           destruct (looks_like_assignments_array _ _ Hf) as [elems He].
           rewrite He in Heq. cbn [bind] in Heq. inversion Heq; subst.
           now exists elems.
        -- inversion Heq; subst. now exists [].
      * inversion Heq; subst. now exists [].
Qed.

Lemma normalize_parse_content content r :
  normalize content = Normal r -> parse_content content = Normal r.
Proof.
  unfold normalize.
  destruct (parse_content content) as [a|]; [|discriminate]. cbn [bind].
  destruct (get a (lit "items")) as [items|]; [|discriminate]. cbn [bind].
  destruct (if truthy items then get items (lit "length")
            else Normal VUndefined); [|discriminate]. cbn [bind].
  destruct (get items (lit "length")) as [count|]; [|discriminate].
  cbn [bind]. destruct (interpolate count); [|discriminate]. cbn [bind].
  congruence.
Qed.

(** X11. What the normaliser returns is either [{ items: a }] with an array
    [a], built by the code, or the very object that the model wrote, as the
    whole text or inside the fenced block, and then that object has a
    truthy [items]. An [items] that is not an array can only be the
    model's own. *)
Theorem normalizer_result_shape text r :
  normalize (VString text) = Normal r ->
  (exists a, r = wrap_items (VArray a)) \/
  (has_items r /\
   (JSON_parse text = Normal r \/
    exists block, jsonMatch text = Some block /\ JSON_parse block = Normal r)).
Proof.
  intros Hn. apply normalize_parse_content in Hn. revert Hn.
  unfold parse_content. cbn [string_method bind].
  assert (Hblock : from_code_block (VString text) = Normal r ->
    (exists a, r = wrap_items (VArray a)) \/
    (has_items r /\
     (JSON_parse text = Normal r \/
      exists block, jsonMatch text = Some block /\
                    JSON_parse block = Normal r))).
  { unfold from_code_block. cbn [string_method bind].
    destruct (jsonMatch text) as [group|];
      [|intros Heq; inversion Heq; left; now exists []].
    destruct (truthy (VString group));
      [|intros Heq; inversion Heq; left; now exists []].
    destruct (JSON_parse group) as [parsedJson|] eqn:Hg;
      [|intros Heq; inversion Heq; left; now exists []].
    cbn [bind].
    destruct (structure_logic parsedJson) as [r'|] eqn:Hs;
      [|intros Heq; inversion Heq; left; now exists []].
    cbn [try_catch]. intros Heq. inversion Heq; subst r'.
    destruct (structure_logic_shape _ _ Hs) as [Ha|[-> Hi]]; [now left|].
    right. split; [exact Hi|]. right. now exists group. }
  destruct (JSON_parse text) as [parsedContent|] eqn:Hp; [|exact Hblock].
  cbn [bind].
  destruct (structure_logic parsedContent) as [r'|] eqn:Hs; [|exact Hblock].
  cbn [try_catch]. intros Heq. inversion Heq; subst r'.
  destruct (structure_logic_shape _ _ Hs) as [Ha|[-> Hi]]; [now left|].
  right. split; [exact Hi|]. now left.
Qed.

Lemma normalizer_result_shape_witness :
  (exists a, VObject [(lit "items", VArray quiz_items)]
             = wrap_items (VArray a)) \/
  (has_items (VObject [(lit "items", VArray quiz_items)]) /\
   (JSON_parse quiz_output = Normal (VObject [(lit "items", VArray quiz_items)])
    \/ exists block,
         jsonMatch quiz_output = Some block /\
         JSON_parse block
         = Normal (VObject [(lit "items", VArray quiz_items)]))).
Proof.
  apply (normalizer_result_shape quiz_output). vm_compute. reflexivity.
Defined.

(** *** The scan of the fields *)

Lemma find_first pred l1 k l2 :
  (forall k', In k' l1 -> pred k' = Normal false) ->
  pred k = Normal true ->
  find pred (l1 ++ k :: l2) = Normal (Some k).
Proof.
  intros Hl1 Hk. induction l1 as [|k1 l1 IH]; cbn [app find].
  - now rewrite Hk.
  - rewrite (Hl1 k1 (or_introl eq_refl)). apply IH.
    intros k' Hin. apply Hl1. now right.
Qed.

Lemma lookup_app_in k before rest :
  In k (map fst before) ->
  exists v, lookup k (before ++ rest) = Some v /\ In v (map snd before).
Proof.
  induction before as [|[k0 v0] before IH]; cbn [map fst snd app lookup In];
    [contradiction|].
  intros Hin. destruct (jstring_eqb k k0) eqn:Hk.
  - exists v0. split; [reflexivity|now left].
  - destruct Hin as [->|Hin]; [now rewrite jstring_eqb_refl in Hk|].
    destruct (IH Hin) as (v & Hv & Hvin). exists v. split; [exact Hv|now right].
Qed.

Lemma lookup_app_none k before rest :
  lookup k before = None -> lookup k (before ++ rest) = lookup k rest.
Proof.
  induction before as [|[k0 v0] before IH]; cbn [app lookup]; [reflexivity|].
  destruct (jstring_eqb k k0); [discriminate|exact IH].
Qed.

Lemma named_keys_all props :
  forallb (fun kv => named (fst kv)) props = true ->
  index_keys props = [] /\ named_keys props = map fst props.
Proof.
  induction props as [|[k v] props IH]; cbn [forallb index_keys named_keys map fst];
    [now split|].
  unfold named at 1. intros Hall. apply andb_true_iff in Hall.
  destruct Hall as [Hk Hall]. cbn [fst] in Hk.
  destruct (array_index k); [discriminate|].
  destruct (IH Hall) as [Hi Hn]. now rewrite Hi, Hn.
Qed.

(** X12. The scan of the fields. In an object whose keys are names (none
    is an array index) and that has no truthy [items], let a field hold an
    array whose first element has a truthy [title], under a key that is
    not empty, and let no field before it hold a non-empty array: then the
    result is the object [{ items: a }], whose one property [items] holds
    the array [a] of that field unchanged, whatever the fields after it
    hold. *)
Theorem field_scan_finds_records before key first rest after title :
  let props := before ++ (key, VArray (first :: rest)) :: after in
  forallb (fun kv => named (fst kv)) props = true ->
  truthy (or_undefined (lookup (lit "items") props)) = false ->
  forallb (fun kv => no_records (snd kv)) before = true ->
  lookup key before = None ->
  key <> [] ->
  get first (lit "title") = Normal title ->
  truthy title = true ->
  structure_logic (VObject props)
  = Normal (VObject [(lit "items", VArray (first :: rest))]).
Proof.
  cbv zeta. intros Hnamed Hitems Hbefore Hkey Hne Htitle Htruthy.
  set (props := before ++ (key, VArray (first :: rest)) :: after) in *.
  assert (Hfield : lookup key props = Some (VArray (first :: rest))).
  { unfold props. rewrite (lookup_app_none _ _ _ Hkey). cbn [lookup].
    now rewrite jstring_eqb_refl. }
  unfold structure_logic. cbn [get bind Array_isArray]. rewrite Hitems.
  cbn [Object_keys bind].
  destruct (named_keys_all _ Hnamed) as [Hi Hn]. rewrite Hi, Hn.
  replace (map index_key [] ++ map fst props)
    with (map fst before ++ key :: map fst after)
    by (unfold props; rewrite map_app; reflexivity).
  rewrite find_first.
  - cbn [bind]. destruct key as [|c key']; [congruence|]. cbn [truthy].
    now rewrite Hfield.
  - intros k' Hin. unfold looks_like_assignments. cbn [get bind].
    destruct (lookup_app_in k' before ((key, VArray (first :: rest)) :: after)
                Hin) as (v & Hv & Hvin).
    fold props in Hv. rewrite Hv. cbn [or_undefined].
    rewrite forallb_forall in Hbefore.
    apply in_map_iff in Hvin. destruct Hvin as ([k0 v0] & <- & Hkv).
    specialize (Hbefore _ Hkv). cbn [snd] in *.
    destruct v0 as [| | | | |[|x l]|]; try reflexivity. discriminate.
  - unfold looks_like_assignments. cbn [get bind]. rewrite Hfield.
    cbn [or_undefined]. rewrite Htitle. cbn [bind]. now rewrite Htruthy.
Qed.

Lemma field_scan_finds_records_witness :
  structure_logic
    (VObject ([(lit "course", VString (lit "CS 101"));
               (lit "weeks", VArray [])]
              ++ (lit "assignments", VArray (quiz_items ++ [VNull]))
              :: [(lit "notes", VArray [VNull])]))
  = Normal (VObject [(lit "items", VArray (quiz_items ++ [VNull]))]).
Proof.
  apply (field_scan_finds_records
           [(lit "course", VString (lit "CS 101")); (lit "weeks", VArray [])]
           (lit "assignments") _ [VNull] [(lit "notes", VArray [VNull])]
           (VString (lit "Quiz 2")));
    try reflexivity.
  discriminate.
Defined.

(** *** Fenced blocks inside other text *)

Lemma search_skip_prose opening close pre s :
  no_backtick pre = true ->
  search (96%N :: opening) close (pre ++ s)
  = search (96%N :: opening) close s.
Proof.
  induction pre as [|c pre IH]; cbn [app no_backtick forallb];
    [reflexivity|].
  intros Hpre. apply andb_true_iff in Hpre. destruct Hpre as [Hc Hpre].
  rewrite search_skip; [now apply IH|].
  unfold is_prefix. cbn [strip_prefix].
  apply negb_true_iff in Hc. rewrite N.eqb_sym in Hc. now rewrite Hc.
Qed.

(** Where an element of the right-hand side falls when two concatenations
    are equal. *)
Lemma app_eq_in {A} (x : list A) : forall y u c v,
  x ++ y = u ++ c :: v -> length x <= length u -> In c y.
Proof.
  induction x as [|a x IH]; intros y u c v Heq Hlen; cbn [app] in Heq.
  - subst y. apply in_or_app. right. now left.
  - destruct u as [|b u]; [cbn in Hlen; lia|].
    cbn [app] in Heq. injection Heq as _ Heq.
    apply (IH _ _ _ _ Heq). cbn in Hlen. lia.
Qed.

Lemma no_backtick_in post : no_backtick post = true -> ~ In 96%N post.
Proof.
  unfold no_backtick. rewrite forallb_forall. intros Hall Hin.
  specialize (Hall _ Hin). discriminate Hall.
Qed.

(** After the backticks of a closing literal and text without backticks,
    no closing literal follows. *)
Lemma no_later_close post :
  no_backtick post = true ->
  greedy_until fence_close (lit "```" ++ post) = None.
Proof.
  intros Hpost.
  destruct (greedy_until fence_close (lit "```" ++ post)) as [g|] eqn:Hg;
    [|reflexivity].
  apply greedy_until_sound in Hg. destruct Hg as [b Hb].
  exfalso. apply (no_backtick_in _ Hpost).
  change (lit "```" ++ post = g ++ [10; 96; 96]%N ++ 96%N :: b) in Hb.
  rewrite app_assoc in Hb.
  destruct g as [|g1 [|g2 [|g3 g]]]; try discriminate Hb.
  apply (app_eq_in (lit "```") post _ 96%N b Hb).
  rewrite length_app. cbn. lia.
Qed.

Lemma greedy_until_last close x rest :
  is_prefix close rest = true ->
  greedy_until close (tl rest) = None ->
  greedy_until close (x ++ rest) = Some x.
Proof.
  intros Hp Hlater. induction x as [|a x IH]; cbn [app].
  - destruct rest as [|c rest'].
    + cbn [greedy_until]. now rewrite Hp.
    + cbn [greedy_until tl] in *. now rewrite Hlater, Hp.
  - cbn [greedy_until]. now rewrite IH.
Qed.

Lemma greedy_until_block p post :
  no_backtick post = true ->
  greedy_until fence_close (p ++ fence_close ++ post) = Some p.
Proof.
  intros Hpost. apply greedy_until_last.
  - unfold is_prefix. now rewrite strip_prefix_app.
  - exact (no_later_close post Hpost).
Qed.

(** Valid JSON followed by a closing literal and text without backticks
    holds no opening literal that a closing literal follows. *)
Lemma search_after_block p w post :
  scan QOut p = Some QOut -> no_quote w = true ->
  no_backtick post = true ->
  search (96%N :: w ++ [10%N]) fence_close (p ++ fence_close ++ post) = None.
Proof.
  intros Hp Hw Hpost.
  destruct (search _ fence_close (p ++ fence_close ++ post)) as [g|] eqn:Hs;
    [|reflexivity].
  exfalso. apply search_sound in Hs. destruct Hs as (a & b & Hab).
  remember (96%N :: w ++ [10%N]) as opening eqn:Hopening.
  (* the last backtick of the closing literal that follows the group *)
  assert (Hsplit : p ++ fence_close ++ post
                   = (a ++ opening ++ g ++ [10; 96; 96]%N) ++ 96%N :: b).
  { rewrite Hab. repeat rewrite <- app_assoc. reflexivity. }
  destruct (Nat.le_gt_cases (length (p ++ fence_close))
              (length (a ++ opening ++ g ++ [10; 96; 96]%N))) as [Hle|Hgt].
  - apply (no_backtick_in _ Hpost).
    rewrite app_assoc in Hsplit.
    exact (app_eq_in _ _ _ _ _ Hsplit Hle).
  - assert (Hlen : length (a ++ opening) <= length p).
    { repeat (rewrite ?length_app in Hgt; cbn [length] in Hgt).
      rewrite length_app. cbn [fence_close length] in *.
      change (length (lit "```")) with 3 in Hgt.
      unfold jstring, code_unit in *. lia. }
    rewrite (app_assoc a opening) in Hab.
    destruct (app_prefix _ _ _ _ Hab Hlen) as [z Hz].
    rewrite Hz in Hp. subst opening.
    rewrite <- app_assoc in Hp. cbn [app] in Hp.
    rewrite <- app_assoc in Hp. cbn [app] in Hp.
    now rewrite scan_backtick_line in Hp.
Qed.

Lemma jsonMatch_json_in_prose pre p post :
  no_backtick pre = true -> no_backtick post = true ->
  jsonMatch (pre ++ fence_json ++ p ++ fence_close ++ post) = Some p.
Proof.
  intros Hpre Hpost. unfold jsonMatch.
  change fence_json with (96%N :: lit "``json" ++ [10%N]).
  rewrite (search_skip_prose _ _ _ _ Hpre).
  rewrite search_unfold. unfold match_here.
  rewrite strip_prefix_app. now rewrite (greedy_until_block _ _ Hpost).
Qed.

Lemma jsonMatch_plain_in_prose pre p post v :
  JSON_parse p = Normal v ->
  no_backtick pre = true -> no_backtick post = true ->
  jsonMatch (pre ++ fence_plain ++ p ++ fence_close ++ post) = Some p.
Proof.
  intros Hp Hpre Hpost. apply JSON_parse_scan in Hp. unfold jsonMatch.
  assert (Hnone : search fence_json fence_close
                    (pre ++ fence_plain ++ p ++ fence_close ++ post) = None).
  { change fence_json with (96%N :: lit "``json" ++ [10%N]).
    rewrite (search_skip_prose _ _ _ _ Hpre).
    change (fence_plain ++ p ++ fence_close ++ post)
      with (96%N :: 96%N :: 96%N :: 10%N :: p ++ fence_close ++ post).
    do 4 (rewrite search_skip by reflexivity).
    exact (search_after_block p (lit "``json") post Hp eq_refl Hpost). }
  rewrite Hnone.
  change fence_plain with (96%N :: lit "``" ++ [10%N]).
  rewrite (search_skip_prose _ _ _ _ Hpre).
  rewrite search_unfold. unfold match_here.
  rewrite strip_prefix_app. now rewrite (greedy_until_block _ _ Hpost).
Qed.

Lemma parse_content_block text p v :
  jsonMatch text = Some p -> JSON_parse p = Normal v ->
  parse_content (VString text) = parse_content (VString p).
Proof.
  intros Hm Hp. rewrite (parse_content_valid _ _ Hp).
  unfold parse_content. cbn [string_method bind].
  destruct (JSON_parse text) as [x|] eqn:Ht.
  - rewrite (jsonMatch_valid _ _ Ht) in Hm. discriminate.
  - cbn [bind try_catch]. unfold from_code_block. cbn [string_method bind].
    rewrite Hm. destruct p as [|c p']; [discriminate Hp|].
    cbn [truthy]. now rewrite Hp.
Qed.

(** X13. A fenced block inside other text. When the output holds one
    fenced block (tagged [json] or not) with a JSON payload, and no
    backtick before or after the block, the text around the block is
    dropped: the output is normalised to the same result as the payload
    alone. *)
Theorem fenced_block_in_prose pre p post v :
  no_backtick pre = true -> no_backtick post = true ->
  JSON_parse p = Normal v ->
  normalize (VString (pre ++ fence_json ++ p ++ fence_close ++ post))
  = normalize (VString p) /\
  normalize (VString (pre ++ fence_plain ++ p ++ fence_close ++ post))
  = normalize (VString p).
Proof.
  intros Hpre Hpost Hp. unfold normalize. split.
  - now rewrite (parse_content_block _ p v
                   (jsonMatch_json_in_prose pre p post Hpre Hpost) Hp).
  - now rewrite (parse_content_block _ p v
                   (jsonMatch_plain_in_prose pre p post v Hp Hpre Hpost) Hp).
Qed.

Lemma fenced_block_in_prose_witness :
  let pre := lit "Here is the list:" ++ [LF] in
  let post := LF :: lit "Let me know if you need more." in
  normalize (VString (pre ++ fence_json ++ quiz_output ++ fence_close ++ post))
  = normalize (VString quiz_output) /\
  normalize (VString (pre ++ fence_plain ++ quiz_output ++ fence_close
                      ++ post))
  = normalize (VString quiz_output).
Proof.
  intros pre post.
  apply (fenced_block_in_prose pre quiz_output post
           (VObject [(lit "items", VArray quiz_items)]));
    vm_compute; reflexivity.
Defined.

(** X14. The capture group is greedy. When a fenced block with a JSON
    payload is followed by more text that ends in another closing fence (a
    second block, say), the group runs to the last fence, is not JSON, and
    the result is [{ items: [] }]: the payload of the first block is
    lost. *)
Theorem second_fence_loses_first_block p v rest :
  JSON_parse p = Normal v ->
  normalize (VString (fence_json ++ p ++ fence_close ++ rest ++ fence_close))
  = Normal empty_result.
Proof.
  intros Hp.
  assert (Hm : jsonMatch (fence_json ++ p ++ fence_close ++ rest ++ fence_close)
               = Some (p ++ fence_close ++ rest)).
  { rewrite <- (jsonMatch_json_fence (p ++ fence_close ++ rest)).
    now repeat rewrite <- app_assoc. }
  assert (Hgroup : forall x, JSON_parse (p ++ fence_close ++ rest) <> Normal x).
  { intros x Hx. apply JSON_parse_scan in Hx. apply JSON_parse_scan in Hp.
    rewrite scan_app, Hp in Hx. discriminate Hx. }
  unfold normalize, parse_content. cbn [string_method bind].
  change (fence_json ++ p ++ fence_close ++ rest ++ fence_close)
    with (96%N :: (lit "``json" ++ [LF]) ++ p ++ fence_close ++ rest
                  ++ fence_close) at 1.
  rewrite JSON_parse_backtick. cbn [bind try_catch].
  unfold from_code_block. cbn [string_method bind]. rewrite Hm.
  destruct (p ++ fence_close ++ rest) as [|c g] eqn:Hg.
  - reflexivity.
  - cbn [truthy]. destruct (JSON_parse (c :: g)) as [x|e] eqn:Hx.
    + now destruct (Hgroup x).
    + reflexivity.
Qed.

Lemma second_fence_loses_first_block_witness :
  normalize (VString (fence_json ++ quiz_output ++ fence_close
                      ++ (LF :: lit "and" ++ [LF] ++ fence_json
                             ++ quiz_array)
                      ++ fence_close))
  = Normal empty_result.
Proof.
  apply (second_fence_loses_first_block quiz_output
           (VObject [(lit "items", VArray quiz_items)])).
  vm_compute. reflexivity.
Defined.

(** ** More on the prompt *)

(** X15. The prompt is at most 16,986 code units long, whatever the length
    of the document: the 1,950 of the instructions, at most 15,000 of the
    text and the 36 of the marker. *)
Theorem prompt_length_bounded text :
  (N.of_nat (length (prompt text)) <= 16986)%N.
Proof.
  unfold prompt, truncatedText. rewrite length_app.
  change (length instructions) with 1950.
  destruct (N.ltb_spec MAX_LENGTH (N.of_nat (length text))) as [Hlong|Hshort].
  - unfold substring0. rewrite length_app, length_firstn.
    change (length truncation_marker) with 36. unfold MAX_LENGTH in *. lia.
  - unfold MAX_LENGTH in *. lia.
Qed.

Lemma prompt_of_excerpt a b :
  (MAX_LENGTH < N.of_nat (length a))%N ->
  (MAX_LENGTH < N.of_nat (length b))%N ->
  substring0 a MAX_LENGTH = substring0 b MAX_LENGTH ->
  prompt a = prompt b.
Proof.
  intros Ha Hb Hab. unfold prompt, truncatedText.
  apply N.ltb_lt in Ha, Hb. now rewrite Ha, Hb, Hab.
Qed.

(** X16. What follows the first 15,000 code units of a document has no
    effect: two documents longer than that which agree on their first
    15,000 code units lead to the same model calls and the same result,
    and the route answers both in the same way. *)
Theorem text_beyond_cap_is_ignored a b w t e :
  (MAX_LENGTH < N.of_nat (length a))%N ->
  (MAX_LENGTH < N.of_nat (length b))%N ->
  substring0 a MAX_LENGTH = substring0 b MAX_LENGTH ->
  extractAssignmentsFromSyllabus w a t = extractAssignmentsFromSyllabus w b t
  /\ post_parse_assignments e (request_body a)
     = post_parse_assignments e (request_body b).
Proof.
  intros Ha Hb Hab.
  assert (Hrun : forall w' t', extractAssignmentsFromSyllabus w' a t'
                               = extractAssignmentsFromSyllabus w' b t').
  { intros w' t'. unfold extractAssignmentsFromSyllabus, extract_try.
    now rewrite (prompt_of_excerpt a b Ha Hb Hab). }
  split; [apply Hrun|].
  unfold post_parse_assignments, request_body. cbn [get lookup].
  change (jstring_eqb (lit "text") (lit "text")) with true.
  cbn [or_undefined].
  destruct a as [|ca a']; [cbn in Ha; unfold MAX_LENGTH in Ha; lia|].
  destruct b as [|cb b']; [cbn in Hb; unfold MAX_LENGTH in Hb; lia|].
  now rewrite Hrun.
Qed.

Lemma text_beyond_cap_is_ignored_witness :
  let a := long_text ++ lit "Essay due May 1" in
  let b := long_text ++ lit "No essay" in
  let e := env_of decimal (Settles 2000 (Fulfilled (reply quiz_output)))
                  Hangs in
  extractAssignmentsFromSyllabus (api e) a fresh
  = extractAssignmentsFromSyllabus (api e) b fresh
  /\ post_parse_assignments e (request_body a)
     = post_parse_assignments e (request_body b).
Proof.
  intros a b e.
  apply (text_beyond_cap_is_ignored a b (api e) fresh e);
    vm_compute; reflexivity.
Defined.

(** ** More on the routes *)

(** The lemmas of the first part at sample inputs. *)


Lemma late_completion_gives_202_witness :
  let e := env_of decimal (Settles 12000 (Fulfilled (reply quiz_output)))
                  Hangs in
  post_parse_assignments e (request_body quiz_text)
  = [{| status := 202; body := processing_body e |}].
Proof.
  intros e.
  eapply (late_completion_gives_202 e 81%N
            (lit "uiz 2 due Feb 15, covers ch 4-6")).
  - vm_compute. reflexivity.
  - vm_compute. discriminate.
Defined.

Lemma early_completion_response_witness :
  let e := env_of decimal (Settles 2000 (Fulfilled (reply quiz_output)))
                  Hangs in
  let v := VObject [(lit "items", VArray quiz_items)] in
  exists items count,
    get v (lit "items") = Normal items /\
    get items (lit "length") = Normal count /\
    ((strictly_zero count = true /\
      post_parse_assignments e (request_body quiz_text)
      = [{| status := 500; body := failure_body const_assignment |}]) \/
     (strictly_zero count = false /\
      exists positive_count,
        gt_zero (conv e) count = Normal positive_count /\
        post_parse_assignments e (request_body quiz_text)
        = [{| status := 200; body := success_body positive_count v |}])).
Proof.
  intros e v.
  eapply (early_completion_response e 81%N
            (lit "uiz 2 due Feb 15, covers ch 4-6") v).
  - vm_compute. reflexivity.
  - vm_compute. reflexivity.
Defined.

(** *** The lines before the [try] statement *)

Lemma route_after_log e query_t date_now req_body :
  stringifies (requestId query_t date_now) = true ->
  parse_assignments_route e query_t date_now req_body
  = post_parse_assignments e req_body.
Proof.
  intros Hid. unfold parse_assignments_route, interpolate.
  now rewrite Hid.
Qed.

Lemma route_stopped_at_log e query_t date_now req_body :
  stringifies (requestId query_t date_now) = false ->
  parse_assignments_route e query_t date_now req_body = [].
Proof.
  intros Hid. unfold parse_assignments_route, interpolate.
  now rewrite Hid.
Qed.

(** Without a parameter [t], or with an empty one, the request identifier
    is the clock, which prints. *)
Lemma requestId_of_clock query_t date_now :
  truthy query_t = false ->
  stringifies (requestId query_t date_now) = true.
Proof. intros Ht. unfold requestId. now rewrite Ht. Qed.

(** X2. A request that reaches the handler gets one response at most,
    whatever its query parameter [t] and its body. It gets exactly one when
    the request identifier prints, which it does unless [t] is an object
    with a property [toString] of its own, or an array that holds such an
    object; and it gets none when the identifier does not print: the
    handler throws at line 171, before its [try] statement. *)
Theorem request_gets_at_most_one_response e query_t date_now req_body :
  let written := parse_assignments_route e query_t date_now req_body in
  (stringifies (requestId query_t date_now) = true ->
   exists r, written = [r]) /\
  (stringifies (requestId query_t date_now) = false -> written = []) /\
  length written <= 1.
Proof.
  cbv zeta.
  destruct (stringifies (requestId query_t date_now)) eqn:Hid.
  - rewrite (route_after_log e _ _ req_body Hid).
    destruct (response_written_exactly_once e req_body) as [r Hr].
    rewrite Hr. repeat split; [eauto|discriminate|cbn; lia].
  - rewrite (route_stopped_at_log e _ _ req_body Hid).
    repeat split; [discriminate|cbn; lia].
Qed.

Lemma request_gets_at_most_one_response_witness :
  let e := env_of decimal (Settles 2000 (Fulfilled (reply quiz_output)))
                  Hangs in
  (exists r,
     parse_assignments_route e (VString (lit "1736899200000")) 0
       (request_body quiz_text) = [r]) /\
  parse_assignments_route e
    (VObject [(lit "toString", VString (lit "1"))]) 0
    (request_body quiz_text) = [].
Proof.
  intros e. split.
  - apply (proj1 (request_gets_at_most_one_response
                    e (VString (lit "1736899200000")) 0
                    (request_body quiz_text))).
    reflexivity.
  - apply (proj1 (proj2 (request_gets_at_most_one_response
                           e (VObject [(lit "toString", VString (lit "1"))])
                           0 (request_body quiz_text)))).
    reflexivity.
Defined.

(** X17. For a request that reaches the handler and whose identifier
    prints, the text of the body decides between the 400 and the extraction: the request is answered
    with the 400 [Valid syllabus text is required] exactly when [text] is
    not a non-empty string; for a non-empty string the one response is a
    200, a 202 or a 500. *)
Theorem text_rejected_iff_not_a_string e query_t date_now req_body text :
  stringifies (requestId query_t date_now) = true ->
  get req_body (lit "text") = Normal text ->
  (parse_assignments_route e query_t date_now req_body
   = [{| status := 400;
         body := error_body
                   (VString (lit "Valid syllabus text is required")) |}]
   <-> forall c s, text <> VString (c :: s)) /\
  ((exists c s, text = VString (c :: s)) ->
   exists code b,
     parse_assignments_route e query_t date_now req_body
     = [{| status := code; body := b |}] /\
     (code = 200 \/ code = 202 \/ code = 500)%N).
Proof.
  intros Hid Htext. rewrite (route_after_log e _ _ req_body Hid).
  assert (Hmodel : forall c s, text = VString (c :: s) ->
    exists code b,
      post_parse_assignments e req_body = [{| status := code; body := b |}] /\
      (code = 200 \/ code = 202 \/ code = 500)%N).
  { intros c s ->. unfold post_parse_assignments. rewrite Htext.
    destruct (Service.extractAssignmentsFromSyllabus _ _ _) as [outcome t].
    destruct (now t <? EARLY_ACK_MS)%N.
    - destruct (extraction_first e outcome) as (code & b & Hb & Hcode).
      exists code, b. split; [exact Hb|]. tauto.
    - fold started. rewrite timer_first. do 2 eexists.
      split; [reflexivity|]. tauto. }
  split; [split|].
  - intros H400 c s ->.
    destruct (Hmodel c s eq_refl) as (code & b & Hb & Hcode).
    rewrite Hb in H400. inversion H400; subst code.
    destruct Hcode as [Hc|[Hc|Hc]]; discriminate Hc.
  - intros Hnot. unfold post_parse_assignments. rewrite Htext.
    destruct text as [| |x|x|[|c s]|x|x]; try reflexivity.
    now destruct (Hnot c s).
  - intros (c & s & ->). exact (Hmodel c s eq_refl).
Qed.

Lemma text_rejected_iff_not_a_string_witness :
  let e := env_of decimal Hangs Hangs in
  (parse_assignments_route e VUndefined 1736899200000 (request_body [])
   = [{| status := 400;
         body := error_body
                   (VString (lit "Valid syllabus text is required")) |}]
   <-> forall c s, VString [] <> VString (c :: s)) /\
  ((exists c s, VString [] = VString (c :: s)) ->
   exists code b,
     parse_assignments_route e VUndefined 1736899200000 (request_body [])
     = [{| status := code; body := b |}] /\
     (code = 200 \/ code = 202 \/ code = 500)%N).
Proof.
  intros e.
  apply (text_rejected_iff_not_a_string e VUndefined 1736899200000
           (request_body []) (VString []));
    reflexivity.
Defined.

(** *** The upload route *)

Lemma accepted_upload d f :
  jstring_eqb (fieldname f) (lit "syllabus") = true ->
  jstring_eqb (mimetype f) PDF || jstring_eqb (mimetype f) DOCX = true ->
  (N.of_nat (length (buffer f)) < maxFileSize d)%N ->
  post_extract_text d (Some f) = extract_text_handler d (Some f).
Proof.
  intros Hfield Htype Hsize.
  unfold post_extract_text, upload_single, fileFilter.
  rewrite Hfield, Htype. apply N.leb_gt in Hsize. now rewrite Hsize.
Qed.

Lemma docx_is_not_pdf m :
  jstring_eqb m DOCX = true -> jstring_eqb m PDF = false.
Proof. intros Hm. apply jstring_eqb_eq in Hm. now subst m. Qed.

(** X18. A document that the library cannot read. For a file under the
    field [syllabus] that is shorter than the size limit: when [pdf-parse]
    fails on a PDF, or [mammoth] on a DOCX, the response is a 500 whose
    message is the fixed one of the extraction function: the error of the
    library is logged and does not reach the caller. *)
Theorem library_failure_gives_fixed_message d f e :
  jstring_eqb (fieldname f) (lit "syllabus") = true ->
  (N.of_nat (length (buffer f)) < maxFileSize d)%N ->
  (jstring_eqb (mimetype f) PDF = true ->
   pdfParse d (buffer f) = Throw e ->
   post_extract_text d (Some f)
   = {| status := 500;
        body := error_body
                  (VString (lit "Failed to extract text from PDF")) |}) /\
  (jstring_eqb (mimetype f) DOCX = true ->
   mammoth_extractRawText d (buffer f) = Throw e ->
   post_extract_text d (Some f)
   = {| status := 500;
        body := error_body
                  (VString (lit "Failed to extract text from DOCX")) |}).
Proof.
  intros Hfield Hsize. split; intros Htype Hfail.
  - rewrite accepted_upload; [|exact Hfield|now rewrite Htype|exact Hsize].
    unfold extract_text_handler, extractTextFromPdf.
    now rewrite Htype, Hfail.
  - rewrite accepted_upload;
      [|exact Hfield|rewrite Htype; apply orb_true_r|exact Hsize].
    unfold extract_text_handler, extractTextFromDocx.
    now rewrite (docx_is_not_pdf _ Htype), Htype, Hfail.
Qed.

Lemma library_failure_gives_fixed_message_witness :
  post_extract_text (library broken broken) (Some syllabus_pdf)
  = {| status := 500;
       body := error_body
                 (VString (lit "Failed to extract text from PDF")) |} /\
  post_extract_text (library broken broken) (Some syllabus_docx)
  = {| status := 500;
       body := error_body
                 (VString (lit "Failed to extract text from DOCX")) |}.
Proof.
  split.
  - apply (proj1 (library_failure_gives_fixed_message
                    (library broken broken) syllabus_pdf
                    (Error (lit "bad XRef entry"))
                    eq_refl ltac:(vm_compute; reflexivity)));
      reflexivity.
  - apply (proj2 (library_failure_gives_fixed_message
                    (library broken broken) syllabus_docx
                    (Error (lit "bad XRef entry"))
                    eq_refl ltac:(vm_compute; reflexivity)));
      reflexivity.
Defined.

(** X19. A document that the library reads. For a PDF or DOCX under the
    field [syllabus] that is shorter than the size limit and whose library
    returns a string (under [text] for [pdf-parse], under [value] for
    [mammoth]), the response is the 200 with that string unchanged, the
    name of the file and its content type. *)
Theorem extracted_text_is_returned d f data text :
  jstring_eqb (fieldname f) (lit "syllabus") = true ->
  (N.of_nat (length (buffer f)) < maxFileSize d)%N ->
  let ok := {| status := 200;
               body := VObject [
                 (lit "message", VString (lit "Text extraction successful"));
                 (lit "filename", VString (originalname f));
                 (lit "mimeType", VString (mimetype f));
                 (lit "text", VString text)] |} in
  (jstring_eqb (mimetype f) PDF = true ->
   pdfParse d (buffer f) = Normal data ->
   get data (lit "text") = Normal (VString text) ->
   post_extract_text d (Some f) = ok) /\
  (jstring_eqb (mimetype f) DOCX = true ->
   mammoth_extractRawText d (buffer f) = Normal data ->
   get data (lit "value") = Normal (VString text) ->
   post_extract_text d (Some f) = ok).
Proof.
  intros Hfield Hsize ok. split; intros Htype Hdata Htext.
  - rewrite accepted_upload; [|exact Hfield|now rewrite Htype|exact Hsize].
    unfold extract_text_handler, extractTextFromPdf.
    rewrite Htype, Hdata. cbn [bind try_catch]. rewrite Htext.
    reflexivity.
  - rewrite accepted_upload;
      [|exact Hfield|rewrite Htype; apply orb_true_r|exact Hsize].
    unfold extract_text_handler, extractTextFromDocx.
    rewrite (docx_is_not_pdf _ Htype), Htype, Hdata. cbn [bind try_catch].
    rewrite Htext. reflexivity.
Qed.

Lemma extracted_text_is_returned_witness :
  post_extract_text (library (pdf_data quiz_text) broken) (Some syllabus_pdf)
  = {| status := 200;
       body := VObject [
         (lit "message", VString (lit "Text extraction successful"));
         (lit "filename", VString (lit "syllabus.pdf"));
         (lit "mimeType", VString PDF);
         (lit "text", VString quiz_text)] |} /\
  post_extract_text (library broken (docx_result quiz_text))
    (Some syllabus_docx)
  = {| status := 200;
       body := VObject [
         (lit "message", VString (lit "Text extraction successful"));
         (lit "filename", VString (lit "syllabus.docx"));
         (lit "mimeType", VString DOCX);
         (lit "text", VString quiz_text)] |}.
Proof.
  split.
  - eapply (proj1 (extracted_text_is_returned
                     (library (pdf_data quiz_text) broken) syllabus_pdf
                     _ quiz_text eq_refl ltac:(vm_compute; reflexivity)));
      reflexivity.
  - eapply (proj2 (extracted_text_is_returned
                     (library broken (docx_result quiz_text)) syllabus_docx
                     _ quiz_text eq_refl ltac:(vm_compute; reflexivity)));
      reflexivity.
Defined.

(** The two refusals of the upload middleware that the filter does not
    make: a file of exactly the size limit, and a file under another
    field. *)
Example file_of_limit_size_is_refused :
  post_extract_text
    {| maxFileSize := 4; pdfParse := fun _ => pdf_data quiz_text;
       mammoth_extractRawText := fun _ => broken |}
    (Some syllabus_pdf)
  = {| status := 500; body := error_body (VString (lit "File too large")) |}.
Proof. vm_compute. reflexivity. Qed.

Example file_under_other_field_is_refused :
  post_extract_text (library (pdf_data quiz_text) broken)
    (Some {| fieldname := lit "file";
             originalname := lit "syllabus.pdf";
             mimetype := PDF;
             buffer := [37; 80; 68; 70]%N |})
  = {| status := 500;
       body := error_body (VString (lit "Unexpected field")) |}.
Proof. vm_compute. reflexivity. Qed.

(** X20. The route answers with a 400 exactly when the request has no file
    part. The handler's other 400, [Unsupported file type], is never
    sent: a file of another type does not pass the filter. *)
Theorem status_400_only_without_file d part :
  status (post_extract_text d part) = 400%N <-> part = None.
Proof.
  split; [|now intros ->].
  destruct part as [f|]; [|reflexivity]. intros Hstatus. exfalso.
  revert Hstatus.
  unfold post_extract_text, upload_single, fileFilter, error_middleware.
  destruct (jstring_eqb (fieldname f) (lit "syllabus")); cbn [negb];
    [|discriminate].
  destruct (jstring_eqb (mimetype f) PDF) eqn:Hpdf.
  - cbn [orb]. destruct (maxFileSize d <=? _)%N; [discriminate|].
    unfold extract_text_handler. rewrite Hpdf.
    destruct (extractTextFromPdf d (buffer f)) as [text|]; [|discriminate].
    cbn [bind]. destruct (get text (lit "length")) as [count|];
      [|discriminate].
    cbn [bind]. now destruct (interpolate count).
  - cbn [orb]. destruct (jstring_eqb (mimetype f) DOCX) eqn:Hdocx;
      [|discriminate].
    destruct (maxFileSize d <=? _)%N; [discriminate|].
    unfold extract_text_handler. rewrite Hpdf, Hdocx.
    destruct (extractTextFromDocx d (buffer f)) as [text|]; [|discriminate].
    cbn [bind]. destruct (get text (lit "length")) as [count|];
      [|discriminate].
    cbn [bind]. now destruct (interpolate count).
Qed.

(** ** The cross-origin policy *)

Lemma split_at_app sep a s :
  split_at sep (a ++ sep :: s)
  = (fst (split_at sep a),
     snd (split_at sep a) ++ fst (split_at sep s) :: snd (split_at sep s)).
Proof.
  induction a as [|c a IH]; cbn [app split_at].
  - rewrite N.eqb_refl. now destruct (split_at sep s).
  - rewrite IH. destruct (split_at sep a) as [piece pieces]. cbn [fst snd].
    now destruct (c =? sep)%N.
Qed.

(** Splitting at a separator splits the list of pieces. *)
Lemma split_app sep a s :
  split sep (a ++ sep :: s) = split sep a ++ split sep s.
Proof.
  unfold split. rewrite split_at_app.
  destruct (split_at sep a) as [piece pieces].
  now destruct (split_at sep s).
Qed.

Lemma split_at_none sep x :
  forallb (fun c => negb (c =? sep)%N) x = true -> split_at sep x = (x, []).
Proof.
  induction x as [|c x IH]; cbn [forallb split_at]; [reflexivity|].
  intros Hx. apply andb_true_iff in Hx. destruct Hx as [Hc Hx].
  rewrite (IH Hx). apply negb_true_iff in Hc. now rewrite Hc.
Qed.

Lemma split_none sep x :
  forallb (fun c => negb (c =? sep)%N) x = true -> split sep x = [x].
Proof. intros Hx. unfold split. now rewrite (split_at_none _ _ Hx). Qed.

Lemma starts_entry_cases before :
  starts_entry before = true ->
  before = [] \/ exists a, before = a ++ [comma].
Proof.
  unfold starts_entry. destruct (rev before) as [|c r] eqn:Hrev.
  - intros _. left. apply (f_equal (@rev _)) in Hrev.
    now rewrite rev_involutive in Hrev.
  - intros Hc. apply N.eqb_eq in Hc. subst c. right. exists (rev r).
    apply (f_equal (@rev _)) in Hrev. now rewrite rev_involutive in Hrev.
Qed.

Lemma ends_entry_cases after :
  ends_entry after = true -> after = [] \/ exists b, after = comma :: b.
Proof.
  unfold ends_entry. destruct after as [|c b]; [now left|].
  intros Hc. apply N.eqb_eq in Hc. subst c. right. now exists b.
Qed.

(** A stretch without a comma, between two commas or the ends of the text,
    is one of the pieces. *)
Lemma split_piece before x after :
  starts_entry before = true -> ends_entry after = true ->
  forallb (fun c => negb (c =? comma)%N) x = true ->
  In x (split comma (before ++ x ++ after)).
Proof.
  intros Hbefore Hafter Hx.
  assert (Htail : In x (split comma (x ++ after))).
  { destruct (ends_entry_cases _ Hafter) as [->|[b ->]].
    - rewrite app_nil_r, (split_none _ _ Hx). now left.
    - rewrite split_app, (split_none _ _ Hx). now left. }
  destruct (starts_entry_cases _ Hbefore) as [->|[a ->]]; [exact Htail|].
  rewrite <- app_assoc. cbn [app]. rewrite split_app.
  apply in_or_app. now right.
Qed.

Lemma trim_start_app ws s :
  forallb is_white_space ws = true -> trim_start (ws ++ s) = trim_start s.
Proof.
  induction ws as [|c ws IH]; cbn [app forallb trim_start]; [reflexivity|].
  intros Hws. apply andb_true_iff in Hws. destruct Hws as [Hc Hws].
  rewrite Hc. exact (IH Hws).
Qed.

Lemma forallb_rev {A} (f : A -> bool) l :
  forallb f (rev l) = forallb f l.
Proof.
  induction l as [|a l IH]; [reflexivity|].
  cbn [rev forallb]. rewrite forallb_app, IH. cbn [forallb].
  rewrite andb_true_r. apply andb_comm.
Qed.

(** Trimming removes the white space around an entry and nothing else. *)
Lemma trim_entry ws1 o ws2 :
  forallb is_white_space ws1 = true -> forallb is_white_space ws2 = true ->
  entry o = true -> trim (ws1 ++ o ++ ws2) = o.
Proof.
  intros H1 H2 Ho. unfold entry in Ho.
  destruct o as [|c o']; [discriminate|].
  destruct (rev (c :: o')) as [|d r] eqn:Hrev; [discriminate|].
  apply andb_true_iff in Ho. destruct Ho as [Ho _].
  apply andb_true_iff in Ho. destruct Ho as [Hc Hd].
  apply negb_true_iff in Hc, Hd.
  unfold trim, trim_end. rewrite (trim_start_app _ _ H1).
  cbn [app trim_start]. rewrite Hc.
  change (c :: o' ++ ws2) with ((c :: o') ++ ws2).
  rewrite rev_app_distr, trim_start_app by now rewrite forallb_rev.
  rewrite Hrev. cbn [trim_start]. rewrite Hd.
  rewrite <- Hrev. apply rev_involutive.
Qed.

Lemma listed_in o origins : In o origins -> listed o origins = true.
Proof.
  intros Hin. unfold listed. apply existsb_exists. exists o.
  split; [exact Hin|apply jstring_eqb_refl].
Qed.

Lemma listed_sound o origins : listed o origins = true -> In o origins.
Proof.
  unfold listed. intros Hl. apply existsb_exists in Hl.
  destruct Hl as (x & Hin & Heq). apply jstring_eqb_eq in Heq. now subst x.
Qed.

Lemma white_space_no_comma ws :
  forallb is_white_space ws = true ->
  forallb (fun c => negb (c =? comma)%N) ws = true.
Proof.
  intros Hws. apply forallb_forall. intros c Hin.
  rewrite forallb_forall in Hws. specialize (Hws c Hin).
  destruct (N.eqb_spec c comma) as [->|]; [discriminate Hws|reflexivity].
Qed.

Lemma entry_no_comma o :
  entry o = true -> forallb (fun c => negb (c =? comma)%N) o = true.
Proof.
  unfold entry. destruct o as [|c o']; [discriminate|].
  destruct (rev (c :: o')); [discriminate|].
  intros Ho. apply andb_true_iff in Ho. apply Ho.
Qed.

(** X21. The four development origins are allowed under every
    configuration, in production too; a request without an [Origin]
    header is always allowed. *)
Theorem development_origins_always_allowed env o :
  In o local_origins ->
  origin_callback env (Some o) = Normal true /\
  origin_callback env None = Normal true.
Proof.
  intros Hin. split; [|reflexivity].
  assert (Hlisted : listed o (allowedOrigins env) = true).
  { apply listed_in. unfold allowedOrigins. apply in_or_app. now left. }
  unfold origin_callback. rewrite Hlisted. now destruct o.
Qed.

Lemma development_origins_always_allowed_witness :
  let env := {| CORS_ORIGIN := None; NODE_ENV := Some (lit "production") |} in
  origin_callback env (Some (lit "http://127.0.0.1:3000")) = Normal true /\
  origin_callback env None = Normal true.
Proof.
  intros env. apply development_origins_always_allowed.
  right. right. left. reflexivity.
Defined.

(** X22. Every entry of the comma-separated [CORS_ORIGIN] is allowed,
    and the white space around an entry does not count: an origin that
    stands in the variable between two commas (or the ends of the value),
    with or without white space around it, is allowed. *)
Theorem configured_origin_is_allowed env before ws1 o ws2 after :
  CORS_ORIGIN env = Some (before ++ ws1 ++ o ++ ws2 ++ after) ->
  starts_entry before = true -> ends_entry after = true ->
  forallb is_white_space ws1 = true -> forallb is_white_space ws2 = true ->
  entry o = true ->
  origin_callback env (Some o) = Normal true.
Proof.
  intros Henv Hbefore Hafter H1 H2 Ho.
  assert (Hpiece : In (ws1 ++ o ++ ws2)
                      (split comma (before ++ (ws1 ++ o ++ ws2) ++ after))).
  { apply split_piece; [exact Hbefore|exact Hafter|].
    rewrite !forallb_app.
    apply andb_true_iff. split; [now apply white_space_no_comma|].
    apply andb_true_iff.
    split; [now apply entry_no_comma|now apply white_space_no_comma]. }
  repeat rewrite <- app_assoc in Hpiece.
  assert (Hlisted : listed o (allowedOrigins env) = true).
  { apply listed_in. unfold allowedOrigins. rewrite Henv.
    apply in_or_app. right. apply in_or_app. left.
    destruct (before ++ ws1 ++ o ++ ws2 ++ after) as [|c s] eqn:Hvalue.
    - destruct o; [discriminate Ho|].
      apply (f_equal (@length _)) in Hvalue.
      repeat (rewrite length_app in Hvalue; cbn [length] in Hvalue). lia.
    - rewrite <- (trim_entry ws1 o ws2 H1 H2 Ho). now apply in_map. }
  unfold origin_callback. rewrite Hlisted. now destruct o.
Qed.

Lemma configured_origin_is_allowed_witness :
  origin_callback
    {| CORS_ORIGIN := Some (lit "https://a.example.org, https://b.example.org ,https://c.example.org");
       NODE_ENV := None |}
    (Some (lit "https://b.example.org"))
  = Normal true.
Proof.
  apply (configured_origin_is_allowed _
           (lit "https://a.example.org,") (lit " ")
           (lit "https://b.example.org") (lit " ")
           (lit ",https://c.example.org"));
    reflexivity.
Defined.

(** X23. The default policy. Without [CORS_ORIGIN] and outside
    production, an origin is allowed exactly when it is one of the four
    development origins; every other origin is refused with an error that
    names it. *)
Theorem default_policy_allows_development_only env o :
  CORS_ORIGIN env = None ->
  NODE_ENV env <> Some (lit "production") ->
  o <> [] ->
  (origin_callback env (Some o) = Normal true <-> In o local_origins) /\
  (~ In o local_origins ->
   origin_callback env (Some o) = Throw (refusal_of o)).
Proof.
  intros Hcors Hmode Ho.
  assert (Hallowed : allowedOrigins env = local_origins).
  { unfold allowedOrigins. rewrite Hcors. cbn [app].
    destruct (NODE_ENV env) as [mode|]; [|apply app_nil_r].
    destruct (jstring_eqb mode (lit "production")) eqn:Heq;
      [|apply app_nil_r].
    apply jstring_eqb_eq in Heq. now subst mode. }
  destruct o as [|c o']; [congruence|].
  unfold origin_callback. rewrite Hallowed.
  destruct (listed (c :: o') local_origins) eqn:Hlisted.
  - apply listed_sound in Hlisted. split; [tauto|]. now intros Hnot.
  - split; [|reflexivity]. split; [discriminate|].
    intros Hin. apply listed_in in Hin. congruence.
Qed.

Lemma default_policy_allows_development_only_witness :
  let env := {| CORS_ORIGIN := None; NODE_ENV := Some (lit "development") |} in
  let o := lit "https://syllabug.vercel.app" in
  (origin_callback env (Some o) = Normal true <-> In o local_origins) /\
  (~ In o local_origins ->
   origin_callback env (Some o) = Throw (refusal_of o)).
Proof.
  intros env o. apply default_policy_allows_development_only.
  - reflexivity.
  - discriminate.
  - discriminate.
Defined.

(** ** The export to CSV *)

Lemma field_then_rest x rest :
  (quote :: x ++ [quote]) ++ lit "," ++ rest
  = quote :: x ++ quote :: 44%N :: rest.
Proof. cbn [app]. now rewrite <- app_assoc. Qed.

(** The row of a record, from its five texts. *)
Lemma row_of_texts cv a f :
  has_texts a f ->
  row cv a
  = Normal (quote :: double_quotes (title f) ++ quote :: 44%N ::
            quote :: double_quotes (type_ f) ++ quote :: 44%N ::
            quote :: due_date f ++ quote :: 44%N ::
            quote :: start_date f ++ quote :: 44%N ::
            quote :: double_quotes (description f) ++ [quote]).
Proof.
  intros ((v1 & H1 & E1) & (v2 & H2 & E2) & (v3 & H3 & E3) & (v4 & H4 & E4)
          & (v5 & H5 & E5)).
  unfold row, escaped, interpolated.
  rewrite H1, H2, H3, H4, H5. cbn [bind].
  rewrite E1, E2, E3, E4, E5. cbn [string_method to_string bind join].
  now rewrite !field_then_rest.
Qed.

(** An escaped text ends at the first quote that no quote follows. *)
Lemma double_quotes_prefix a : forall b x y,
  hd 0%N x <> quote -> hd 0%N y <> quote ->
  double_quotes a ++ quote :: x = double_quotes b ++ quote :: y ->
  a = b /\ x = y.
Proof.
  induction a as [|c a IH]; intros [|d b] x y Hx Hy Heq;
    cbn [double_quotes app] in Heq.
  - injection Heq as Heq. now split.
  - destruct (N.eqb_spec d quote) as [->|Hd]; cbn [app] in Heq.
    + injection Heq as Heq. subst x. now cbn in Hx.
    + injection Heq as Heq _. congruence.
  - destruct (N.eqb_spec c quote) as [->|Hc]; cbn [app] in Heq.
    + injection Heq as Heq. subst y. now cbn in Hy.
    + injection Heq as Heq _. congruence.
  - destruct (N.eqb_spec c quote) as [->|Hc];
      destruct (N.eqb_spec d quote) as [->|Hd]; cbn [app] in Heq.
    + injection Heq as Heq. destruct (IH _ _ _ Hx Hy Heq) as [-> ->].
      now split.
    + injection Heq as Heq _. congruence.
    + injection Heq as Heq _. congruence.
    + injection Heq as Hcd Heq. subst d.
      destruct (IH _ _ _ Hx Hy Heq) as [-> ->]. now split.
Qed.

(** A text without a quote ends at the first quote. *)
Lemma plain_prefix a : forall b x y,
  no_quote a = true -> no_quote b = true ->
  a ++ quote :: x = b ++ quote :: y -> a = b /\ x = y.
Proof.
  induction a as [|c a IH]; intros [|d b] x y Ha Hb Heq;
    cbn [app no_quote forallb] in *.
  - injection Heq as Heq. now split.
  - injection Heq as Hd _. subst d. now rewrite N.eqb_refl in Hb.
  - injection Heq as Hc _. subst c. now rewrite N.eqb_refl in Ha.
  - apply andb_true_iff in Ha, Hb. destruct Ha as [_ Ha], Hb as [_ Hb].
    injection Heq as Hcd Heq. subst d.
    destruct (IH _ _ _ Ha Hb Heq) as [-> ->]. now split.
Qed.

(** X24. A line of the file determines its record. When the two dates of
    two records hold no double quote, and the records are written as the
    same line, their five texts are the same: the doubling of the quotes
    in the title, the type and the description keeps every comma and
    every quote of a text inside its field. *)
Theorem csv_line_determines_record cv a b fa fb :
  has_texts a fa -> has_texts b fb ->
  dates_plain fa = true -> dates_plain fb = true ->
  row cv a = row cv b ->
  fa = fb.
Proof.
  intros Ha Hb Hda Hdb Hrow.
  rewrite (row_of_texts cv a fa Ha), (row_of_texts cv b fb Hb) in Hrow.
  unfold dates_plain in Hda, Hdb. apply andb_true_iff in Hda, Hdb.
  destruct Hda as [Hda Hsa], Hdb as [Hdb Hsb].
  destruct fa as [t1 ty1 d1 s1 de1], fb as [t2 ty2 d2 s2 de2].
  cbn [title type_ due_date start_date description] in *.
  injection Hrow as Hrow.
  apply double_quotes_prefix in Hrow; [|cbn; discriminate..].
  destruct Hrow as [-> Hrow]. injection Hrow as Hrow.
  apply double_quotes_prefix in Hrow; [|cbn; discriminate..].
  destruct Hrow as [-> Hrow]. injection Hrow as Hrow.
  apply plain_prefix in Hrow; [|assumption..].
  destruct Hrow as [-> Hrow]. injection Hrow as Hrow.
  apply plain_prefix in Hrow; [|assumption..].
  destruct Hrow as [-> Hrow]. injection Hrow as Hrow.
  apply (double_quotes_prefix de1 de2 [] []) in Hrow; [|cbn; discriminate..].
  destruct Hrow as [-> _]. reflexivity.
Qed.

Lemma quiz_row_texts id : has_texts (quiz_row id) quiz_texts.
Proof. repeat split; eexists; split; reflexivity. Qed.

Lemma csv_line_determines_record_witness :
  row decimal (quiz_row "7") = row decimal (quiz_row "8") /\
  quiz_texts = quiz_texts.
Proof.
  split; [reflexivity|].
  apply (csv_line_determines_record decimal (quiz_row "7") (quiz_row "8"));
    try reflexivity; apply quiz_row_texts.
Defined.

(** Without the condition on the dates a line does not determine its
    record: the dates are written as they are. *)
Example csv_dates_are_not_escaped cv :
  let a := VObject [(lit "due_date", VString (json_text "x','y"));
                    (lit "start_date", VString (lit "z"))] in
  let b := VObject [(lit "due_date", VString (lit "x"));
                    (lit "start_date", VString (json_text "y','z"))] in
  row cv a = row cv b.
Proof. reflexivity. Qed.

Lemma escaped_throws v :
  truthy v = true -> is_string v = false -> exists e, escaped v = Throw e.
Proof.
  intros Ht Hs. unfold escaped, or_empty. rewrite Ht.
  destruct v; try discriminate; cbn; eauto.
Qed.

Lemma row_throws cv a k v :
  In k [lit "title"; lit "type"; lit "description"] ->
  get a k = Normal v -> truthy v = true -> is_string v = false ->
  exists e, row cv a = Throw e.
Proof.
  intros Hk Hget Ht Hs. destruct (escaped_throws v Ht Hs) as [e He].
  unfold row.
  destruct Hk as [<-|[<-|[<-|[]]]].
  - rewrite Hget. cbn [bind]. rewrite He. cbn [bind]. eauto.
  - destruct (get a (lit "title")) as [x1|]; cbn [bind]; eauto.
    destruct (escaped x1); cbn [bind]; eauto.
    rewrite Hget. cbn [bind]. rewrite He. cbn [bind]. eauto.
  - destruct (get a (lit "title")) as [x1|]; cbn [bind]; eauto.
    destruct (escaped x1); cbn [bind]; eauto.
    destruct (get a (lit "type")) as [x2|]; cbn [bind]; eauto.
    destruct (escaped x2); cbn [bind]; eauto.
    destruct (get a (lit "due_date")) as [x3|]; cbn [bind]; eauto.
    destruct (interpolated cv x3); cbn [bind]; eauto.
    destruct (get a (lit "start_date")) as [x4|]; cbn [bind]; eauto.
    destruct (interpolated cv x4); cbn [bind]; eauto.
    rewrite Hget. cbn [bind]. rewrite He. cbn [bind]. eauto.
Qed.

Lemma map_rows_throws cv a e elems :
  In a elems -> row cv a = Throw e -> exists e', map_rows cv elems = Throw e'.
Proof.
  intros Hin Hrow. induction elems as [|a0 elems IH]; [contradiction|].
  cbn [map_rows]. destruct (row cv a0) as [r|e0] eqn:H0; cbn [bind]; eauto.
  destruct Hin as [->|Hin]; [congruence|].
  destruct (IH Hin) as [e' He']. rewrite He'. cbn [bind]. eauto.
Qed.

(** X25. One record that the export cannot write stops the whole export.
    When a record of the table has a title, a type or a description that
    is truthy and not a string (a number, say, as the model may write
    it), the function returns [false] and no file is saved, whatever the
    other records are. *)
Theorem export_fails_on_field_that_is_no_text cv elems a k v name saved :
  In a elems ->
  In k [lit "title"; lit "type"; lit "description"] ->
  get a k = Normal v -> truthy v = true -> is_string v = false ->
  exportAssignmentsToCSV cv (VArray elems) name saved = (VBool false, saved).
Proof.
  intros Hin Hk Hget Ht Hs.
  destruct (row_throws cv a k v Hk Hget Ht Hs) as [e He].
  destruct (map_rows_throws cv a e elems Hin He) as [e' He'].
  unfold exportAssignmentsToCSV, csvString. cbn [truthy Array_isArray negb orb elements].
  destruct elems as [|a0 elems']; [contradiction|]. cbn [length Nat.eqb].
  rewrite He'. reflexivity.
Qed.

Lemma export_fails_on_field_that_is_no_text_witness :
  exportAssignmentsToCSV decimal (VArray [quiz_row "7"; numbered])
    (lit "assignments.csv") []
  = (VBool false, []).
Proof.
  apply (export_fails_on_field_that_is_no_text decimal _ numbered
           (lit "title") (VNumber (of_nat 5)));
    try reflexivity.
  - right. left. reflexivity.
  - left. reflexivity.
Defined.

Lemma map_rows_texts cv elems :
  Forall (fun a => exists f, has_texts a f) elems ->
  exists rows, map_rows cv elems = Normal rows /\
               Forall2 (fun a r => row cv a = Normal r) elems rows.
Proof.
  induction 1 as [|a elems [f Hf] Hall [rows [Hrows Hforall]]].
  - exists []. now split.
  - cbn [map_rows]. pose proof (row_of_texts cv a f Hf) as Hrow.
    rewrite Hrow, Hrows. cbn [bind]. eexists. split; [reflexivity|].
    constructor; [exact Hrow|exact Hforall].
Qed.

(** X26. Records are exported as long as their fields are texts. For a
    table that is not empty and whose records all hold strings (or nothing)
    in the five fields, the function returns [true] and saves one file,
    under the name it was given: the line of the headers followed by the
    line of each record, in the order of the table. *)
Theorem records_of_texts_are_saved cv elems name saved :
  elems <> [] ->
  Forall (fun a => exists f, has_texts a f) elems ->
  exists rows,
    Forall2 (fun a r => row cv a = Normal r) elems rows /\
    exportAssignmentsToCSV cv (VArray elems) name saved
    = (VBool true,
       saved ++ [{| filename := name;
                    content := join [LF]
                                 (lit "Title,Type,Due Date,Start Date,Description"
                                  :: rows) |}]).
Proof.
  intros Hne Hall. destruct (map_rows_texts cv elems Hall) as (rows & Hrows & Hf).
  exists rows. split; [exact Hf|].
  unfold exportAssignmentsToCSV, csvString. cbn [truthy Array_isArray negb orb elements].
  destruct elems as [|a0 elems']; [congruence|]. cbn [length Nat.eqb].
  rewrite Hrows. reflexivity.
Qed.

Lemma records_of_texts_are_saved_witness :
  exists rows,
    Forall2 (fun a r => row decimal a = Normal r)
            [quiz_row "7"; quiz_row "8"] rows /\
    exportAssignmentsToCSV decimal (VArray [quiz_row "7"; quiz_row "8"])
      (lit "assignments.csv") []
    = (VBool true,
       [] ++ [{| filename := lit "assignments.csv";
                 content := join [LF]
                              (lit "Title,Type,Due Date,Start Date,Description"
                               :: rows) |}]).
Proof.
  apply records_of_texts_are_saved; [discriminate|].
  repeat constructor; exists quiz_texts; apply quiz_row_texts.
Defined.

(** ** The rows of the table *)

Lemma jstring_eqb_neq a b : a <> b -> jstring_eqb a b = false.
Proof.
  intros Hab. destruct (jstring_eqb a b) eqn:Heq; [|reflexivity].
  now apply jstring_eqb_eq in Heq.
Qed.

Lemma lookup_set_prop_same k v props : lookup k (set_prop k v props) = Some v.
Proof.
  induction props as [|[k0 v0] props IH]; cbn [set_prop lookup].
  - now rewrite jstring_eqb_refl.
  - destruct (jstring_eqb k k0) eqn:Hk; cbn [lookup]; rewrite Hk;
      [reflexivity|exact IH].
Qed.

Lemma lookup_set_prop_other k k' v props :
  k' <> k -> lookup k' (set_prop k v props) = lookup k' props.
Proof.
  intros Hk. induction props as [|[k0 v0] props IH]; cbn [set_prop lookup].
  - now rewrite (jstring_eqb_neq _ _ Hk).
  - destruct (jstring_eqb k k0) eqn:Hk0; cbn [lookup].
    + apply jstring_eqb_eq in Hk0. subst k0.
      now rewrite (jstring_eqb_neq _ _ Hk).
    + now rewrite IH.
Qed.

(** Properties created one after the other, each with the value that its
    key determines. *)
Lemma lookup_created f keys : forall acc k,
  lookup k (fold_left (fun acc kv => set_prop (fst kv) (snd kv) acc)
                      (map (fun k => (k, f k)) keys) acc)
  = if existsb (jstring_eqb k) keys then Some (f k) else lookup k acc.
Proof.
  induction keys as [|k0 keys IH]; intros acc k; cbn [map fold_left existsb];
    [reflexivity|].
  rewrite IH. cbn [fst snd].
  destruct (existsb (jstring_eqb k) keys); [now rewrite orb_true_r|].
  rewrite orb_false_r. destruct (jstring_eqb k k0) eqn:Hk.
  - apply jstring_eqb_eq in Hk. subst k0. apply lookup_set_prop_same.
  - apply lookup_set_prop_other. intros ->.
    now rewrite jstring_eqb_refl in Hk.
Qed.

Lemma lookup_keys k props :
  lookup k props
  = if existsb (jstring_eqb k) (map fst props) then lookup k props else None.
Proof.
  induction props as [|[k0 v0] props IH]; cbn [lookup map fst existsb];
    [reflexivity|].
  destruct (jstring_eqb k k0); [reflexivity|exact IH].
Qed.

(** Spreading a record copies it: every key reads as before. *)
Lemma lookup_spread props k :
  forallb (fun kv => named (fst kv)) props = true ->
  lookup k (spread (VObject props) []) = lookup k props.
Proof.
  intros Hnamed. unfold spread, own_entries.
  destruct (named_keys_all _ Hnamed) as [Hi Hn]. rewrite Hi, Hn. cbn [map app].
  rewrite lookup_created. cbn [lookup]. rewrite (lookup_keys k props) at 2.
  destruct (existsb (jstring_eqb k) (map fst props)) eqn:He; [|reflexivity].
  rewrite (lookup_keys k props), He.
  destruct (lookup k props) eqn:Hl; [reflexivity|].
  exfalso. clear - He Hl. induction props as [|[k0 v0] props IH];
    cbn [map fst existsb lookup] in *; [discriminate|].
  destruct (jstring_eqb k k0); [discriminate|]. now apply IH.
Qed.

Lemma map_index_length f rows : forall index,
    length (map_index f index rows) = length rows.
Proof.
  induction rows as [|row rows IH]; intros index; cbn [map_index length];
    [reflexivity|].
  now rewrite IH.
Qed.

Lemma map_index_nth f rows : forall index j,
  nth_error (map_index f index rows) j
  = option_map (fun row => f row (index + j)) (nth_error rows j).
Proof.
  induction rows as [|row rows IH]; intros index [|j];
    cbn [map_index nth_error option_map]; try reflexivity.
  - now rewrite Nat.add_0_r.
  - rewrite IH. now replace (S index + j) with (index + S j) by lia.
Qed.

(** X27. An edit changes one cell. After [updateData] the table has as
    many rows as before, every other row is the row it was, and in the
    edited row (a record whose keys are names) the edited column reads the
    new value and every other column reads as before. An index beyond the
    table changes nothing. *)
Theorem edit_changes_one_cell rowIndex columnId v old :
  let rows := updateData rowIndex columnId v old in
  length rows = length old /\
  (forall j, j <> rowIndex -> nth_error rows j = nth_error old j) /\
  (forall row,
     nth_error old rowIndex = Some row -> record row = true ->
     exists row',
       nth_error rows rowIndex = Some row' /\
       get row' columnId = Normal v /\
       forall k, k <> columnId -> get row' k = get row k).
Proof.
  cbv zeta. unfold updateData. split; [apply map_index_length|]. split.
  - intros j Hj. rewrite map_index_nth. cbn [Nat.add].
    apply Nat.eqb_neq in Hj. rewrite Hj. now destruct (nth_error old j).
  - intros row Hrow Hrecord. rewrite map_index_nth, Hrow.
    cbn [Nat.add option_map]. rewrite Nat.eqb_refl.
    rewrite (nth_error_nth _ _ _ Hrow).
    eexists. split; [reflexivity|].
    destruct row as [| | | | | |props]; try discriminate Hrecord.
    cbn [record] in Hrecord. cbn [get]. split.
    + now rewrite lookup_set_prop_same.
    + intros k Hk. rewrite (lookup_set_prop_other _ _ _ _ Hk).
      now rewrite (lookup_spread _ _ Hrecord).
Qed.

Lemma edit_changes_one_cell_witness :
  let old := [quiz_row "7"; quiz_row "8"] in
  let rows := updateData 1 (lit "title") (VString (lit "Quiz 3")) old in
  length rows = length old /\
  nth_error rows 0 = nth_error old 0 /\
  exists row',
    nth_error rows 1 = Some row' /\
    get row' (lit "title") = Normal (VString (lit "Quiz 3")) /\
    get row' (lit "due_date") = get (quiz_row "8") (lit "due_date").
Proof.
  intros old rows.
  destruct (edit_changes_one_cell 1 (lit "title") (VString (lit "Quiz 3")) old)
    as (Hlen & Hother & Hcell).
  split; [exact Hlen|]. split; [apply Hother; discriminate|].
  destruct (Hcell (quiz_row "8") eq_refl eq_refl) as (row' & Hrow & Hv & Hk).
  exists row'. split; [exact Hrow|]. split; [exact Hv|].
  apply Hk. discriminate.
Defined.

Lemma filter_index_all keep rows : forall index,
  (forall j, j < length rows -> keep (index + j) = true) ->
  filter_index keep index rows = rows.
Proof.
  induction rows as [|row rows IH]; intros index Hkeep; cbn [filter_index];
    [reflexivity|].
  pose proof (Hkeep 0 ltac:(cbn; lia)) as H0. rewrite Nat.add_0_r in H0.
  rewrite H0, IH; [reflexivity|].
  intros j Hj. replace (S index + j) with (index + S j) by lia.
  apply Hkeep. cbn. lia.
Qed.

Lemma filter_index_drop rows : forall index rowIndex,
  filter_index (fun i => negb (i =? index + rowIndex)) index rows
  = firstn rowIndex rows ++ skipn (S rowIndex) rows.
Proof.
  induction rows as [|row rows IH]; intros index rowIndex;
    cbn [filter_index].
  - now destruct rowIndex.
  - destruct rowIndex as [|r].
    + rewrite Nat.add_0_r, Nat.eqb_refl. cbn [negb firstn skipn app].
      apply filter_index_all. intros j _.
      apply negb_true_iff, Nat.eqb_neq. lia.
    + assert (Hne : (index =? index + S r) = false)
        by (apply Nat.eqb_neq; lia).
      rewrite Hne. cbn [negb firstn skipn app]. f_equal.
      replace (index + S r) with (S index + r) by lia. apply IH.
Qed.

(** X28. A deletion removes the row at the index and keeps the others in
    their order; an index beyond the table removes nothing. Deleting the
    row that [addRow] has just appended gives the table back. *)
Theorem delete_removes_one_row rowIndex old uuid today :
  deleteRow rowIndex old = firstn rowIndex old ++ skipn (S rowIndex) old /\
  (length old <= rowIndex -> deleteRow rowIndex old = old) /\
  deleteRow (length old) (addRow uuid today old) = old.
Proof.
  assert (Hdrop : forall i rows,
            deleteRow i rows = firstn i rows ++ skipn (S i) rows)
    by (intros i rows; exact (filter_index_drop rows 0 i)).
  split; [apply Hdrop|]. split.
  - intros Hlen. rewrite Hdrop, firstn_all2, skipn_all2 by lia.
    apply app_nil_r.
  - rewrite Hdrop. unfold addRow.
    rewrite firstn_app, firstn_all, Nat.sub_diag. cbn [firstn].
    rewrite skipn_all2 by (rewrite length_app; cbn; lia).
    now rewrite !app_nil_r.
Qed.

Lemma delete_removes_one_row_witness :
  let old := [quiz_row "7"; quiz_row "8"] in
  deleteRow 0 old = [quiz_row "8"] /\
  deleteRow 5 old = old /\
  deleteRow 2 (addRow (lit "9") (lit "2025-01-15") old) = old.
Proof.
  intros old.
  destruct (delete_removes_one_row 0 old (lit "9") (lit "2025-01-15"))
    as (Hdrop & _ & Hadd).
  destruct (delete_removes_one_row 5 old (lit "9") (lit "2025-01-15"))
    as (_ & Hbeyond & _).
  split; [exact Hdrop|]. split; [apply Hbeyond; cbn; lia|exact Hadd].
Defined.

(** ** The page *)

Lemma guard_idle captured s :
  isParsingAssignments captured = false -> guard_callback captured s = s.
Proof. intros Hc. unfold guard_callback. now rewrite Hc. Qed.

Ltac run_page :=
  unfold proxy_attempt, direct_attempt, body_at, fetch, update, setTimeout,
    Page.clearTimeout, mtry, mbind, ret, throw, lift;
  cbn [view clock guard_pending requests fst snd app negb].

Lemma late_response e req_body c text outcome t :
  get req_body (lit "text") = Normal (VString (c :: text)) ->
  extractAssignmentsFromSyllabus (api e) (c :: text) fresh = (outcome, t) ->
  (EARLY_ACK_MS <= now t)%N ->
  post_parse_assignments e req_body
  = [{| status := 202; body := processing_body e |}].
Proof.
  intros Htext Hrun Hnow. unfold post_parse_assignments. rewrite Htext.
  fold fresh. rewrite Hrun. apply N.ltb_ge in Hnow. rewrite Hnow.
  fold started. apply timer_first.
Qed.

(** The run when the answer through the proxy is taken. *)
Lemma proxy_answer_taken cv net epoch s after answer result :
  truthy (extractedText s) = true ->
  isParsingAssignments s = false ->
  net Proxy (first_body s epoch) = (after, answer) ->
  taken answer result ->
  parseAssignments cv net epoch s
  = {| view := setIsParsingAssignments false
                 (setActiveStep 3
                    (setAssignments result
                       (setError VNull (setIsParsingAssignments true s))));
       clock := after;
       guard_pending := false;
       requests := [(Proxy, first_body s epoch)] |}.
Proof.
  intros Htext Hidle Hnet (response & data & -> & Hok & Hjson & Hresult).
  unfold parseAssignments. rewrite Htext. cbn [negb]. run_page.
  rewrite N.add_0_r. fold (first_body s epoch). rewrite Hnet.
  rewrite Hok, Hjson, Hresult. rewrite (guard_idle s _ Hidle).
  cbn [fst snd negb]. rewrite N.add_0_l.
  destruct (GUARD_MS <=? after)%N; reflexivity.
Qed.

(** X29. A slow extraction leaves the placeholder on the page. When the
    requests of the page reach the route of the server, and the
    extraction of the text takes ten seconds or more, the one request of
    the handler is answered with the 202, which the handler takes as the
    result: the page moves on to the table with the placeholder record as
    its only row, without an error, and the handler asks no second
    time. *)
Theorem slow_extraction_shows_placeholder cv net epoch s e c text outcome t :
  extractedText s = VString (c :: text) ->
  isParsingAssignments s = false ->
  proxied net e ->
  extractAssignmentsFromSyllabus (api e) (c :: text) fresh = (outcome, t) ->
  (EARLY_ACK_MS <= now t)%N ->
  let r := parseAssignments cv net epoch s in
  get (processing_body e) (lit "assignments")
  = Normal (assignments (view r)) /\
  activeStep (view r) = 3%N /\
  error (view r) = VNull /\
  isParsingAssignments (view r) = false /\
  requests r = [(Proxy, first_body s epoch)].
Proof.
  intros Htext Hidle Hnet Hrun Hlate. cbv zeta.
  assert (H202 : post_parse_assignments e (first_body s epoch)
                 = [{| status := 202; body := processing_body e |}]).
  { apply (late_response e _ c text outcome t); [|exact Hrun|exact Hlate].
    unfold first_body. cbn [get lookup].
    change (jstring_eqb (lit "text") (lit "text")) with true.
    cbn [or_undefined]. now rewrite Htext. }
  destruct (Hnet _ _ H202) as [after Hanswer].
  rewrite (proxy_answer_taken cv net epoch s after _
             (VObject [
                (lit "processing", VBool true);
                (lit "items",
                 VArray [info_record "Processing Assignment Data"
                           "Your syllabus is still being processed. This may take up to 1-2 minutes for large files."
                           e])])
             ltac:(now rewrite Htext) Hidle Hanswer).
  - repeat split.
  - unfold taken, delivered. cbn [status body].
    do 2 eexists. repeat split.
Qed.

Lemma slow_extraction_shows_placeholder_witness :
  let e := env_of decimal (Settles 12000 (Fulfilled (reply quiz_output)))
                  Hangs in
  let r := parseAssignments decimal (proxy_to e) 1736900000000
             (extracted quiz_text) in
  get (processing_body e) (lit "assignments")
  = Normal (assignments (view r)) /\
  activeStep (view r) = 3%N /\
  error (view r) = VNull /\
  isParsingAssignments (view r) = false /\
  requests r = [(Proxy, first_body (extracted quiz_text) 1736900000000)].
Proof.
  intros e.
  eapply (slow_extraction_shows_placeholder decimal (proxy_to e)
            1736900000000 (extracted quiz_text) e 81%N
            (lit "uiz 2 due Feb 15, covers ch 4-6")).
  - reflexivity.
  - reflexivity.
  - intros req_body r Hr. exists 10000%N. unfold proxy_to. now rewrite Hr.
  - vm_compute. reflexivity.
  - vm_compute. discriminate.
Defined.

Lemma taken_dec answer :
  (exists result, taken answer result) \/ ~ (exists result, taken answer result).
Proof.
  unfold taken. destruct answer as [response|e].
  - destruct (ok response) eqn:Hok.
    + destruct (json response) as [data|e] eqn:Hjson.
      * destruct (get data (lit "assignments")) as [result|e] eqn:Hresult.
        -- left. exists result, response, data. now repeat split.
        -- right. intros (result & r & d & Hr & _ & Hd & Hg).
           inversion Hr; subst r. congruence.
      * right. intros (result & r & d & Hr & _ & Hd & _).
        inversion Hr; subst r. congruence.
    + right. intros (result & r & d & Hr & Ho & _).
      inversion Hr; subst r. congruence.
  - right. intros (result & r & d & Hr & _). discriminate.
Qed.

(** The handler, attempt by attempt. *)
Lemma parseAssignments_run cv net epoch s :
  truthy (extractedText s) = true ->
  parseAssignments cv net epoch s =
  let failed e (r : run) :=
    {| view := setIsParsingAssignments false
                 (setError
                    (message_or e
                       "Failed to parse assignments. Please try again.")
                    (view r));
       clock := clock r; guard_pending := false; requests := requests r |} in
  let ended (r : run) :=
    {| view := setIsParsingAssignments false (view r); clock := clock r;
       guard_pending := guard_pending r; requests := requests r |} in
  match proxy_attempt net s epoch
          {| view := setError VNull (setIsParsingAssignments true s);
             clock := 0; guard_pending := true; requests := [] |} with
  | (Normal true, r1) => ended r1
  | (Normal false, r1) =>
      match direct_attempt cv net s epoch r1 with
      | (Normal _, r2) => ended r2
      | (Throw e, r2) => failed e r2
      end
  | (Throw e, r1) => failed e r1
  end.
Proof.
  intros Htext. unfold parseAssignments. rewrite Htext. cbn [negb].
  unfold mtry, mbind, update, setTimeout, Page.clearTimeout, ret.
  cbn [view clock guard_pending requests snd].
  destruct (proxy_attempt _ _ _ _) as [[[|]|e] r1]; try reflexivity.
  cbn [negb]. destruct (direct_attempt _ _ _ _ _) as [[u|e] r2]; reflexivity.
Qed.

(** An answer through the proxy that is not taken: the attempt fails
    without an exception. *)
Lemma proxy_attempt_fails net s epoch r0 :
  ~ (exists result,
       taken (snd (net Proxy (first_body s (epoch + clock r0)))) result) ->
  exists r1,
    proxy_attempt net s epoch r0 = (Normal false, r1) /\
    requests r1
    = requests r0 ++ [(Proxy, first_body s (epoch + clock r0))].
Proof.
  intros Hnot. run_page. fold (first_body s (epoch + clock r0)).
  destruct (net Proxy _) as [after [response|e]]; cbn [fst snd] in *;
    [|eexists; split; reflexivity].
  destruct (ok response) eqn:Hok; [|eexists; split; reflexivity].
  destruct (json response) as [data|] eqn:Hjson; cbn [fst snd];
    [|eexists; split; reflexivity].
  destruct (get data (lit "assignments")) as [result|] eqn:Hresult;
    cbn [fst snd]; [|eexists; split; reflexivity].
  exfalso. apply Hnot. exists result, response, data. now repeat split.
Qed.

(** The direct attempt sends one request with the text, and leaves no
    timer behind when it returns. *)
Lemma direct_attempt_ends cv net s epoch r1 :
  let c := fst (direct_attempt cv net s epoch r1) in
  let r2 := snd (direct_attempt cv net s epoch r1) in
  requests r2
  = requests r1 ++ [(Direct, first_body s (epoch + clock r1))] /\
  (forall u, c = Normal u -> guard_pending r2 = false).
Proof.
  cbv zeta. run_page. fold (first_body s (epoch + clock r1)).
  destruct (net Direct _) as [after [response|e]]; cbn [fst snd];
    [|split; [reflexivity|discriminate]].
  destruct (ok response); cbn [negb].
  - destruct (json response) as [data|]; cbn [fst snd];
      [|split; [reflexivity|discriminate]].
    destruct (get data (lit "assignments")); cbn [fst snd];
      split; try reflexivity; discriminate.
  - destruct (try_catch (json response) _) as [errorData|]; cbn [fst snd];
      [|split; [reflexivity|discriminate]].
    destruct (get errorData (lit "error")) as [given|]; cbn [fst snd];
      [|split; [reflexivity|discriminate]].
    destruct (new_Error cv given _); cbn [fst snd];
      split; try reflexivity; discriminate.
Qed.

(** X30. The second request. From a page that is not already asking, the
    handler sends its request through the proxy; when the answer is one
    that it takes (an [ok] response whose body is JSON with
    [assignments]), that is its only request, the page moves on to the
    table and shows no error, however late the answer comes. In every
    other case it sends the same text once more, directly to the server,
    so that a request answered with an error status is made twice. The
    handler never leaves the page asking, nor its timer pending. *)
Theorem direct_request_follows_refused_proxy cv net epoch s :
  truthy (extractedText s) = true ->
  isParsingAssignments s = false ->
  let r := parseAssignments cv net epoch s in
  let answer := snd (net Proxy (first_body s epoch)) in
  isParsingAssignments (view r) = false /\
  guard_pending r = false /\
  (forall result,
     taken answer result ->
     requests r = [(Proxy, first_body s epoch)] /\
     assignments (view r) = result /\
     activeStep (view r) = 3%N /\ error (view r) = VNull) /\
  (~ (exists result, taken answer result) ->
   exists req_body,
     requests r = [(Proxy, first_body s epoch); (Direct, req_body)] /\
     get req_body (lit "text") = Normal (extractedText s)).
Proof.
  intros Htext Hidle. cbv zeta.
  destruct (taken_dec (snd (net Proxy (first_body s epoch))))
    as [[result Htaken]|Hnot].
  - destruct (net Proxy (first_body s epoch)) as [after answer] eqn:Hnet.
    cbn [snd] in *.
    rewrite (proxy_answer_taken cv net epoch s after answer result
               Htext Hidle Hnet Htaken).
    cbn [view guard_pending requests]. split; [reflexivity|].
    split; [reflexivity|]. split.
    + intros result' Htaken'.
      assert (Hsame : result = result').
      { destruct Htaken as (r1 & d1 & -> & _ & Hj1 & Hg1).
        destruct Htaken' as (r2 & d2 & Heq & _ & Hj2 & Hg2).
        inversion Heq; subst r2. congruence. }
      subst result'. repeat split.
    + intros Hnot. destruct Hnot. now exists result.
  - rewrite (parseAssignments_run cv net epoch s Htext). cbv zeta.
    destruct (proxy_attempt_fails net s epoch
                {| view := setError VNull (setIsParsingAssignments true s);
                   clock := 0; guard_pending := true; requests := [] |})
      as (r1 & Hproxy & Hreq1).
    { cbn [clock]. now rewrite N.add_0_r. }
    rewrite Hproxy. cbn [clock requests app] in Hreq1.
    rewrite N.add_0_r in Hreq1.
    destruct (direct_attempt_ends cv net s epoch r1) as [Hreq2 Hguard].
    rewrite Hreq1 in Hreq2. cbn [app] in Hreq2.
    destruct (direct_attempt cv net s epoch r1) as [[u|e] r2];
      cbn [fst snd view guard_pending requests] in *.
    + split; [reflexivity|]. split; [exact (Hguard u eq_refl)|].
      split; [intros result Htaken; destruct Hnot; now exists result|].
      intros _. eexists. split; [exact Hreq2|reflexivity].
    + split; [reflexivity|]. split; [reflexivity|].
      split; [intros result Htaken; destruct Hnot; now exists result|].
      intros _. eexists. split; [exact Hreq2|reflexivity].
Qed.

Lemma direct_request_follows_refused_proxy_witness :
  let e := env_of decimal
             (Settles 3000 (Fulfilled (reply (json_text "{'items': []}"))))
             Hangs in
  let s := extracted quiz_text in
  let r := parseAssignments decimal (proxy_to e) 1736900000000 s in
  isParsingAssignments (view r) = false /\
  guard_pending r = false /\
  exists req_body,
    requests r = [(Proxy, first_body s 1736900000000); (Direct, req_body)] /\
    get req_body (lit "text") = Normal (extractedText s).
Proof.
  intros e s.
  destruct (direct_request_follows_refused_proxy decimal (proxy_to e)
              1736900000000 s eq_refl eq_refl)
    as (Hidle & Hguard & _ & Hsecond).
  split; [exact Hidle|]. split; [exact Hguard|].
  apply Hsecond. intros (result & response & data & Hanswer & Hok & _).
  vm_compute in Hanswer. inversion Hanswer; subst response.
  vm_compute in Hok. discriminate Hok.
Defined.
